(** * Verification of the text pipeline and retrieval engine of ntu-admin-helper

    Shallow embedding of [src/processor.py] ([DataProcessor]) and
    [src/rag_engine.py] ([EnhancedRAGEngine]).

    Python [str] values are sequences of Unicode code points; they are
    modelled as [list Z].  Literals are written as Rocq strings holding
    UTF-8 and decoded by [u]. *)

From Stdlib Require Import ZArith List Bool Lia Ascii String QArith Lqa Sorting Permutation Relations.
Import ListNotations.
Open Scope Z_scope.

(** ** Python strings *)

Definition str := list Z.

(** UTF-8 decoding of a Rocq string literal into code points. *)
Fixpoint utf8_decode (fuel : nat) (bs : list Z) : list Z :=
  match fuel with
  | O => []
  | S fuel' =>
    match bs with
    | [] => []
    | b0 :: rest =>
      if b0 <? 128 then b0 :: utf8_decode fuel' rest
      else if b0 <? 224 then
        match rest with
        | b1 :: rest' => (Z.land b0 31 * 64 + Z.land b1 63) :: utf8_decode fuel' rest'
        | [] => []
        end
      else if b0 <? 240 then
        match rest with
        | b1 :: b2 :: rest' =>
          (Z.land b0 15 * 4096 + Z.land b1 63 * 64 + Z.land b2 63) :: utf8_decode fuel' rest'
        | _ => []
        end
      else
        match rest with
        | b1 :: b2 :: b3 :: rest' =>
          (Z.land b0 7 * 262144 + Z.land b1 63 * 4096 + Z.land b2 63 * 64 + Z.land b3 63)
            :: utf8_decode fuel' rest'
        | _ => []
        end
    end
  end.

Definition u (s : string) : str :=
  let bs := map (fun a => Z.of_nat (nat_of_ascii a)) (list_ascii_of_string s) in
  utf8_decode (List.length bs) bs.

Example u_lou : u "樓" = [27155]. Proof. reflexivity. Qed.

Fixpoint str_eqb (a b : str) : bool :=
  match a, b with
  | [], [] => true
  | x :: a', y :: b' => (x =? y) && str_eqb a' b'
  | _, _ => false
  end.

(** [s.startswith(p)] *)
Fixpoint startswith (s p : str) : bool :=
  match p, s with
  | [], _ => true
  | c :: p', d :: s' => (c =? d) && startswith s' p'
  | _ :: _, [] => false
  end.

(** [p in s] *)
Fixpoint contains (s p : str) : bool :=
  startswith s p || match s with [] => false | _ :: s' => contains s' p end.

(** [s.split(sep)[0]]: the text before the first occurrence of [sep]. *)
Fixpoint split_head (s sep : str) : str :=
  if startswith s sep then []
  else match s with [] => [] | c :: s' => c :: split_head s' sep end.

(** [s.replace(old, new)], left to right, non-overlapping ([old] non-empty). *)
Fixpoint replace_fuel (fuel : nat) (s old new : str) : str :=
  match fuel with
  | O => s
  | S f =>
    match s with
    | [] => []
    | c :: s' =>
      if startswith s old then new ++ replace_fuel f (skipn (List.length old) s) old new
      else c :: replace_fuel f s' old new
    end
  end.

Definition replace (s old new : str) : str := replace_fuel (List.length s) s old new.

Definition nl : Z := 10.

(** [s.split("\n")] *)
Fixpoint split_lines (s : str) : list str :=
  match s with
  | [] => [[]]
  | c :: s' =>
    if c =? nl then [] :: split_lines s'
    else match split_lines s' with
         | l :: ls => (c :: l) :: ls
         | [] => [[c]]
         end
  end.

(** ["\n".join(ls)] *)
Fixpoint join_lines (ls : list str) : str :=
  match ls with
  | [] => []
  | [l] => l
  | l :: ls' => l ++ nl :: join_lines ls'
  end.

(** [str.isspace] on one code point (the full Unicode White_Space set
    Python uses, which is also what [\s] matches in a [str] pattern). *)
Definition is_space (c : Z) : bool :=
  ((9 <=? c) && (c <=? 13)) || ((28 <=? c) && (c <=? 32)) || (c =? 133) || (c =? 160)
  || (c =? 5760) || ((8192 <=? c) && (c <=? 8202)) || (c =? 8232) || (c =? 8233)
  || (c =? 8239) || (c =? 8287) || (c =? 12288).

(** [\d] of [re] on [str]: a decimal digit (category Nd); the blocks listed
    are ASCII, Arabic-Indic, Extended Arabic-Indic, Devanagari and full-width. *)
Definition is_decimal (c : Z) : bool :=
  ((48 <=? c) && (c <=? 57)) || ((1632 <=? c) && (c <=? 1641))
  || ((1776 <=? c) && (c <=? 1785)) || ((2406 <=? c) && (c <=? 2415))
  || ((65296 <=? c) && (c <=? 65305)).

(** [str.isdigit] on one code point: decimal digits and the other
    Numeric_Type=Digit characters (super/subscripts, circled digits). *)
Definition is_digit (c : Z) : bool :=
  is_decimal c || (c =? 178) || (c =? 179) || (c =? 185) || (c =? 8304)
  || ((8308 <=? c) && (c <=? 8313)) || ((8320 <=? c) && (c <=? 8329))
  || ((9312 <=? c) && (c <=? 9320)).

(** [s.isdigit()] *)
Definition str_isdigit (s : str) : bool :=
  match s with [] => false | _ => forallb is_digit s end.

Fixpoint drop_while (p : Z -> bool) (s : str) : str :=
  match s with
  | [] => []
  | c :: s' => if p c then drop_while p s' else s
  end.

(** [s.strip()] and [s.lstrip("#")] *)
Definition strip (s : str) : str :=
  rev (drop_while is_space (rev (drop_while is_space s))).

Definition hash : Z := 35.
Definition lstrip_hash (s : str) : str := drop_while (fun c => c =? hash) s.

(** [s[0].isdigit()] for a non-empty [s]; [None] models the [IndexError]. *)
Definition first_isdigit (s : str) : option bool :=
  match s with [] => None | c :: _ => Some (is_digit c) end.

Example split_join_ex : split_lines (join_lines [u "a"; u "b"]) = [u "a"; u "b"]. Proof. reflexivity. Qed.
Example strip_ex : strip (u "  ab ") = u "ab". Proof. reflexivity. Qed.

(** ** TextCleaner: [DataProcessor.clean_text_advanced] *)

Module TextCleaner.

Definition enrich_marker : str := u "【系統補充位置資訊】".
Definition lou : str := u "樓".
Definition admin_footer : str :=
  u "Overseas Chinese and Mainland Chinese Students Advising Division" ++ nl :: u "列印成績單".

Definition noise_patterns : list str :=
  [u "Administration Building - List of Offices"; u "Main Content"; u "地圖 MAP";
   u "校園景觀 Campus View"; u "更多資訊"; u "學校地圖上的建物編號"; u "Building ID /";
   u "單位清單 / Offices list"].

(** Step 2: strip each line, drop empty and noise lines, strip a leading
    [##] marker. *)
Fixpoint noise_pass (lines : list str) : list str :=
  match lines with
  | [] => []
  | l0 :: lines' =>
    let line := strip l0 in
    match line with
    | [] => noise_pass lines'
    | _ =>
      if existsb (contains line) noise_patterns then noise_pass lines'
      else (if startswith line (u "##") then strip (lstrip_hash line) else line)
             :: noise_pass lines'
    end
  end.

(** [line.isdigit() and len(line) <= 4 or (line.startswith("B") and line[1:].isdigit())] *)
Definition is_room (line : str) : bool :=
  (str_isdigit line && (List.length line <=? 4)%nat)
  || (startswith line (u "B") && str_isdigit (tl line)).

(** The floor-header branch of the loop body. *)
Definition floor_line (line : str) : str :=
  if contains line lou && (List.length line <? 10)%nat then
    (if startswith line (u "##") then line else u "## " ++ line)
  else line.

(** Step 3, the [while i < len(clean_lines)] loop; [None] is the
    [IndexError] raised by [next1[0]] on an empty [next1]. *)
Fixpoint structural (lines : list str) : option (list str) :=
  match lines with
  | [] => Some []
  | line :: lines' =>
    let default := option_map (cons (floor_line line)) (structural lines') in
    if is_room line then
      match lines' with
      | next1 :: next2 :: rest =>
        match first_isdigit next1 with
        | None => None
        | Some d =>
          if negb (d || contains next1 [hash] || contains next1 lou) then
            option_map (cons (u "- " ++ line ++ u " " ++ next1 ++ u " (" ++ next2 ++ u ")"))
                       (structural rest)
          else default
        end
      | _ => default
      end
    else default
  end.

Definition clean_text_advanced (text dept : str) : option str :=
  match text with
  | [] => Some []
  | _ =>
    let t0 := if contains text enrich_marker then strip (split_head text enrich_marker) else text in
    let t1 := if str_eqb dept (u "admin")
              then split_head (replace t0 (u "Admi nistration") (u "Administration")) admin_footer
              else t0 in
    match structural (noise_pass (split_lines t1)) with
    | None => None
    | Some final_lines =>
      let result := join_lines final_lines in
      Some (if contains result enrich_marker then strip (split_head result enrich_marker) else result)
    end
  end.

Example clean_room_ex :
  clean_text_advanced (join_lines [u "## 1樓"; u "106"; u "註冊組"; u "Registrar"]) (u "admin")
  = Some (join_lines [u "## 1樓"; u "- 106 註冊組 (Registrar)"]).
Proof. vm_compute. reflexivity. Qed.

End TextCleaner.

(** ** OfficeLocationExtractor: [DataProcessor._extract_office_locations] *)

Module Extractor.

Import TextCleaner.

Fixpoint take_while (p : Z -> bool) (s : str) : str :=
  match s with
  | [] => []
  | c :: s' => if p c then c :: take_while p s' else []
  end.

Definition chr_B : Z := 66.
Definition chr_dash : Z := 45.
Definition chr_lpar : Z := 40.
Definition chr_rpar : Z := 41.

(** The group [(\d+樓|B\d+)] matched at the start of [s] (no anchor after it):
    the first alternative needs the maximal digit run followed by 樓, the
    second a [B] followed by a maximal non-empty digit run. *)
Definition floor_group (s : str) : option str :=
  let ds := take_while is_decimal s in
  if negb (Nat.eqb (List.length ds) 0) && startswith (skipn (List.length ds) s) lou
  then Some (ds ++ lou)
  else match s with
       | b :: s' =>
         if b =? chr_B then
           match take_while is_decimal s' with
           | [] => None
           | ds' => Some (b :: ds')
           end
         else None
       | [] => None
       end.

(** [re.match(r'^(?:##\s* )?(\d+樓|B\d+)', line)] (blank added before the paren), returning group 1: the
    optional [##] plus blanks prefix is tried first, then the match without it. *)
Definition floor_match (line : str) : option str :=
  match (if startswith line (u "##") then floor_group (drop_while is_space (skipn 2 line)) else None) with
  | Some f => Some f
  | None => floor_group line
  end.

(** The optional group [(?:\s*\((.+?)\))?] followed by [$] on the rest [v]
    of the line: [v] is blanks, [(], a non-empty [X] and a final [)];
    the lazy group 3 is [X]. *)
Definition en_group (v : str) : option str :=
  match drop_while is_space v with
  | c :: x =>
    if (c =? chr_lpar) && (2 <=? List.length x)%nat && (last x 0 =? chr_rpar)
    then Some (removelast x) else None
  | [] => None
  end.

(** The lazy [(.+?)]: extend the consumed part one character at a time
    until the rest matches the optional group plus [$]. *)
Fixpoint lazy_name (taken rest : str) : str * option str :=
  match en_group rest with
  | Some x => (taken, Some x)
  | None =>
    match rest with
    | [] => (taken, None)
    | d :: rest' => lazy_name (taken ++ [d]) rest'
    end
  end.

(** [\s+(.+?)(?:\s*\((.+?)\))?$] on the text [r] after the room number:
    [\s+] takes all blanks unless nothing would be left for [(.+?)], in
    which case it gives one back. *)
Definition name_part (r : str) : option (str * option str) :=
  let k := List.length (take_while is_space r) in
  if Nat.eqb k 0 then None
  else match skipn k r with
       | c :: t => Some (lazy_name [c] t)
       | [] => if (2 <=? k)%nat then Some (lazy_name [last r 0] []) else None
       end.

(** [re.match(r'^-\s*(\d+|B\d+)\s+(.+?)(?:\s*\((.+?)\))?$', line)],
    returning groups 1, 2 and 3. *)
Definition office_match (line : str) : option (str * str * option str) :=
  match line with
  | c :: s1 =>
    if c =? chr_dash then
      let s2 := drop_while is_space s1 in
      let ds := take_while is_decimal s2 in
      let room :=
        match ds with
        | [] => match s2 with
                | b :: s3 => if b =? chr_B then
                               match take_while is_decimal s3 with
                               | [] => None
                               | ds' => Some (b :: ds')
                               end
                             else None
                | [] => None
                end
        | _ => Some ds
        end in
      match room with
      | None => None
      | Some rm =>
        match name_part (skipn (List.length rm) s2) with
        | Some (nm, en) => Some (rm, nm, en)
        | None => None
        end
      end
    else None
  | [] => None
  end.

Record OfficeRecord := mkOffice {
  building : str; floor : str; room : str; name_zh : str; name_en : str }.

(** The [for line in lines] loop, with [current_floor] as state. *)
Fixpoint extract_lines (building_name current_floor : str) (lines : list str)
  : list OfficeRecord :=
  match lines with
  | [] => []
  | l0 :: lines' =>
    let line := strip l0 in
    match floor_match line with
    | Some f => extract_lines building_name f lines'
    | None =>
      match office_match line with
      | Some (rm, nm, en) =>
        match current_floor with
        | [] => extract_lines building_name current_floor lines'
        | _ =>
          mkOffice building_name current_floor rm (strip nm)
                   (match en with Some x => strip x | None => [] end)
            :: extract_lines building_name current_floor lines'
        end
      | None => extract_lines building_name current_floor lines'
      end
    end
  end.

Definition _extract_office_locations (content building_name : str) : list OfficeRecord :=
  extract_lines building_name [] (split_lines content).

Example office_match_ex :
  office_match (u "- 106 註冊組 (Registrar)") = Some (u "106", u "註冊組", Some (u "Registrar")).
Proof. vm_compute. reflexivity. Qed.

Example office_match_noen :
  office_match (u "- B1 餐廳") = Some (u "B1", u "餐廳", None).
Proof. vm_compute. reflexivity. Qed.

Example floor_match_ex : floor_match (u "## 1樓") = Some (u "1樓").
Proof. vm_compute. reflexivity. Qed.

End Extractor.

(** ** UnitIdentifier: [DataProcessor._normalize_unit_id] *)

Module Normalize.

(** The characters of the class [[\s\(\)（）\[\]【】\-–—_·•:：,，。．./\\]]
    other than [\s]. *)
Definition class_chars : str := u "()（）[]【】-–—_·•:：,，。．./\".

Example class_chars_cps :
  class_chars = [40;41;65288;65289;91;93;12304;12305;45;8211;8212;95;183;8226;58;65306;44;
                 65292;12290;65294;46;47;92].
Proof. reflexivity. Qed.

Definition in_class (c : Z) : bool := is_space c || existsb (Z.eqb c) class_chars.

(** [re.sub(class, '', s)] *)
Definition remove_class (s : str) : str := filter (fun c => negb (in_class c)) s.

(** [str.lower] of CPython 3.11 (Unicode 14.0; [do_lower] and [lower_ucs4]
    of [Objects/unicodeobject.c]): every code point is replaced by its full lower-case
    mapping ([_PyUnicode_ToLowerFull]), except U+03A3 Σ, which
    [handle_capital_sigma] maps to U+03C2 ς in the Final_Sigma context and
    to U+03C3 σ elsewhere.  The tables below are those of the Unicode
    database of CPython 3.11: [lower_table] lists every code point other
    than U+03A3 whose full lower-case mapping is not the code point itself,
    with its mapping; the ranges list the code points with the properties
    Case_Ignorable and Cased. *)
Definition lower_table : list (Z * list Z) := [
  (65,[97]);(66,[98]);(67,[99]);(68,[100]);(69,[101]);(70,[102]);(71,[103]);(72,[104]);
  (73,[105]);(74,[106]);(75,[107]);(76,[108]);(77,[109]);(78,[110]);(79,[111]);(80,[112]);
  (81,[113]);(82,[114]);(83,[115]);(84,[116]);(85,[117]);(86,[118]);(87,[119]);(88,[120]);
  (89,[121]);(90,[122]);(192,[224]);(193,[225]);(194,[226]);(195,[227]);(196,[228]);(197,[229]);
  (198,[230]);(199,[231]);(200,[232]);(201,[233]);(202,[234]);(203,[235]);(204,[236]);(205,[237]);
  (206,[238]);(207,[239]);(208,[240]);(209,[241]);(210,[242]);(211,[243]);(212,[244]);(213,[245]);
  (214,[246]);(216,[248]);(217,[249]);(218,[250]);(219,[251]);(220,[252]);(221,[253]);(222,[254]);
  (256,[257]);(258,[259]);(260,[261]);(262,[263]);(264,[265]);(266,[267]);(268,[269]);(270,[271]);
  (272,[273]);(274,[275]);(276,[277]);(278,[279]);(280,[281]);(282,[283]);(284,[285]);(286,[287]);
  (288,[289]);(290,[291]);(292,[293]);(294,[295]);(296,[297]);(298,[299]);(300,[301]);(302,[303]);
  (304,[105;775]);(306,[307]);(308,[309]);(310,[311]);(313,[314]);(315,[316]);(317,[318]);(319,[320]);
  (321,[322]);(323,[324]);(325,[326]);(327,[328]);(330,[331]);(332,[333]);(334,[335]);(336,[337]);
  (338,[339]);(340,[341]);(342,[343]);(344,[345]);(346,[347]);(348,[349]);(350,[351]);(352,[353]);
  (354,[355]);(356,[357]);(358,[359]);(360,[361]);(362,[363]);(364,[365]);(366,[367]);(368,[369]);
  (370,[371]);(372,[373]);(374,[375]);(376,[255]);(377,[378]);(379,[380]);(381,[382]);(385,[595]);
  (386,[387]);(388,[389]);(390,[596]);(391,[392]);(393,[598]);(394,[599]);(395,[396]);(398,[477]);
  (399,[601]);(400,[603]);(401,[402]);(403,[608]);(404,[611]);(406,[617]);(407,[616]);(408,[409]);
  (412,[623]);(413,[626]);(415,[629]);(416,[417]);(418,[419]);(420,[421]);(422,[640]);(423,[424]);
  (425,[643]);(428,[429]);(430,[648]);(431,[432]);(433,[650]);(434,[651]);(435,[436]);(437,[438]);
  (439,[658]);(440,[441]);(444,[445]);(452,[454]);(453,[454]);(455,[457]);(456,[457]);(458,[460]);
  (459,[460]);(461,[462]);(463,[464]);(465,[466]);(467,[468]);(469,[470]);(471,[472]);(473,[474]);
  (475,[476]);(478,[479]);(480,[481]);(482,[483]);(484,[485]);(486,[487]);(488,[489]);(490,[491]);
  (492,[493]);(494,[495]);(497,[499]);(498,[499]);(500,[501]);(502,[405]);(503,[447]);(504,[505]);
  (506,[507]);(508,[509]);(510,[511]);(512,[513]);(514,[515]);(516,[517]);(518,[519]);(520,[521]);
  (522,[523]);(524,[525]);(526,[527]);(528,[529]);(530,[531]);(532,[533]);(534,[535]);(536,[537]);
  (538,[539]);(540,[541]);(542,[543]);(544,[414]);(546,[547]);(548,[549]);(550,[551]);(552,[553]);
  (554,[555]);(556,[557]);(558,[559]);(560,[561]);(562,[563]);(570,[11365]);(571,[572]);(573,[410]);
  (574,[11366]);(577,[578]);(579,[384]);(580,[649]);(581,[652]);(582,[583]);(584,[585]);(586,[587]);
  (588,[589]);(590,[591]);(880,[881]);(882,[883]);(886,[887]);(895,[1011]);(902,[940]);(904,[941]);
  (905,[942]);(906,[943]);(908,[972]);(910,[973]);(911,[974]);(913,[945]);(914,[946]);(915,[947]);
  (916,[948]);(917,[949]);(918,[950]);(919,[951]);(920,[952]);(921,[953]);(922,[954]);(923,[955]);
  (924,[956]);(925,[957]);(926,[958]);(927,[959]);(928,[960]);(929,[961]);(932,[964]);(933,[965]);
  (934,[966]);(935,[967]);(936,[968]);(937,[969]);(938,[970]);(939,[971]);(975,[983]);(984,[985]);
  (986,[987]);(988,[989]);(990,[991]);(992,[993]);(994,[995]);(996,[997]);(998,[999]);(1000,[1001]);
  (1002,[1003]);(1004,[1005]);(1006,[1007]);(1012,[952]);(1015,[1016]);(1017,[1010]);(1018,[1019]);(1021,[891]);
  (1022,[892]);(1023,[893]);(1024,[1104]);(1025,[1105]);(1026,[1106]);(1027,[1107]);(1028,[1108]);(1029,[1109]);
  (1030,[1110]);(1031,[1111]);(1032,[1112]);(1033,[1113]);(1034,[1114]);(1035,[1115]);(1036,[1116]);(1037,[1117]);
  (1038,[1118]);(1039,[1119]);(1040,[1072]);(1041,[1073]);(1042,[1074]);(1043,[1075]);(1044,[1076]);(1045,[1077]);
  (1046,[1078]);(1047,[1079]);(1048,[1080]);(1049,[1081]);(1050,[1082]);(1051,[1083]);(1052,[1084]);(1053,[1085]);
  (1054,[1086]);(1055,[1087]);(1056,[1088]);(1057,[1089]);(1058,[1090]);(1059,[1091]);(1060,[1092]);(1061,[1093]);
  (1062,[1094]);(1063,[1095]);(1064,[1096]);(1065,[1097]);(1066,[1098]);(1067,[1099]);(1068,[1100]);(1069,[1101]);
  (1070,[1102]);(1071,[1103]);(1120,[1121]);(1122,[1123]);(1124,[1125]);(1126,[1127]);(1128,[1129]);(1130,[1131]);
  (1132,[1133]);(1134,[1135]);(1136,[1137]);(1138,[1139]);(1140,[1141]);(1142,[1143]);(1144,[1145]);(1146,[1147]);
  (1148,[1149]);(1150,[1151]);(1152,[1153]);(1162,[1163]);(1164,[1165]);(1166,[1167]);(1168,[1169]);(1170,[1171]);
  (1172,[1173]);(1174,[1175]);(1176,[1177]);(1178,[1179]);(1180,[1181]);(1182,[1183]);(1184,[1185]);(1186,[1187]);
  (1188,[1189]);(1190,[1191]);(1192,[1193]);(1194,[1195]);(1196,[1197]);(1198,[1199]);(1200,[1201]);(1202,[1203]);
  (1204,[1205]);(1206,[1207]);(1208,[1209]);(1210,[1211]);(1212,[1213]);(1214,[1215]);(1216,[1231]);(1217,[1218]);
  (1219,[1220]);(1221,[1222]);(1223,[1224]);(1225,[1226]);(1227,[1228]);(1229,[1230]);(1232,[1233]);(1234,[1235]);
  (1236,[1237]);(1238,[1239]);(1240,[1241]);(1242,[1243]);(1244,[1245]);(1246,[1247]);(1248,[1249]);(1250,[1251]);
  (1252,[1253]);(1254,[1255]);(1256,[1257]);(1258,[1259]);(1260,[1261]);(1262,[1263]);(1264,[1265]);(1266,[1267]);
  (1268,[1269]);(1270,[1271]);(1272,[1273]);(1274,[1275]);(1276,[1277]);(1278,[1279]);(1280,[1281]);(1282,[1283]);
  (1284,[1285]);(1286,[1287]);(1288,[1289]);(1290,[1291]);(1292,[1293]);(1294,[1295]);(1296,[1297]);(1298,[1299]);
  (1300,[1301]);(1302,[1303]);(1304,[1305]);(1306,[1307]);(1308,[1309]);(1310,[1311]);(1312,[1313]);(1314,[1315]);
  (1316,[1317]);(1318,[1319]);(1320,[1321]);(1322,[1323]);(1324,[1325]);(1326,[1327]);(1329,[1377]);(1330,[1378]);
  (1331,[1379]);(1332,[1380]);(1333,[1381]);(1334,[1382]);(1335,[1383]);(1336,[1384]);(1337,[1385]);(1338,[1386]);
  (1339,[1387]);(1340,[1388]);(1341,[1389]);(1342,[1390]);(1343,[1391]);(1344,[1392]);(1345,[1393]);(1346,[1394]);
  (1347,[1395]);(1348,[1396]);(1349,[1397]);(1350,[1398]);(1351,[1399]);(1352,[1400]);(1353,[1401]);(1354,[1402]);
  (1355,[1403]);(1356,[1404]);(1357,[1405]);(1358,[1406]);(1359,[1407]);(1360,[1408]);(1361,[1409]);(1362,[1410]);
  (1363,[1411]);(1364,[1412]);(1365,[1413]);(1366,[1414]);(4256,[11520]);(4257,[11521]);(4258,[11522]);(4259,[11523]);
  (4260,[11524]);(4261,[11525]);(4262,[11526]);(4263,[11527]);(4264,[11528]);(4265,[11529]);(4266,[11530]);(4267,[11531]);
  (4268,[11532]);(4269,[11533]);(4270,[11534]);(4271,[11535]);(4272,[11536]);(4273,[11537]);(4274,[11538]);(4275,[11539]);
  (4276,[11540]);(4277,[11541]);(4278,[11542]);(4279,[11543]);(4280,[11544]);(4281,[11545]);(4282,[11546]);(4283,[11547]);
  (4284,[11548]);(4285,[11549]);(4286,[11550]);(4287,[11551]);(4288,[11552]);(4289,[11553]);(4290,[11554]);(4291,[11555]);
  (4292,[11556]);(4293,[11557]);(4295,[11559]);(4301,[11565]);(5024,[43888]);(5025,[43889]);(5026,[43890]);(5027,[43891]);
  (5028,[43892]);(5029,[43893]);(5030,[43894]);(5031,[43895]);(5032,[43896]);(5033,[43897]);(5034,[43898]);(5035,[43899]);
  (5036,[43900]);(5037,[43901]);(5038,[43902]);(5039,[43903]);(5040,[43904]);(5041,[43905]);(5042,[43906]);(5043,[43907]);
  (5044,[43908]);(5045,[43909]);(5046,[43910]);(5047,[43911]);(5048,[43912]);(5049,[43913]);(5050,[43914]);(5051,[43915]);
  (5052,[43916]);(5053,[43917]);(5054,[43918]);(5055,[43919]);(5056,[43920]);(5057,[43921]);(5058,[43922]);(5059,[43923]);
  (5060,[43924]);(5061,[43925]);(5062,[43926]);(5063,[43927]);(5064,[43928]);(5065,[43929]);(5066,[43930]);(5067,[43931]);
  (5068,[43932]);(5069,[43933]);(5070,[43934]);(5071,[43935]);(5072,[43936]);(5073,[43937]);(5074,[43938]);(5075,[43939]);
  (5076,[43940]);(5077,[43941]);(5078,[43942]);(5079,[43943]);(5080,[43944]);(5081,[43945]);(5082,[43946]);(5083,[43947]);
  (5084,[43948]);(5085,[43949]);(5086,[43950]);(5087,[43951]);(5088,[43952]);(5089,[43953]);(5090,[43954]);(5091,[43955]);
  (5092,[43956]);(5093,[43957]);(5094,[43958]);(5095,[43959]);(5096,[43960]);(5097,[43961]);(5098,[43962]);(5099,[43963]);
  (5100,[43964]);(5101,[43965]);(5102,[43966]);(5103,[43967]);(5104,[5112]);(5105,[5113]);(5106,[5114]);(5107,[5115]);
  (5108,[5116]);(5109,[5117]);(7312,[4304]);(7313,[4305]);(7314,[4306]);(7315,[4307]);(7316,[4308]);(7317,[4309]);
  (7318,[4310]);(7319,[4311]);(7320,[4312]);(7321,[4313]);(7322,[4314]);(7323,[4315]);(7324,[4316]);(7325,[4317]);
  (7326,[4318]);(7327,[4319]);(7328,[4320]);(7329,[4321]);(7330,[4322]);(7331,[4323]);(7332,[4324]);(7333,[4325]);
  (7334,[4326]);(7335,[4327]);(7336,[4328]);(7337,[4329]);(7338,[4330]);(7339,[4331]);(7340,[4332]);(7341,[4333]);
  (7342,[4334]);(7343,[4335]);(7344,[4336]);(7345,[4337]);(7346,[4338]);(7347,[4339]);(7348,[4340]);(7349,[4341]);
  (7350,[4342]);(7351,[4343]);(7352,[4344]);(7353,[4345]);(7354,[4346]);(7357,[4349]);(7358,[4350]);(7359,[4351]);
  (7680,[7681]);(7682,[7683]);(7684,[7685]);(7686,[7687]);(7688,[7689]);(7690,[7691]);(7692,[7693]);(7694,[7695]);
  (7696,[7697]);(7698,[7699]);(7700,[7701]);(7702,[7703]);(7704,[7705]);(7706,[7707]);(7708,[7709]);(7710,[7711]);
  (7712,[7713]);(7714,[7715]);(7716,[7717]);(7718,[7719]);(7720,[7721]);(7722,[7723]);(7724,[7725]);(7726,[7727]);
  (7728,[7729]);(7730,[7731]);(7732,[7733]);(7734,[7735]);(7736,[7737]);(7738,[7739]);(7740,[7741]);(7742,[7743]);
  (7744,[7745]);(7746,[7747]);(7748,[7749]);(7750,[7751]);(7752,[7753]);(7754,[7755]);(7756,[7757]);(7758,[7759]);
  (7760,[7761]);(7762,[7763]);(7764,[7765]);(7766,[7767]);(7768,[7769]);(7770,[7771]);(7772,[7773]);(7774,[7775]);
  (7776,[7777]);(7778,[7779]);(7780,[7781]);(7782,[7783]);(7784,[7785]);(7786,[7787]);(7788,[7789]);(7790,[7791]);
  (7792,[7793]);(7794,[7795]);(7796,[7797]);(7798,[7799]);(7800,[7801]);(7802,[7803]);(7804,[7805]);(7806,[7807]);
  (7808,[7809]);(7810,[7811]);(7812,[7813]);(7814,[7815]);(7816,[7817]);(7818,[7819]);(7820,[7821]);(7822,[7823]);
  (7824,[7825]);(7826,[7827]);(7828,[7829]);(7838,[223]);(7840,[7841]);(7842,[7843]);(7844,[7845]);(7846,[7847]);
  (7848,[7849]);(7850,[7851]);(7852,[7853]);(7854,[7855]);(7856,[7857]);(7858,[7859]);(7860,[7861]);(7862,[7863]);
  (7864,[7865]);(7866,[7867]);(7868,[7869]);(7870,[7871]);(7872,[7873]);(7874,[7875]);(7876,[7877]);(7878,[7879]);
  (7880,[7881]);(7882,[7883]);(7884,[7885]);(7886,[7887]);(7888,[7889]);(7890,[7891]);(7892,[7893]);(7894,[7895]);
  (7896,[7897]);(7898,[7899]);(7900,[7901]);(7902,[7903]);(7904,[7905]);(7906,[7907]);(7908,[7909]);(7910,[7911]);
  (7912,[7913]);(7914,[7915]);(7916,[7917]);(7918,[7919]);(7920,[7921]);(7922,[7923]);(7924,[7925]);(7926,[7927]);
  (7928,[7929]);(7930,[7931]);(7932,[7933]);(7934,[7935]);(7944,[7936]);(7945,[7937]);(7946,[7938]);(7947,[7939]);
  (7948,[7940]);(7949,[7941]);(7950,[7942]);(7951,[7943]);(7960,[7952]);(7961,[7953]);(7962,[7954]);(7963,[7955]);
  (7964,[7956]);(7965,[7957]);(7976,[7968]);(7977,[7969]);(7978,[7970]);(7979,[7971]);(7980,[7972]);(7981,[7973]);
  (7982,[7974]);(7983,[7975]);(7992,[7984]);(7993,[7985]);(7994,[7986]);(7995,[7987]);(7996,[7988]);(7997,[7989]);
  (7998,[7990]);(7999,[7991]);(8008,[8000]);(8009,[8001]);(8010,[8002]);(8011,[8003]);(8012,[8004]);(8013,[8005]);
  (8025,[8017]);(8027,[8019]);(8029,[8021]);(8031,[8023]);(8040,[8032]);(8041,[8033]);(8042,[8034]);(8043,[8035]);
  (8044,[8036]);(8045,[8037]);(8046,[8038]);(8047,[8039]);(8072,[8064]);(8073,[8065]);(8074,[8066]);(8075,[8067]);
  (8076,[8068]);(8077,[8069]);(8078,[8070]);(8079,[8071]);(8088,[8080]);(8089,[8081]);(8090,[8082]);(8091,[8083]);
  (8092,[8084]);(8093,[8085]);(8094,[8086]);(8095,[8087]);(8104,[8096]);(8105,[8097]);(8106,[8098]);(8107,[8099]);
  (8108,[8100]);(8109,[8101]);(8110,[8102]);(8111,[8103]);(8120,[8112]);(8121,[8113]);(8122,[8048]);(8123,[8049]);
  (8124,[8115]);(8136,[8050]);(8137,[8051]);(8138,[8052]);(8139,[8053]);(8140,[8131]);(8152,[8144]);(8153,[8145]);
  (8154,[8054]);(8155,[8055]);(8168,[8160]);(8169,[8161]);(8170,[8058]);(8171,[8059]);(8172,[8165]);(8184,[8056]);
  (8185,[8057]);(8186,[8060]);(8187,[8061]);(8188,[8179]);(8486,[969]);(8490,[107]);(8491,[229]);(8498,[8526]);
  (8544,[8560]);(8545,[8561]);(8546,[8562]);(8547,[8563]);(8548,[8564]);(8549,[8565]);(8550,[8566]);(8551,[8567]);
  (8552,[8568]);(8553,[8569]);(8554,[8570]);(8555,[8571]);(8556,[8572]);(8557,[8573]);(8558,[8574]);(8559,[8575]);
  (8579,[8580]);(9398,[9424]);(9399,[9425]);(9400,[9426]);(9401,[9427]);(9402,[9428]);(9403,[9429]);(9404,[9430]);
  (9405,[9431]);(9406,[9432]);(9407,[9433]);(9408,[9434]);(9409,[9435]);(9410,[9436]);(9411,[9437]);(9412,[9438]);
  (9413,[9439]);(9414,[9440]);(9415,[9441]);(9416,[9442]);(9417,[9443]);(9418,[9444]);(9419,[9445]);(9420,[9446]);
  (9421,[9447]);(9422,[9448]);(9423,[9449]);(11264,[11312]);(11265,[11313]);(11266,[11314]);(11267,[11315]);(11268,[11316]);
  (11269,[11317]);(11270,[11318]);(11271,[11319]);(11272,[11320]);(11273,[11321]);(11274,[11322]);(11275,[11323]);(11276,[11324]);
  (11277,[11325]);(11278,[11326]);(11279,[11327]);(11280,[11328]);(11281,[11329]);(11282,[11330]);(11283,[11331]);(11284,[11332]);
  (11285,[11333]);(11286,[11334]);(11287,[11335]);(11288,[11336]);(11289,[11337]);(11290,[11338]);(11291,[11339]);(11292,[11340]);
  (11293,[11341]);(11294,[11342]);(11295,[11343]);(11296,[11344]);(11297,[11345]);(11298,[11346]);(11299,[11347]);(11300,[11348]);
  (11301,[11349]);(11302,[11350]);(11303,[11351]);(11304,[11352]);(11305,[11353]);(11306,[11354]);(11307,[11355]);(11308,[11356]);
  (11309,[11357]);(11310,[11358]);(11311,[11359]);(11360,[11361]);(11362,[619]);(11363,[7549]);(11364,[637]);(11367,[11368]);
  (11369,[11370]);(11371,[11372]);(11373,[593]);(11374,[625]);(11375,[592]);(11376,[594]);(11378,[11379]);(11381,[11382]);
  (11390,[575]);(11391,[576]);(11392,[11393]);(11394,[11395]);(11396,[11397]);(11398,[11399]);(11400,[11401]);(11402,[11403]);
  (11404,[11405]);(11406,[11407]);(11408,[11409]);(11410,[11411]);(11412,[11413]);(11414,[11415]);(11416,[11417]);(11418,[11419]);
  (11420,[11421]);(11422,[11423]);(11424,[11425]);(11426,[11427]);(11428,[11429]);(11430,[11431]);(11432,[11433]);(11434,[11435]);
  (11436,[11437]);(11438,[11439]);(11440,[11441]);(11442,[11443]);(11444,[11445]);(11446,[11447]);(11448,[11449]);(11450,[11451]);
  (11452,[11453]);(11454,[11455]);(11456,[11457]);(11458,[11459]);(11460,[11461]);(11462,[11463]);(11464,[11465]);(11466,[11467]);
  (11468,[11469]);(11470,[11471]);(11472,[11473]);(11474,[11475]);(11476,[11477]);(11478,[11479]);(11480,[11481]);(11482,[11483]);
  (11484,[11485]);(11486,[11487]);(11488,[11489]);(11490,[11491]);(11499,[11500]);(11501,[11502]);(11506,[11507]);(42560,[42561]);
  (42562,[42563]);(42564,[42565]);(42566,[42567]);(42568,[42569]);(42570,[42571]);(42572,[42573]);(42574,[42575]);(42576,[42577]);
  (42578,[42579]);(42580,[42581]);(42582,[42583]);(42584,[42585]);(42586,[42587]);(42588,[42589]);(42590,[42591]);(42592,[42593]);
  (42594,[42595]);(42596,[42597]);(42598,[42599]);(42600,[42601]);(42602,[42603]);(42604,[42605]);(42624,[42625]);(42626,[42627]);
  (42628,[42629]);(42630,[42631]);(42632,[42633]);(42634,[42635]);(42636,[42637]);(42638,[42639]);(42640,[42641]);(42642,[42643]);
  (42644,[42645]);(42646,[42647]);(42648,[42649]);(42650,[42651]);(42786,[42787]);(42788,[42789]);(42790,[42791]);(42792,[42793]);
  (42794,[42795]);(42796,[42797]);(42798,[42799]);(42802,[42803]);(42804,[42805]);(42806,[42807]);(42808,[42809]);(42810,[42811]);
  (42812,[42813]);(42814,[42815]);(42816,[42817]);(42818,[42819]);(42820,[42821]);(42822,[42823]);(42824,[42825]);(42826,[42827]);
  (42828,[42829]);(42830,[42831]);(42832,[42833]);(42834,[42835]);(42836,[42837]);(42838,[42839]);(42840,[42841]);(42842,[42843]);
  (42844,[42845]);(42846,[42847]);(42848,[42849]);(42850,[42851]);(42852,[42853]);(42854,[42855]);(42856,[42857]);(42858,[42859]);
  (42860,[42861]);(42862,[42863]);(42873,[42874]);(42875,[42876]);(42877,[7545]);(42878,[42879]);(42880,[42881]);(42882,[42883]);
  (42884,[42885]);(42886,[42887]);(42891,[42892]);(42893,[613]);(42896,[42897]);(42898,[42899]);(42902,[42903]);(42904,[42905]);
  (42906,[42907]);(42908,[42909]);(42910,[42911]);(42912,[42913]);(42914,[42915]);(42916,[42917]);(42918,[42919]);(42920,[42921]);
  (42922,[614]);(42923,[604]);(42924,[609]);(42925,[620]);(42926,[618]);(42928,[670]);(42929,[647]);(42930,[669]);
  (42931,[43859]);(42932,[42933]);(42934,[42935]);(42936,[42937]);(42938,[42939]);(42940,[42941]);(42942,[42943]);(42944,[42945]);
  (42946,[42947]);(42948,[42900]);(42949,[642]);(42950,[7566]);(42951,[42952]);(42953,[42954]);(42960,[42961]);(42966,[42967]);
  (42968,[42969]);(42997,[42998]);(65313,[65345]);(65314,[65346]);(65315,[65347]);(65316,[65348]);(65317,[65349]);(65318,[65350]);
  (65319,[65351]);(65320,[65352]);(65321,[65353]);(65322,[65354]);(65323,[65355]);(65324,[65356]);(65325,[65357]);(65326,[65358]);
  (65327,[65359]);(65328,[65360]);(65329,[65361]);(65330,[65362]);(65331,[65363]);(65332,[65364]);(65333,[65365]);(65334,[65366]);
  (65335,[65367]);(65336,[65368]);(65337,[65369]);(65338,[65370]);(66560,[66600]);(66561,[66601]);(66562,[66602]);(66563,[66603]);
  (66564,[66604]);(66565,[66605]);(66566,[66606]);(66567,[66607]);(66568,[66608]);(66569,[66609]);(66570,[66610]);(66571,[66611]);
  (66572,[66612]);(66573,[66613]);(66574,[66614]);(66575,[66615]);(66576,[66616]);(66577,[66617]);(66578,[66618]);(66579,[66619]);
  (66580,[66620]);(66581,[66621]);(66582,[66622]);(66583,[66623]);(66584,[66624]);(66585,[66625]);(66586,[66626]);(66587,[66627]);
  (66588,[66628]);(66589,[66629]);(66590,[66630]);(66591,[66631]);(66592,[66632]);(66593,[66633]);(66594,[66634]);(66595,[66635]);
  (66596,[66636]);(66597,[66637]);(66598,[66638]);(66599,[66639]);(66736,[66776]);(66737,[66777]);(66738,[66778]);(66739,[66779]);
  (66740,[66780]);(66741,[66781]);(66742,[66782]);(66743,[66783]);(66744,[66784]);(66745,[66785]);(66746,[66786]);(66747,[66787]);
  (66748,[66788]);(66749,[66789]);(66750,[66790]);(66751,[66791]);(66752,[66792]);(66753,[66793]);(66754,[66794]);(66755,[66795]);
  (66756,[66796]);(66757,[66797]);(66758,[66798]);(66759,[66799]);(66760,[66800]);(66761,[66801]);(66762,[66802]);(66763,[66803]);
  (66764,[66804]);(66765,[66805]);(66766,[66806]);(66767,[66807]);(66768,[66808]);(66769,[66809]);(66770,[66810]);(66771,[66811]);
  (66928,[66967]);(66929,[66968]);(66930,[66969]);(66931,[66970]);(66932,[66971]);(66933,[66972]);(66934,[66973]);(66935,[66974]);
  (66936,[66975]);(66937,[66976]);(66938,[66977]);(66940,[66979]);(66941,[66980]);(66942,[66981]);(66943,[66982]);(66944,[66983]);
  (66945,[66984]);(66946,[66985]);(66947,[66986]);(66948,[66987]);(66949,[66988]);(66950,[66989]);(66951,[66990]);(66952,[66991]);
  (66953,[66992]);(66954,[66993]);(66956,[66995]);(66957,[66996]);(66958,[66997]);(66959,[66998]);(66960,[66999]);(66961,[67000]);
  (66962,[67001]);(66964,[67003]);(66965,[67004]);(68736,[68800]);(68737,[68801]);(68738,[68802]);(68739,[68803]);(68740,[68804]);
  (68741,[68805]);(68742,[68806]);(68743,[68807]);(68744,[68808]);(68745,[68809]);(68746,[68810]);(68747,[68811]);(68748,[68812]);
  (68749,[68813]);(68750,[68814]);(68751,[68815]);(68752,[68816]);(68753,[68817]);(68754,[68818]);(68755,[68819]);(68756,[68820]);
  (68757,[68821]);(68758,[68822]);(68759,[68823]);(68760,[68824]);(68761,[68825]);(68762,[68826]);(68763,[68827]);(68764,[68828]);
  (68765,[68829]);(68766,[68830]);(68767,[68831]);(68768,[68832]);(68769,[68833]);(68770,[68834]);(68771,[68835]);(68772,[68836]);
  (68773,[68837]);(68774,[68838]);(68775,[68839]);(68776,[68840]);(68777,[68841]);(68778,[68842]);(68779,[68843]);(68780,[68844]);
  (68781,[68845]);(68782,[68846]);(68783,[68847]);(68784,[68848]);(68785,[68849]);(68786,[68850]);(71840,[71872]);(71841,[71873]);
  (71842,[71874]);(71843,[71875]);(71844,[71876]);(71845,[71877]);(71846,[71878]);(71847,[71879]);(71848,[71880]);(71849,[71881]);
  (71850,[71882]);(71851,[71883]);(71852,[71884]);(71853,[71885]);(71854,[71886]);(71855,[71887]);(71856,[71888]);(71857,[71889]);
  (71858,[71890]);(71859,[71891]);(71860,[71892]);(71861,[71893]);(71862,[71894]);(71863,[71895]);(71864,[71896]);(71865,[71897]);
  (71866,[71898]);(71867,[71899]);(71868,[71900]);(71869,[71901]);(71870,[71902]);(71871,[71903]);(93760,[93792]);(93761,[93793]);
  (93762,[93794]);(93763,[93795]);(93764,[93796]);(93765,[93797]);(93766,[93798]);(93767,[93799]);(93768,[93800]);(93769,[93801]);
  (93770,[93802]);(93771,[93803]);(93772,[93804]);(93773,[93805]);(93774,[93806]);(93775,[93807]);(93776,[93808]);(93777,[93809]);
  (93778,[93810]);(93779,[93811]);(93780,[93812]);(93781,[93813]);(93782,[93814]);(93783,[93815]);(93784,[93816]);(93785,[93817]);
  (93786,[93818]);(93787,[93819]);(93788,[93820]);(93789,[93821]);(93790,[93822]);(93791,[93823]);(125184,[125218]);(125185,[125219]);
  (125186,[125220]);(125187,[125221]);(125188,[125222]);(125189,[125223]);(125190,[125224]);(125191,[125225]);(125192,[125226]);(125193,[125227]);
  (125194,[125228]);(125195,[125229]);(125196,[125230]);(125197,[125231]);(125198,[125232]);(125199,[125233]);(125200,[125234]);(125201,[125235]);
  (125202,[125236]);(125203,[125237]);(125204,[125238]);(125205,[125239]);(125206,[125240]);(125207,[125241]);(125208,[125242]);(125209,[125243]);
  (125210,[125244]);(125211,[125245]);(125212,[125246]);(125213,[125247]);(125214,[125248]);(125215,[125249]);(125216,[125250]);(125217,[125251])].

Definition case_ignorable_ranges : list (Z * Z) := [
  (39,39);(46,46);(58,58);(94,94);(96,96);(168,168);(173,173);(175,175);
  (180,180);(183,184);(688,879);(884,885);(890,890);(900,901);(903,903);(1155,1161);
  (1369,1369);(1375,1375);(1425,1469);(1471,1471);(1473,1474);(1476,1477);(1479,1479);(1524,1524);
  (1536,1541);(1552,1562);(1564,1564);(1600,1600);(1611,1631);(1648,1648);(1750,1757);(1759,1768);
  (1770,1773);(1807,1807);(1809,1809);(1840,1866);(1958,1968);(2027,2037);(2042,2042);(2045,2045);
  (2070,2093);(2137,2139);(2184,2184);(2192,2193);(2200,2207);(2249,2306);(2362,2362);(2364,2364);
  (2369,2376);(2381,2381);(2385,2391);(2402,2403);(2417,2417);(2433,2433);(2492,2492);(2497,2500);
  (2509,2509);(2530,2531);(2558,2558);(2561,2562);(2620,2620);(2625,2626);(2631,2632);(2635,2637);
  (2641,2641);(2672,2673);(2677,2677);(2689,2690);(2748,2748);(2753,2757);(2759,2760);(2765,2765);
  (2786,2787);(2810,2815);(2817,2817);(2876,2876);(2879,2879);(2881,2884);(2893,2893);(2901,2902);
  (2914,2915);(2946,2946);(3008,3008);(3021,3021);(3072,3072);(3076,3076);(3132,3132);(3134,3136);
  (3142,3144);(3146,3149);(3157,3158);(3170,3171);(3201,3201);(3260,3260);(3263,3263);(3270,3270);
  (3276,3277);(3298,3299);(3328,3329);(3387,3388);(3393,3396);(3405,3405);(3426,3427);(3457,3457);
  (3530,3530);(3538,3540);(3542,3542);(3633,3633);(3636,3642);(3654,3662);(3761,3761);(3764,3772);
  (3782,3782);(3784,3789);(3864,3865);(3893,3893);(3895,3895);(3897,3897);(3953,3966);(3968,3972);
  (3974,3975);(3981,3991);(3993,4028);(4038,4038);(4141,4144);(4146,4151);(4153,4154);(4157,4158);
  (4184,4185);(4190,4192);(4209,4212);(4226,4226);(4229,4230);(4237,4237);(4253,4253);(4348,4348);
  (4957,4959);(5906,5908);(5938,5939);(5970,5971);(6002,6003);(6068,6069);(6071,6077);(6086,6086);
  (6089,6099);(6103,6103);(6109,6109);(6155,6159);(6211,6211);(6277,6278);(6313,6313);(6432,6434);
  (6439,6440);(6450,6450);(6457,6459);(6679,6680);(6683,6683);(6742,6742);(6744,6750);(6752,6752);
  (6754,6754);(6757,6764);(6771,6780);(6783,6783);(6823,6823);(6832,6862);(6912,6915);(6964,6964);
  (6966,6970);(6972,6972);(6978,6978);(7019,7027);(7040,7041);(7074,7077);(7080,7081);(7083,7085);
  (7142,7142);(7144,7145);(7149,7149);(7151,7153);(7212,7219);(7222,7223);(7288,7293);(7376,7378);
  (7380,7392);(7394,7400);(7405,7405);(7412,7412);(7416,7417);(7468,7530);(7544,7544);(7579,7679);
  (8125,8125);(8127,8129);(8141,8143);(8157,8159);(8173,8175);(8189,8190);(8203,8207);(8216,8217);
  (8228,8228);(8231,8231);(8234,8238);(8288,8292);(8294,8303);(8305,8305);(8319,8319);(8336,8348);
  (8400,8432);(11388,11389);(11503,11505);(11631,11631);(11647,11647);(11744,11775);(11823,11823);(12293,12293);
  (12330,12333);(12337,12341);(12347,12347);(12441,12446);(12540,12542);(40981,40981);(42232,42237);(42508,42508);
  (42607,42610);(42612,42621);(42623,42623);(42652,42655);(42736,42737);(42752,42785);(42864,42864);(42888,42890);
  (42994,42996);(43000,43001);(43010,43010);(43014,43014);(43019,43019);(43045,43046);(43052,43052);(43204,43205);
  (43232,43249);(43263,43263);(43302,43309);(43335,43345);(43392,43394);(43443,43443);(43446,43449);(43452,43453);
  (43471,43471);(43493,43494);(43561,43566);(43569,43570);(43573,43574);(43587,43587);(43596,43596);(43632,43632);
  (43644,43644);(43696,43696);(43698,43700);(43703,43704);(43710,43711);(43713,43713);(43741,43741);(43756,43757);
  (43763,43764);(43766,43766);(43867,43871);(43881,43883);(44005,44005);(44008,44008);(44013,44013);(64286,64286);
  (64434,64450);(65024,65039);(65043,65043);(65056,65071);(65106,65106);(65109,65109);(65279,65279);(65287,65287);
  (65294,65294);(65306,65306);(65342,65342);(65344,65344);(65392,65392);(65438,65439);(65507,65507);(65529,65531);
  (66045,66045);(66272,66272);(66422,66426);(67456,67461);(67463,67504);(67506,67514);(68097,68099);(68101,68102);
  (68108,68111);(68152,68154);(68159,68159);(68325,68326);(68900,68903);(69291,69292);(69446,69456);(69506,69509);
  (69633,69633);(69688,69702);(69744,69744);(69747,69748);(69759,69761);(69811,69814);(69817,69818);(69821,69821);
  (69826,69826);(69837,69837);(69888,69890);(69927,69931);(69933,69940);(70003,70003);(70016,70017);(70070,70078);
  (70089,70092);(70095,70095);(70191,70193);(70196,70196);(70198,70199);(70206,70206);(70367,70367);(70371,70378);
  (70400,70401);(70459,70460);(70464,70464);(70502,70508);(70512,70516);(70712,70719);(70722,70724);(70726,70726);
  (70750,70750);(70835,70840);(70842,70842);(70847,70848);(70850,70851);(71090,71093);(71100,71101);(71103,71104);
  (71132,71133);(71219,71226);(71229,71229);(71231,71232);(71339,71339);(71341,71341);(71344,71349);(71351,71351);
  (71453,71455);(71458,71461);(71463,71467);(71727,71735);(71737,71738);(71995,71996);(71998,71998);(72003,72003);
  (72148,72151);(72154,72155);(72160,72160);(72193,72202);(72243,72248);(72251,72254);(72263,72263);(72273,72278);
  (72281,72283);(72330,72342);(72344,72345);(72752,72758);(72760,72765);(72767,72767);(72850,72871);(72874,72880);
  (72882,72883);(72885,72886);(73009,73014);(73018,73018);(73020,73021);(73023,73029);(73031,73031);(73104,73105);
  (73109,73109);(73111,73111);(73459,73460);(78896,78904);(92912,92916);(92976,92982);(92992,92995);(94031,94031);
  (94095,94111);(94176,94177);(94179,94180);(110576,110579);(110581,110587);(110589,110590);(113821,113822);(113824,113827);
  (118528,118573);(118576,118598);(119143,119145);(119155,119170);(119173,119179);(119210,119213);(119362,119364);(121344,121398);
  (121403,121452);(121461,121461);(121476,121476);(121499,121503);(121505,121519);(122880,122886);(122888,122904);(122907,122913);
  (122915,122916);(122918,122922);(123184,123197);(123566,123566);(123628,123631);(125136,125142);(125252,125259);(127995,127999);
  (917505,917505);(917536,917631);(917760,917999)].

Definition cased_ranges : list (Z * Z) := [
  (65,90);(97,122);(170,170);(181,181);(186,186);(192,214);(216,246);(248,442);
  (444,447);(452,659);(661,696);(704,705);(736,740);(837,837);(880,883);(886,887);
  (890,893);(895,895);(902,902);(904,906);(908,908);(910,929);(931,1013);(1015,1153);
  (1162,1327);(1329,1366);(1376,1416);(4256,4293);(4295,4295);(4301,4301);(4304,4346);(4349,4351);
  (5024,5109);(5112,5117);(7296,7304);(7312,7354);(7357,7359);(7424,7615);(7680,7957);(7960,7965);
  (7968,8005);(8008,8013);(8016,8023);(8025,8025);(8027,8027);(8029,8029);(8031,8061);(8064,8116);
  (8118,8124);(8126,8126);(8130,8132);(8134,8140);(8144,8147);(8150,8155);(8160,8172);(8178,8180);
  (8182,8188);(8305,8305);(8319,8319);(8336,8348);(8450,8450);(8455,8455);(8458,8467);(8469,8469);
  (8473,8477);(8484,8484);(8486,8486);(8488,8488);(8490,8493);(8495,8500);(8505,8505);(8508,8511);
  (8517,8521);(8526,8526);(8544,8575);(8579,8580);(9398,9449);(11264,11492);(11499,11502);(11506,11507);
  (11520,11557);(11559,11559);(11565,11565);(42560,42605);(42624,42653);(42786,42887);(42891,42894);(42896,42954);
  (42960,42961);(42963,42963);(42965,42969);(42997,42998);(43000,43002);(43824,43866);(43868,43880);(43888,43967);
  (64256,64262);(64275,64279);(65313,65338);(65345,65370);(66560,66639);(66736,66771);(66776,66811);(66928,66938);
  (66940,66954);(66956,66962);(66964,66965);(66967,66977);(66979,66993);(66995,67001);(67003,67004);(67456,67456);
  (67459,67461);(67463,67504);(67506,67514);(68736,68786);(68800,68850);(71840,71903);(93760,93823);(119808,119892);
  (119894,119964);(119966,119967);(119970,119970);(119973,119974);(119977,119980);(119982,119993);(119995,119995);(119997,120003);
  (120005,120069);(120071,120074);(120077,120084);(120086,120092);(120094,120121);(120123,120126);(120128,120132);(120134,120134);
  (120138,120144);(120146,120485);(120488,120512);(120514,120538);(120540,120570);(120572,120596);(120598,120628);(120630,120654);
  (120656,120686);(120688,120712);(120714,120744);(120746,120770);(120772,120779);(122624,122633);(122635,122654);(125184,125251);
  (127280,127305);(127312,127337);(127344,127369)].

Definition in_ranges (r : list (Z * Z)) (c : Z) : bool :=
  existsb (fun p => (fst p <=? c) && (c <=? snd p)) r.

Definition _PyUnicode_IsCaseIgnorable (c : Z) : bool := in_ranges case_ignorable_ranges c.
Definition _PyUnicode_IsCased (c : Z) : bool := in_ranges cased_ranges c.

Definition _PyUnicode_ToLowerFull (c : Z) : list Z :=
  match find (fun p => Z.eqb (fst p) c) lower_table with
  | Some (_, m) => m
  | None => [c]
  end.

(** The scan of [handle_capital_sigma] in one direction: skip case-ignorable
    code points; [Some (cased c)] for the first other code point [c], [None]
    when the scan runs off the string. *)
Fixpoint scan_cased (l : str) : option bool :=
  match l with
  | [] => None
  | c :: l' => if _PyUnicode_IsCaseIgnorable c then scan_cased l' else Some (_PyUnicode_IsCased c)
  end.

(** [before_rev] is the text before the U+03A3, nearest first; [after] the
    text after it. *)
Definition handle_capital_sigma (before_rev after : str) : Z :=
  let final_sigma :=
    match scan_cased before_rev with
    | Some true => match scan_cased after with Some true => false | _ => true end
    | _ => false
    end in
  if final_sigma then 962 else 963.

(** What the code point [c] becomes, between [before_rev] and [rest]. *)
Definition lower_ucs4 (before_rev rest : str) (c : Z) : str :=
  if c =? 931 then [handle_capital_sigma before_rev rest] else _PyUnicode_ToLowerFull c.

Fixpoint do_lower (before_rev s : str) : str :=
  match s with
  | [] => []
  | c :: rest => lower_ucs4 before_rev rest c ++ do_lower (c :: before_rev) rest
  end.

Definition py_lower (s : str) : str := do_lower [] s.

Section WithLower.
Variable lower : str -> str.

Definition normalize_with (unit_name : str) : str :=
  match unit_name with
  | [] => []
  | _ => lower (remove_class unit_name)
  end.
End WithLower.

Definition _normalize_unit_id (unit_name : str) : str := normalize_with py_lower unit_name.

Example normalize_space : _normalize_unit_id (u "註冊 組") = u "註冊組". Proof. vm_compute. reflexivity. Qed.
Example normalize_case : _normalize_unit_id (u "OIA (Office)") = u "oiaoffice". Proof. vm_compute. reflexivity. Qed.
Example normalize_final_sigma :
  _normalize_unit_id (u "ΟΔΟΣ") = u "οδος" /\ _normalize_unit_id (u "ΟΔΟΣ Α") = u "οδοσα"
  /\ _normalize_unit_id (u "İ") = [105; 775].
Proof. split; [|split]; vm_compute; reflexivity. Qed.

End Normalize.

(** ** ChunkBuilder: [DataProcessor._create_location_chunks] *)

Module Chunks.

Import Extractor Normalize.

(** A chunk's metadata dict, keys in insertion order. *)
Definition Meta := list (str * str).

Fixpoint meta_get (m : Meta) (k : str) : option str :=
  match m with
  | [] => None
  | (k', v) :: m' => if str_eqb k k' then Some v else meta_get m' k
  end.

Record Chunk := mkChunk { text : str; metadata : Meta }.

Definition location_text (o : OfficeRecord) : str :=
  let nz := name_zh o in let b := building o in let f := floor o in let r := room o in
  let content := join_lines
    [u "【" ++ nz ++ u "位置資訊】";
     nz;
     u "英文名稱：" ++ name_en o;
     u "位置：" ++ b ++ u " " ++ f ++ u " " ++ r ++ u "室";
     u "建築物：" ++ b;
     u "樓層：" ++ f;
     u "房間號碼：" ++ r;
     [];
     nz ++ u "位於" ++ b ++ f ++ u "的" ++ r ++ u "室。";
     u "如需前往" ++ nz ++ u "，請至" ++ b ++ f ++ u "找" ++ r ++ u "室。"] in
  match name_en o with
  | [] => content
  | en => content ++ nl :: en ++ u " is located at Room " ++ r ++ u ", " ++ f ++ u ", " ++ b ++ u "."
  end.

Definition location_chunk (source_url department : str) (o : OfficeRecord) : Chunk :=
  mkChunk (location_text o)
    [(u "title", name_zh o ++ u "位置"); (u "url", source_url); (u "department", department);
     (u "type", u "location"); (u "unit_name", name_zh o);
     (u "unit_id", _normalize_unit_id (name_zh o)); (u "building", building o);
     (u "floor", floor o); (u "room", room o)].

Definition _create_location_chunks (offices : list OfficeRecord) (source_url department : str)
  : list Chunk := map (location_chunk source_url department) offices.

(** The metadata [process] attaches to the content chunks of one document
    (the splitter copies it to every chunk); [unit_name] is the name found
    by [_extract_unit_name_from_text], if any. *)
Definition content_metadata (title url department chunk_type : str) (unit_name : option str) : Meta :=
  let unit_id := match unit_name with Some ((_ :: _) as n) => _normalize_unit_id n | _ => [] end in
  [(u "title", title); (u "url", url); (u "department", department); (u "type", chunk_type)]
  ++ (match unit_name with Some ((_ :: _) as n) => [(u "unit_name", n)] | _ => [] end)
  ++ (match unit_id with [] => [] | _ => [(u "unit_id", unit_id)] end).

End Chunks.

(** ** RetrievalEngine: [src/rag_engine.py] *)

Module Engine.

Import TextCleaner Extractor Normalize Chunks.

Open Scope Q_scope.

(** *** Stable sort by a rational key ([sorted(..., key=...)] is stable) *)

Definition qlt (a b : Q) : bool := negb (Qle_bool b a).

Section SortBy.
Context {A : Type} (key : A -> Q).

Fixpoint insert_by (x : A) (l : list A) : list A :=
  match l with
  | [] => [x]
  | y :: l' => if qlt (key x) (key y) then x :: l else y :: insert_by x l'
  end.

Definition sort_by (l : list A) : list A := fold_left (fun acc x => insert_by x acc) l [].
End SortBy.

(** *** Query results and the vector-store collaborator *)

(** A Chroma result for one query text: [documents[0]], [metadatas[0]],
    [distances[0]].  Distances are floats in Python; they are modelled as
    exact rationals (the rounding of the subtraction in the boost is not
    modelled). *)
Record QRes := mkQRes { documents : list str; metadatas : list Meta; distances : list Q }.

Definition Entry : Type := (str * Meta * Q)%type.
Definition dist_of (e : Entry) : Q := snd e.

Fixpoint zip3 (ds : list str) (ms : list Meta) (xs : list Q) : list Entry :=
  match ds, ms, xs with
  | d :: ds', m :: ms', x :: xs' => (d, m, x) :: zip3 ds' ms' xs'
  | _, _, _ => []
  end.

Definition unzip3 (l : list Entry) : QRes :=
  mkQRes (map (fun e => fst (fst e)) l) (map (fun e => snd (fst e)) l) (map snd l).

Definition entries (r : QRes) : list Entry := zip3 (documents r) (metadatas r) (distances r).

Definition empty_res : QRes := mkQRes [] [] [].

(** A [where] filter: a conjunction of metadata equalities. *)
Definition Where := list (str * str).

Definition matches (w : option Where) (m : Meta) : bool :=
  match w with
  | None => true
  | Some eqs =>
    forallb (fun kv => match meta_get m (fst kv) with
                       | Some v => str_eqb v (snd kv)
                       | None => false
                       end) eqs
  end.

(** Model of the Chroma collection (an external collaborator): stored
    chunks, the embedding distance between a query text and a document, and
    the queries that raise. *)
Record VStore := mkStore {
  store_chunks : list Chunk;
  store_distance : str -> str -> Q;
  store_raises : str -> nat -> option Where -> bool }.

(** [collection.query(query_texts=[q], n_results=n, where=w)]: the [n]
    nearest chunks satisfying [w], nearest first; [None] when it raises. *)
Definition vs_query (vs : VStore) (q : str) (n : nat) (w : option Where) : option QRes :=
  if store_raises vs q n w then None
  else
    let scored := map (fun c => (text c, metadata c, store_distance vs q (text c)))
                      (filter (fun c => matches w (metadata c)) (store_chunks vs)) in
    Some (unzip3 (firstn n (sort_by dist_of scored))).

(** *** The effect: a log of issued queries, and exceptions *)

Definition Call : Type := (str * nat * option Where)%type.

Definition M (A : Type) : Type := list Call -> list Call * option A.

Definition ret {A} (x : A) : M A := fun log => (log, Some x).

Definition bind {A B} (m : M A) (f : A -> M B) : M B :=
  fun log => match m log with
             | (log', Some x) => f x log'
             | (log', None) => (log', None)
             end.

Notation "x <- m ;; k" := (bind m (fun x => k)) (at level 61, m at next level, right associativity).

Definition query (vs : VStore) (q : str) (n : nat) (w : option Where) : M QRes :=
  fun log => (log ++ [(q, n, w)], vs_query vs q n w).

(** [try: query(..., where=w) except Exception: query(...)] *)
Definition try_query (vs : VStore) (q : str) (n : nat) (w : Where) : M QRes :=
  fun log => match query vs q n (Some w) log with
             | (log', Some r) => (log', Some r)
             | (log', None) => query vs q n None log'
             end.

Fixpoint mfold {A B} (f : B -> A -> M B) (l : list A) (acc : B) : M B :=
  match l with
  | [] => ret acc
  | x :: l' => b <- f acc x ;; mfold f l' b
  end.

(** *** Query intent *)

Definition lower_text (s : str) : str := py_lower s.

Definition location_keywords : list str :=
  [u "在哪"; u "位置"; u "地址"; u "怎麼去"; u "如何到"; u "where"; u "location"; u "幾樓"].
Definition phone_keywords : list str :=
  [u "電話"; u "分機"; u "聯絡方式"; u "聯絡"; u "tel"; u "phone"].
Definition service_keywords : list str :=
  [u "服務"; u "業務"; u "職掌"; u "辦理"; u "申請"; u "流程"; u "規定"; u "要件"].

Definition _is_location_query (q : str) : bool :=
  existsb (fun k => contains (lower_text q) k) location_keywords.

Definition _get_query_intent (q : str) : str :=
  if _is_location_query q then u "location"
  else let lq := lower_text q in
    if existsb (fun k => contains lq (lower_text k)) phone_keywords then u "phone"
    else if existsb (fun k => contains lq (lower_text k)) service_keywords then u "service"
    else u "general".

(** *** Reranking *)

(** [max(0, v)] *)
Definition max0 (v : Q) : Q := if qlt 0 v then v else 0.

Definition chunk_type (m : Meta) : str :=
  match meta_get m (u "type") with Some t => t | None => u "general" end.

Definition _apply_type_boost (meta : Meta) (dist : Q) (intent : str) : Q :=
  let t := chunk_type meta in
  if str_eqb intent (u "location") && str_eqb t (u "location") then max0 (dist - (1#5))
  else if str_eqb intent (u "phone") && str_eqb t (u "phone") then max0 (dist - (3#20))
  else if str_eqb intent (u "service") && str_eqb t (u "service") then max0 (dist - (1#10))
  else dist.

Definition boost_entry (intent : str) (e : Entry) : Entry :=
  let '(d, m, x) := e in (d, m, _apply_type_boost m x intent).

Definition _rerank_with_intent (docs : list str) (metas : list Meta) (dists : list Q)
    (intent : str) (top_k : nat) : QRes :=
  match docs with
  | [] => empty_res
  | _ => unzip3 (firstn top_k (sort_by dist_of (map (boost_entry intent) (zip3 docs metas dists))))
  end.

(** *** [_extract_unit_names] *)

Definition name_excluded_chars : str := u ",，。、".

(** The class [[^\s,，。、]] *)
Definition name_char (c : Z) : bool :=
  negb (is_space c || existsb (Z.eqb c) name_excluded_chars).

(** [re.findall(r'([^\s,，。、]{lo,hi}SUFFIX)', text)]: at each position the
    greedy repetition takes the longest run that is followed by the suffix;
    after a match the scan resumes behind it. *)
Fixpoint findall_unit (fuel : nat) (lo hi : nat) (suffix s : str) : list str :=
  match fuel with
  | O => []
  | S fuel' =>
    match s with
    | [] => []
    | _ :: s' =>
      let run := Nat.min hi (List.length (take_while name_char s)) in
      let ks := rev (seq lo (S run - lo)) in
      match find (fun k => startswith (skipn k s) suffix) (if (lo <=? run)%nat then ks else []) with
      | Some k =>
        firstn (k + List.length suffix) s
          :: findall_unit fuel' lo hi suffix (skipn (k + List.length suffix) s)
      | None => findall_unit fuel' lo hi suffix s'
      end
    end
  end.

Definition unit_patterns : list (nat * nat * str) :=
  [(2, 6, u "組"); (2, 6, u "處"); (2, 8, u "中心"); (2, 6, u "部"); (2, 6, u "室"); (2, 6, u "館")]%nat.

Definition exclude_terms : list str :=
  [u "本組"; u "該組"; u "各組"; u "分組"; u "小組"; u "本部"; u "該部"; u "本處"; u "該處";
   u "本中心"; u "辦公室"; u "會議室"].

Definition verb_chars : str := u "由為至在向到".

Definition keep_unit (m : str) : bool :=
  let cm := strip m in
  negb (match first_isdigit cm with Some true => true | _ => false end)
  && negb (existsb (str_eqb cm) exclude_terms)
  && negb (existsb (fun v => existsb (Z.eqb v) cm) verb_chars).

(** A Python [set] built by successive [add]s, as a duplicate-free list in
    insertion order. *)
Definition set_of (l : list str) : list str :=
  fold_left (fun acc x => if existsb (str_eqb x) acc then acc else acc ++ [x]) l [].

Definition _extract_unit_names (text : str) : list str :=
  set_of (flat_map (fun p => let '(lo, hi, suf) := p in
                     map strip (filter keep_unit (findall_unit (List.length text) lo hi suf text)))
                   unit_patterns).

(** *** Stage 2 *)

Definition get_or_empty (m : Meta) (k : str) : str :=
  match meta_get m k with Some v => v | None => [] end.

(** [f"{meta.get('url', '')}_{meta.get('title', '')}_{doc[:80]}"] *)
Definition doc_key (e : Entry) : str :=
  let '(d, m, _) := e in
  get_or_empty m (u "url") ++ u "_" ++ get_or_empty m (u "title") ++ u "_" ++ firstn 80 d.

(** One step of the merge loop: keep an entry whose key is not yet seen. *)
Definition merge_entry (st : list str * list Entry) (e : Entry) : list str * list Entry :=
  let '(seen, acc) := st in
  if existsb (str_eqb (doc_key e)) seen then st else (doc_key e :: seen, acc ++ [e]).

Definition merge_results (st : list str * list Entry) (r : QRes) : list str * list Entry :=
  fold_left merge_entry (entries r) st.

Definition retrieve_stage2 (vs : VStore) (unit_names unit_ids : list str) (q : str) (n_results : nat)
  : M QRes :=
  st <- mfold (fun st uid => r <- try_query vs q n_results [(u "unit_id", uid)] ;;
                             ret (merge_results st r))
              unit_ids ([], []) ;;
  st' <- (match snd st, unit_names with
          | [], _ :: _ =>
            mfold (fun st nm => r <- query vs (nm ++ u " " ++ q) n_results None ;;
                                ret (merge_results st r))
                  unit_names st
          | _, _ => ret st
          end) ;;
  ret (unzip3 (firstn (Nat.min (List.length (snd st')) n_results) (sort_by dist_of (snd st')))).

(** *** Location augmentation *)

(** [_append(doc, meta, dist)] guarded by [meta.get('type') == 'location'];
    the state is [seen] (the [doc[:100]] prefixes) and the entries so far. *)
Definition append_location (st : list str * list Entry) (e : Entry) : list str * list Entry :=
  let '(seen, acc) := st in
  let '(d, m, _) := e in
  match meta_get m (u "type") with
  | Some t =>
    if str_eqb t (u "location") then
      if existsb (str_eqb (firstn 100 d)) seen then st else (firstn 100 d :: seen, acc ++ [e])
    else st
  | None => st
  end.

Definition append_results (st : list str * list Entry) (r : QRes) : list str * list Entry :=
  fold_left append_location (entries r) st.

Definition _append_location_chunks (vs : VStore) (results : QRes) (unit_ids unit_names : list str)
    (max_per_unit : nat) : M QRes :=
  let st0 := (map (fun d => firstn 100 d) (documents results), entries results) in
  st1 <- mfold (fun st uid =>
                  r <- try_query vs uid max_per_unit [(u "unit_id", uid); (u "type", u "location")] ;;
                  ret (append_results st r))
               unit_ids st0 ;;
  st2 <- (match unit_ids with
          | [] => mfold (fun st nm => r <- query vs nm max_per_unit None ;; ret (append_results st r))
                        unit_names st1
          | _ => ret st1
          end) ;;
  ret (unzip3 (snd st2)).

(** *** [retrieve_with_priority] and [retrieve] *)

Definition retrieve_with_priority (vs : VStore) (q intent : str) : M QRes :=
  r <- query vs q 15 None ;;
  ret (_rerank_with_intent (documents r) (metadatas r) (distances r) intent 5).

(** [unit_id] read from one Stage-1 metadata dict, kept only when
    [unit_id and len(unit_id) < 50 and '\n' not in unit_id]. *)
Definition valid_unit_id (m : Meta) : list str :=
  match meta_get m (u "unit_id") with
  | Some v => if negb (Nat.eqb (List.length v) 0) && (List.length v <? 50)%nat && negb (contains v [nl])
              then [v] else []
  | None => []
  end.

Definition meta_unit_name (m : Meta) : list str :=
  match meta_get m (u "unit_name") with
  | Some ((_ :: _) as v) => [v]
  | _ => []
  end.

(** The [unit_names] and [unit_ids] sets collected from the Stage-1 result. *)
Definition stage1_unit_names (s1 : QRes) : list str :=
  set_of (flat_map _extract_unit_names (documents s1) ++ flat_map meta_unit_name (metadatas s1)).

Definition stage1_unit_ids (s1 : QRes) : list str := set_of (flat_map valid_unit_id (metadatas s1)).

(** [retrieve(query, use_two_stage)].  [ord] is the iteration order of the
    Python sets [unit_names] and [unit_ids] ([list(s)]), which CPython
    leaves to string hashing. *)
Definition retrieve (vs : VStore) (ord : list str -> list str) (q : str) (use_two_stage : bool)
  : M QRes :=
  let intent := _get_query_intent q in
  if negb use_two_stage then retrieve_with_priority vs q intent
  else
    s1 <- query vs q 5 None ;;
    match stage1_unit_names s1, stage1_unit_ids s1 with
    | [], [] => retrieve_with_priority vs q intent
    | _, _ =>
      s2 <- retrieve_stage2 vs (ord (stage1_unit_names s1)) (ord (stage1_unit_ids s1)) q 10 ;;
      let r := _rerank_with_intent (documents s2) (metadatas s2) (distances s2) intent 5 in
      _append_location_chunks vs r (ord (stage1_unit_ids s1)) (ord (stage1_unit_names s1)) 2
    end.

End Engine.

(** ** The remaining steps of [DataProcessor] ([src/processor.py]) *)

Module Processor.

Import TextCleaner Extractor Normalize Chunks Engine.

(** [self.building_patterns], in insertion order. *)
Definition building_patterns : list (str * list str) :=
  [(u "行政大樓", [u "行政大樓"; u "Administration Building"]);
   (u "敬賢樓", [u "敬賢樓"; u "Jing-Xian Hall"]);
   (u "總圖書館", [u "總圖書館"; u "Main Library"]);
   (u "共同教學館", [u "共同教學館"; u "General Building"]);
   (u "禮賢樓", [u "禮賢樓"; u "Lixian Hall"]);
   (u "展書樓", [u "展書樓"; u "Jan Shu Hall"]);
   (u "望樂樓", [u "望樂樓"; u "Hall of Joy and Hope"])].

Fixpoint detect_in (bps : list (str * list str)) (text : str) : option str :=
  match bps with
  | [] => None
  | (building_zh, patterns) :: bps' =>
    if existsb (contains text) patterns then Some building_zh else detect_in bps' text
  end.

(** [_detect_building]; [None] is Python's [None]. *)
Definition _detect_building (text : str) : option str := detect_in building_patterns text.

(** The loop of [_extract_title] over [content.split('\n')]. *)
Fixpoint first_nonblank (lines : list str) : str :=
  match lines with
  | [] => []
  | line :: lines' => match strip line with [] => first_nonblank lines' | t => t end
  end.

Definition _extract_title (content : str) : str :=
  match content with [] => [] | _ => first_nonblank (split_lines content) end.

(** The keyword lists of [_classify_chunk_type]. *)
Definition chunk_phone_keywords : list str :=
  [u "電話"; u "分機"; u "聯絡方式"; u "聯絡"; u "tel"; u "phone"].
Definition chunk_service_keywords : list str :=
  [u "服務"; u "業務"; u "職掌"; u "辦理"; u "申請"; u "流程"; u "規定"; u "要件"].

Definition _classify_chunk_type (text : str) : str :=
  match text with
  | [] => u "general"
  | _ =>
    let lt := lower_text text in
    if existsb (fun k => contains lt (lower_text k)) chunk_phone_keywords then u "phone"
    else if existsb (fun k => contains lt (lower_text k)) chunk_service_keywords then u "service"
    else u "general"
  end.

(** [.] of [re]: any code point but ['\n']. *)
Definition not_nl (c : Z) : bool := negb (c =? nl).

(** [re.search(r'(.{lo,hi}SUFFIX)', s).group(1)]: the leftmost start
    position with a match; there the greedy repetition takes the longest
    run of non-newline characters that is followed by the suffix. *)
Fixpoint search_unit (fuel : nat) (lo hi : nat) (suffix s : str) : option str :=
  match fuel with
  | O => None
  | S fuel' =>
    match s with
    | [] => None
    | _ :: s' =>
      let run := Nat.min hi (List.length (take_while not_nl s)) in
      let ks := rev (seq lo (S run - lo)) in
      match find (fun k => startswith (skipn k s) suffix) (if (lo <=? run)%nat then ks else []) with
      | Some k => Some (firstn (k + List.length suffix) s)
      | None => search_unit fuel' lo hi suffix s'
      end
    end
  end.

(** The suffixes of [_extract_unit_name_from_text], each after [.{2,12}]. *)
Definition name_suffixes : list str :=
  [u "組"; u "處"; u "中心"; u "部"; u "室"; u "館"; u "系"; u "所"; u "院"; u "課"].

Fixpoint first_unit (text : str) (sufs : list str) : option str :=
  match sufs with
  | [] => None
  | suf :: sufs' =>
    match search_unit (List.length text) 2 12 suf text with
    | Some m =>
      match strip m with
      | (c :: _) as unit => if is_digit c then first_unit text sufs' else Some unit
      | [] => first_unit text sufs'
      end
    | None => first_unit text sufs'
    end
  end.

Definition _extract_unit_name_from_text (text : str) : option str :=
  match text with [] => None | _ => first_unit text name_suffixes end.

(** The metadata [process] gives the chunks of one cleaned document [text]:
    [title = item.get("title") or self._extract_title(text)] and
    [unit_name = extract(title) or extract(text)]. *)
Definition doc_title (item_title : option str) (text : str) : str :=
  match item_title with Some ((_ :: _) as t) => t | _ => _extract_title text end.

Definition doc_unit_name (title text : str) : option str :=
  match _extract_unit_name_from_text title with
  | Some ((_ :: _) as n) => Some n
  | _ => _extract_unit_name_from_text text
  end.

Definition doc_metadata (item_title : option str) (url department text : str) : Meta :=
  let title := doc_title item_title text in
  content_metadata title url department (_classify_chunk_type text) (doc_unit_name title text).

(** *** [enrich_content_with_locations] *)

(** Python's [<] on [str]: lexicographic on code points. *)
Fixpoint str_ltb (a b : str) : bool :=
  match a, b with
  | [], [] => false
  | [], _ :: _ => true
  | _ :: _, [] => false
  | x :: a', y :: b' => (x <? y) || ((x =? y) && str_ltb a' b')
  end.

Fixpoint insert_str (x : str) (l : list str) : list str :=
  match l with
  | [] => [x]
  | y :: l' => if str_ltb x y then x :: l else y :: insert_str x l'
  end.

(** [sorted(l)] *)
Definition sort_str (l : list str) : list str := fold_left (fun acc x => insert_str x acc) l [].

Definition loc_suffix : str := u "位置：".

(** [str(added_locations)], the [repr] of a list of strings, is a
    parameter: CPython's [repr] escapes by the Unicode printability table,
    which is not modelled. *)
Section Enrich.
Variable repr_list : list str -> str.

Fixpoint enrich_loop (content : str) (location_map : list (str * str)) (added : list str) : list str :=
  match location_map with
  | [] => added
  | (office_name, location) :: m' =>
    if contains content office_name
       && negb (contains (repr_list added) (office_name ++ loc_suffix))
    then enrich_loop content m' (added ++ [office_name ++ loc_suffix ++ location])
    else enrich_loop content m' added
  end.

(** [location_map] is the dict as an association list in insertion order;
    [sorted(list(set(added)))] is the sorted list of distinct entries. *)
Definition enrich_content_with_locations (content : str) (location_map : list (str * str)) : str :=
  match content with
  | [] => []
  | _ =>
    match enrich_loop content location_map [] with
    | [] => content
    | added =>
      content ++ [nl; nl] ++ enrich_marker ++ [nl] ++ join_lines (sort_str (set_of added))
    end
  end.
End Enrich.

(** *** [build_location_map] *)

(** A raw item: [item.get("department")] and
    [item.get("scraped", {}).get("content", "")] ([None] when missing). *)
Record Item := mkItem { department : option str; content : option str }.

(** [location_map[key] = value] on an insertion-ordered dict. *)
Fixpoint dict_set (m : list (str * str)) (k v : str) : list (str * str) :=
  match m with
  | [] => [(k, v)]
  | (k', v') :: m' => if str_eqb k k' then (k', v) :: m' else (k', v') :: dict_set m' k v
  end.

(** [f"{office['building']} {office['floor']} {office['room']}室"] *)
Definition loc_info (o : OfficeRecord) : str :=
  building o ++ u " " ++ floor o ++ u " " ++ room o ++ u "室".

Definition add_offices (m : list (str * str)) (offices : list OfficeRecord) : list (str * str) :=
  fold_left (fun m o => dict_set m (name_zh o) (loc_info o)) offices m.

(** One item of the loop; [None] is an exception raised by the cleaner. *)
Definition location_map_step (m : list (str * str)) (item : Item) : option (list (str * str)) :=
  match department item with
  | Some d =>
    if str_eqb d (u "admin") then
      match content item with
      | Some ((_ :: _) as c) =>
        match clean_text_advanced c (u "admin") with
        | None => None
        | Some clean_content =>
          match _detect_building clean_content with
          | Some b =>
            if contains clean_content (u "## ") || contains clean_content lou
            then Some (add_offices m (_extract_office_locations clean_content b))
            else Some m
          | None => Some m
          end
        end
      | _ => Some m
      end
    else Some m
  | None => Some m
  end.

Fixpoint build_location_map_from (items : list Item) (m : list (str * str)) : option (list (str * str)) :=
  match items with
  | [] => Some m
  | item :: items' =>
    match location_map_step m item with
    | Some m' => build_location_map_from items' m'
    | None => None
    end
  end.

Definition build_location_map (raw_items : list Item) : option (list (str * str)) :=
  build_location_map_from raw_items [].

Definition is_admin (item : Item) : bool :=
  match department item with Some d => str_eqb d (u "admin") | None => false end.

End Processor.

(** * Properties *)

Module CleanerFacts.
Import TextCleaner.

(** Claim C1 (failing input).  [clean_text_advanced] is not idempotent: a
    line made only of [#] is kept as an empty line by the header stripping
    (step 2 drops empty lines before stripping [##]), and the next run drops
    that empty line.  On ["a\n##\nb"] the first run gives ["a\n\nb"], the
    second ["a\nb"]. *)
Theorem clean_not_idempotent_at_hash_line :
  clean_text_advanced (join_lines [u "a"; u "##"; u "b"]) []
    = Some (join_lines [u "a"; []; u "b"])
  /\ clean_text_advanced (join_lines [u "a"; []; u "b"]) [] = Some (join_lines [u "a"; u "b"])
  /\ join_lines [u "a"; u "b"] <> join_lines [u "a"; []; u "b"].
Proof.
  split; [vm_compute; reflexivity|].
  split; [vm_compute; reflexivity|].
  vm_compute; discriminate.
Qed.

(** A second non-idempotent input: the reformatted office line ["- 1 a (樓)"]
    is short and contains 樓, so the next run promotes it to a header. *)
Example clean_not_idempotent_at_short_room_line :
  clean_text_advanced (join_lines [u "1"; u "a"; u "樓"]) [] = Some (u "- 1 a (樓)")
  /\ clean_text_advanced (u "- 1 a (樓)") [] = Some (u "## - 1 a (樓)").
Proof. split; vm_compute; reflexivity. Qed.

(** An empty line after a room-number line makes [next1[0]] raise. *)
Example clean_raises_on_hash_line_after_room :
  clean_text_advanced (join_lines [u "1"; u "##"; u "x"]) [] = None.
Proof. vm_compute. reflexivity. Qed.

End CleanerFacts.

Module ExtractorFacts.
Import TextCleaner Extractor.

Definition no_floor (l : str) : Prop := floor_match (strip l) = None.

Fixpoint floor_after (current_floor : str) (lines : list str) : str :=
  match lines with
  | [] => current_floor
  | l :: lines' =>
    floor_after (match floor_match (strip l) with Some f => f | None => current_floor end) lines'
  end.

Lemma floor_group_nonempty : forall s f, floor_group s = Some f -> f <> [].
Proof.
  unfold floor_group; intros s f H.
  destruct (_ && _).
  - injection H as <-. destruct (take_while is_decimal s); discriminate.
  - destruct s as [|b s']; [discriminate|].
    destruct (b =? chr_B); [|discriminate].
    destruct (take_while is_decimal s'); [discriminate|]. injection H as <-; discriminate.
Qed.

Lemma floor_match_nonempty : forall l f, floor_match l = Some f -> f <> [].
Proof.
  unfold floor_match; intros l f H.
  destruct (if startswith l (u "##") then _ else None) as [g|] eqn:E.
  - injection H as <-. destruct (startswith l (u "##")); [|discriminate].
    eapply floor_group_nonempty; eassumption.
  - eapply floor_group_nonempty; eassumption.
Qed.

Lemma extract_lines_app : forall b pre post cf,
  extract_lines b cf (pre ++ post) = extract_lines b cf pre ++ extract_lines b (floor_after cf pre) post.
Proof.
  intros b pre; induction pre as [|l pre IH]; intros post cf; [reflexivity|].
  simpl. destruct (floor_match (strip l)) as [f|]; [apply IH|].
  destruct (office_match (strip l)) as [[[rm nm] en]|]; [|apply IH].
  destruct cf; [apply IH|]. simpl. f_equal. apply IH.
Qed.

Lemma extract_lines_drop_unmatched : forall b pre l post cf,
  floor_match (strip l) = None -> office_match (strip l) = None ->
  extract_lines b cf (pre ++ l :: post) = extract_lines b cf (pre ++ post).
Proof.
  intros b pre; induction pre as [|l0 pre IH]; intros l post cf Hf Ho.
  - simpl. rewrite Hf, Ho. reflexivity.
  - simpl. destruct (floor_match (strip l0)) as [f|]; [apply IH; assumption|].
    destruct (office_match (strip l0)) as [[[rm nm] en]|]; [|apply IH; assumption].
    destruct cf; [apply IH; assumption|]. f_equal. apply IH; assumption.
Qed.

Lemma extract_lines_before_header : forall b pre post,
  Forall no_floor pre -> extract_lines b [] (pre ++ post) = extract_lines b [] post.
Proof.
  intros b pre post H; induction H as [|l pre Hl _ IH]; [reflexivity|].
  unfold no_floor in Hl. simpl. rewrite Hl.
  destruct (office_match (strip l)) as [[[rm nm] en]|]; exact IH.
Qed.

(** Where a record comes from: the office line [e] and, unless the floor is
    the initial one, the last floor header [h] before it. *)
Definition from_office_line (r : OfficeRecord) (e : str) : Prop :=
  no_floor e /\ exists nm en, office_match (strip e) = Some (room r, nm, en) /\ name_zh r = strip nm.

Lemma extract_lines_origin : forall b lines cf r,
  In r (extract_lines b cf lines) ->
  building r = b /\ floor r <> [] /\
  ((floor r = cf /\ exists mid e post, lines = mid ++ e :: post /\ Forall no_floor mid
                                        /\ from_office_line r e)
   \/ exists pre h mid e post, lines = pre ++ h :: mid ++ e :: post
        /\ floor_match (strip h) = Some (floor r) /\ Forall no_floor mid /\ from_office_line r e).
Proof.
  intros b lines; induction lines as [|l lines IH]; intros cf r Hin; [destruct Hin|].
  simpl in Hin. destruct (floor_match (strip l)) as [f|] eqn:Hf.
  - destruct (IH f r Hin) as (Hb & Hne & [[Hfl (mid & e & post & -> & Hmid & He)] | Hold]);
      (split; [exact Hb|]); (split; [exact Hne|]); right.
    + exists [], l, mid, e, post. subst f. auto.
    + destruct Hold as (pre & h & mid & e & post & -> & Hh & Hmid & He).
      exists (l :: pre), h, mid, e, post. auto.
  - assert (Hcons : forall r', In r' (extract_lines b cf lines) ->
              building r' = b /\ floor r' <> [] /\
              ((floor r' = cf /\ exists mid e post, l :: lines = mid ++ e :: post
                  /\ Forall no_floor mid /\ from_office_line r' e)
               \/ exists pre h mid e post, l :: lines = pre ++ h :: mid ++ e :: post
                  /\ floor_match (strip h) = Some (floor r') /\ Forall no_floor mid
                  /\ from_office_line r' e)).
    { intros r' Hr'.
      destruct (IH cf r' Hr') as (Hb & Hne & [[Hfl (mid & e & post & -> & Hmid & He)] | Hold]);
        (split; [exact Hb|]); (split; [exact Hne|]).
      - left. split; [exact Hfl|]. exists (l :: mid), e, post. split; [reflexivity|].
        split; [constructor; assumption | exact He].
      - right. destruct Hold as (pre & h & mid & e & post & -> & Hh & Hmid & He).
        exists (l :: pre), h, mid, e, post. auto. }
    destruct (office_match (strip l)) as [[[rm nm] en]|] eqn:Ho; [|auto].
    destruct cf as [|c cf']; [auto|].
    destruct Hin as [<- | Hin]; [|auto].
    simpl. split; [reflexivity|]. split; [discriminate|]. left. split; [reflexivity|].
    exists [], l, lines. split; [reflexivity|]. split; [constructor|].
    split; [exact Hf|]. exists nm, en. auto.
Qed.

Lemma scenario_A_lines : forall b cf post,
  extract_lines b cf (u "## 1樓" :: u "- 106 註冊組 (Registrar)" :: post)
  = mkOffice b (u "1樓") (u "106") (u "註冊組") (u "Registrar") :: extract_lines b (u "1樓") post.
Proof.
  intros b cf post. cbn [extract_lines].
  assert (H1 : floor_match (strip (u "## 1樓")) = Some (u "1樓")) by (vm_compute; reflexivity).
  assert (H2 : floor_match (strip (u "- 106 註冊組 (Registrar)")) = None) by (vm_compute; reflexivity).
  assert (H3 : office_match (strip (u "- 106 註冊組 (Registrar)"))
               = Some (u "106", u "註冊組", Some (u "Registrar"))) by (vm_compute; reflexivity).
  rewrite H1, H2, H3. reflexivity.
Qed.

(** Claim C6 (Scenario A).  For any building name [b] and any text whose
    lines contain ["## 1樓"] immediately followed by
    ["- 106 註冊組 (Registrar)"], the office-location extractor emits the
    record [{b, 1樓, 106, 註冊組, Registrar}]. *)
Theorem scenario_A_registrar : forall (b content : str) (pre post : list str),
  split_lines content = pre ++ [u "## 1樓"; u "- 106 註冊組 (Registrar)"] ++ post ->
  In (mkOffice b (u "1樓") (u "106") (u "註冊組") (u "Registrar"))
     (_extract_office_locations content b).
Proof.
  intros b content pre post H. unfold _extract_office_locations. rewrite H.
  rewrite extract_lines_app. apply in_or_app. right. simpl app.
  rewrite scenario_A_lines. left. reflexivity.
Qed.

Lemma scenario_A_registrar_witness :
  split_lines (join_lines [u "## 1樓"; u "- 106 註冊組 (Registrar)"])
    = [] ++ [u "## 1樓"; u "- 106 註冊組 (Registrar)"] ++ []
  /\ In (mkOffice (u "行政大樓") (u "1樓") (u "106") (u "註冊組") (u "Registrar"))
        (_extract_office_locations (join_lines [u "## 1樓"; u "- 106 註冊組 (Registrar)"]) (u "行政大樓")).
Proof.
  assert (H : split_lines (join_lines [u "## 1樓"; u "- 106 註冊組 (Registrar)"])
              = [] ++ [u "## 1樓"; u "- 106 註冊組 (Registrar)"] ++ []) by (vm_compute; reflexivity).
  split; [exact H|].
  exact (scenario_A_registrar (u "行政大樓") _ [] [] H).
Defined.

(** Claim C7.  The extractor is a total function (a single pass over the
    lines, no failure case).  For every text: every emitted record carries
    the given building and a non-empty floor, its floor is the token of the
    last floor-header line before its office line (with only non-header
    lines in between); office lines before the first floor header emit
    nothing; and deleting a line that matches neither pattern leaves the
    output unchanged. *)
Theorem extractor_floor_discipline : forall (content b : str),
  (forall r, In r (_extract_office_locations content b) ->
     building r = b /\ floor r <> [] /\
     exists pre h mid e post, split_lines content = pre ++ h :: mid ++ e :: post
       /\ floor_match (strip h) = Some (floor r) /\ Forall no_floor mid /\ from_office_line r e)
  /\ (forall pre post, split_lines content = pre ++ post -> Forall no_floor pre ->
        _extract_office_locations content b = extract_lines b [] post)
  /\ (forall pre l post, split_lines content = pre ++ l :: post ->
        floor_match (strip l) = None -> office_match (strip l) = None ->
        _extract_office_locations content b = extract_lines b [] (pre ++ post)).
Proof.
  intros content b. unfold _extract_office_locations. split; [|split].
  - intros r Hr. destruct (extract_lines_origin b _ [] r Hr) as (Hb & Hne & [[Hfl _] | Hold]).
    + exfalso. exact (Hne Hfl).
    + split; [exact Hb|]. split; [exact Hne|]. exact Hold.
  - intros pre post H Hpre. rewrite H. apply extract_lines_before_header. exact Hpre.
  - intros pre l post H Hf Ho. rewrite H. apply extract_lines_drop_unmatched; assumption.
Qed.

Lemma extractor_floor_discipline_witness :
  split_lines (join_lines [u "- 101 訪客中心"; u "## 1樓"; u "- 106 註冊組 (Registrar)"])
    = [u "- 101 訪客中心"] ++ [u "## 1樓"; u "- 106 註冊組 (Registrar)"]
  /\ Forall no_floor [u "- 101 訪客中心"]
  /\ _extract_office_locations (join_lines [u "- 101 訪客中心"; u "## 1樓"; u "- 106 註冊組 (Registrar)"])
       (u "行政大樓")
     = extract_lines (u "行政大樓") [] [u "## 1樓"; u "- 106 註冊組 (Registrar)"].
Proof.
  assert (H : split_lines (join_lines [u "- 101 訪客中心"; u "## 1樓"; u "- 106 註冊組 (Registrar)"])
              = [u "- 101 訪客中心"] ++ [u "## 1樓"; u "- 106 註冊組 (Registrar)"])
    by (vm_compute; reflexivity).
  assert (Hf : Forall no_floor [u "- 101 訪客中心"])
    by (constructor; [unfold no_floor; vm_compute; reflexivity | constructor]).
  split; [exact H|]. split; [exact Hf|].
  exact (proj1 (proj2 (extractor_floor_discipline
           (join_lines [u "- 101 訪客中心"; u "## 1樓"; u "- 106 註冊組 (Registrar)"]) (u "行政大樓")))
           _ _ H Hf).
Defined.

End ExtractorFacts.

Module NormalizeFacts.
Import Extractor Normalize Chunks.

Ltac bool_lia :=
  repeat match goal with
         | H : _ |- _ => progress (rewrite ?Bool.orb_true_iff, ?Bool.andb_true_iff, ?Z.leb_le,
                                    ?Z.eqb_eq, ?Bool.negb_true_iff, ?Z.eqb_neq in H)
         | H : _ |- _ => progress (rewrite ?Bool.orb_false_iff, ?Bool.andb_false_iff, ?Z.leb_gt,
                                    ?Bool.negb_false_iff in H)
         end; lia.

Section LowerLaws.
Variable lower : str -> str.
Hypothesis lower_idem : forall s, lower (lower s) = lower s.
Hypothesis lower_keeps_class_free : forall s, remove_class (lower (remove_class s)) = lower (remove_class s).
Hypothesis lower_nil : lower [] = [].

Lemma normalize_with_spec : forall s, normalize_with lower s = lower (remove_class s).
Proof. intros [|c s]; simpl; [symmetry; exact lower_nil | reflexivity]. Qed.

Lemma normalize_with_idem : forall s, normalize_with lower (normalize_with lower s) = normalize_with lower s.
Proof.
  intros s. rewrite !normalize_with_spec, lower_keeps_class_free, lower_idem. reflexivity.
Qed.
End LowerLaws.

(** *** Facts of the [str.lower] tables, checked by evaluation *)

(** A code point [str.lower] leaves alone wherever it occurs. *)
Definition fixed_cp (d : Z) : bool :=
  negb (d =? 931) && negb (existsb (fun p => fst p =? d) lower_table).

Definition props (c : Z) : bool * bool * bool :=
  (_PyUnicode_IsCaseIgnorable c, _PyUnicode_IsCased c, in_class c).

Definition props_eqb (c d : Z) : bool :=
  Bool.eqb (_PyUnicode_IsCaseIgnorable c) (_PyUnicode_IsCaseIgnorable d)
  && Bool.eqb (_PyUnicode_IsCased c) (_PyUnicode_IsCased d) && Bool.eqb (in_class c) (in_class d).

(** Each mapping of the table is one or two code points, each of which is
    fixed and outside the class; no key is U+03A3 or in the class. *)
Lemma lower_table_images :
  forallb (fun p => negb (fst p =? 931) && negb (in_class (fst p))
                    && forallb (fun d => fixed_cp d && negb (in_class d)) (snd p)
                    && negb (Nat.eqb (List.length (snd p)) 0) && (List.length (snd p) <=? 2)%nat)
    lower_table = true.
Proof. vm_compute. reflexivity. Qed.

(** A key mapped to one code point has that code point's properties; a key
    mapped to several code points is the only key with that mapping. *)
Lemma lower_table_props :
  forallb (fun p => match snd p with
                    | [d] => props_eqb (fst p) d
                    | m => forallb (fun p' => if list_eq_dec Z.eq_dec m (snd p') then fst p' =? fst p else true)
                             lower_table
                    end) lower_table = true.
Proof. vm_compute. reflexivity. Qed.

Lemma sigma_images : fixed_cp 962 && negb (in_class 962) && fixed_cp 963 && negb (in_class 963) = true.
Proof. vm_compute. reflexivity. Qed.

Lemma props_eqb_spec : forall c d, props_eqb c d = true -> props c = props d.
Proof.
  intros c d H. unfold props_eqb in H. apply andb_prop in H. destruct H as [H H3].
  apply andb_prop in H. destruct H as [H1 H2].
  apply Bool.eqb_prop in H1, H2, H3. unfold props. rewrite H1, H2, H3. reflexivity.
Qed.

Lemma tolower_cases : forall c,
  (exists p, In p lower_table /\ fst p = c /\ _PyUnicode_ToLowerFull c = snd p)
  \/ (_PyUnicode_ToLowerFull c = [c] /\ existsb (fun p => fst p =? c) lower_table = false).
Proof.
  intros c. unfold _PyUnicode_ToLowerFull.
  destruct (find (fun p => Z.eqb (fst p) c) lower_table) as [[k m]|] eqn:E.
  - left. destruct (find_some _ _ E) as [Hin Hk]. apply Z.eqb_eq in Hk.
    exists (k, m). auto.
  - right. split; [reflexivity|]. apply Bool.not_true_is_false. intros H.
    apply existsb_exists in H. destruct H as (x & Hx & Hxe).
    rewrite (find_none _ _ E x Hx) in Hxe. discriminate.
Qed.

Lemma fixed_cp_tolower : forall d, fixed_cp d = true -> d <> 931 /\ _PyUnicode_ToLowerFull d = [d].
Proof.
  intros d H. unfold fixed_cp in H. apply andb_prop in H. destruct H as [H1 H2].
  apply negb_true_iff in H1, H2. split; [apply Z.eqb_neq, H1|].
  destruct (tolower_cases d) as [(p & Hp & Hd & _)|[E _]]; [|exact E].
  exfalso. assert (Hx : existsb (fun p => fst p =? d) lower_table = true)
    by (apply existsb_exists; exists p; split; [exact Hp|apply Z.eqb_eq, Hd]).
  congruence.
Qed.

Lemma table_entry : forall p, In p lower_table ->
  fst p <> 931 /\ in_class (fst p) = false
  /\ (forall d, In d (snd p) -> fixed_cp d = true /\ in_class d = false)
  /\ snd p <> [] /\ (List.length (snd p) <= 2)%nat.
Proof.
  intros p Hp. pose proof lower_table_images as H. rewrite forallb_forall in H.
  specialize (H p Hp). rewrite !andb_true_iff in H.
  destruct H as ((((H1 & H2) & H3) & H4) & H5).
  apply negb_true_iff in H1, H2, H4. split; [apply Z.eqb_neq, H1|]. split; [exact H2|].
  split; [|split].
  - intros d Hd. rewrite forallb_forall in H3. specialize (H3 d Hd).
    apply andb_prop in H3. destruct H3 as [H3 H3']. split; [exact H3|apply negb_true_iff, H3'].
  - intros He. rewrite He in H4. discriminate.
  - apply Nat.leb_le, H5.
Qed.

Lemma do_lower_cons : forall p c rest,
  do_lower p (c :: rest) = lower_ucs4 p rest c ++ do_lower (c :: p) rest.
Proof. reflexivity. Qed.

Lemma lower_ucs4_out : forall p rest c,
  lower_ucs4 p rest c <> [] /\ (List.length (lower_ucs4 p rest c) <= 2)%nat
  /\ forall d, In d (lower_ucs4 p rest c) -> fixed_cp d = true /\ (in_class c = false -> in_class d = false).
Proof.
  intros p rest c. unfold lower_ucs4. destruct (c =? 931) eqn:Ec.
  - split; [discriminate|]. split; [simpl; lia|].
    intros d [<-|[]]. pose proof sigma_images as S. rewrite !andb_true_iff, !negb_true_iff in S.
    unfold handle_capital_sigma.
    destruct (scan_cased p) as [[|]|]; [destruct (scan_cased rest) as [[|]|]| |]; simpl; tauto.
  - destruct (tolower_cases c) as [(q & Hq & <- & ->)|[-> Hn]].
    + destruct (table_entry q Hq) as (_ & _ & Hd & Hne & Hl).
      split; [exact Hne|]. split; [exact Hl|]. intros d Hi. split; [apply Hd, Hi|intros _; apply Hd, Hi].
    + split; [discriminate|]. split; [simpl; lia|]. intros d [<-|[]]. split; [|auto].
      unfold fixed_cp. rewrite Ec, Hn. reflexivity.
Qed.

Lemma do_lower_out : forall s p d, In d (do_lower p s) ->
  fixed_cp d = true /\ exists c, In c s /\ (in_class c = false -> in_class d = false).
Proof.
  induction s as [|c s IH]; intros p d H; [destruct H|].
  rewrite do_lower_cons in H. apply in_app_iff in H. destruct H as [H|H].
  - destruct (lower_ucs4_out p s c) as (_ & _ & Ho). destruct (Ho d H) as [Hf Hc].
    split; [exact Hf|]. exists c. split; [left; reflexivity|exact Hc].
  - destruct (IH _ _ H) as [Hf (c' & Hc' & Hk)]. split; [exact Hf|].
    exists c'. split; [right; exact Hc'|exact Hk].
Qed.

Lemma do_lower_fixed : forall s p, (forall d, In d s -> fixed_cp d = true) -> do_lower p s = s.
Proof.
  induction s as [|c s IH]; intros p H; [reflexivity|].
  rewrite do_lower_cons. destruct (fixed_cp_tolower c (H c (or_introl eq_refl))) as [Hn Ht].
  unfold lower_ucs4. apply Z.eqb_neq in Hn. rewrite Hn, Ht. simpl. f_equal.
  apply IH. intros d Hd. apply H. right. exact Hd.
Qed.

Lemma do_lower_length : forall s p, (List.length (do_lower p s) <= 2 * List.length s)%nat.
Proof.
  induction s as [|c s IH]; intros p; [simpl; lia|].
  rewrite do_lower_cons, length_app. destruct (lower_ucs4_out p s c) as (_ & Hl & _).
  specialize (IH (c :: p)). simpl. lia.
Qed.

Lemma do_lower_nonempty : forall s p, s <> [] -> do_lower p s <> [].
Proof.
  intros [|c s] p H; [congruence|]. rewrite do_lower_cons. intros He.
  apply app_eq_nil in He. destruct He as [He _]. exact (proj1 (lower_ucs4_out p s c) He).
Qed.

Lemma remove_class_free : forall s, (forall c, In c s -> in_class c = false) -> remove_class s = s.
Proof.
  intros s H. unfold remove_class. induction s as [|c s IH]; [reflexivity|]. simpl.
  rewrite (H c (or_introl eq_refl)). simpl. f_equal. apply IH. intros x Hx. apply H. right. exact Hx.
Qed.

Lemma remove_class_out : forall s c, In c (remove_class s) -> in_class c = false.
Proof.
  intros s c Hc. unfold remove_class in Hc. apply filter_In in Hc.
  destruct Hc as [_ Hc]. destruct (in_class c); [discriminate|reflexivity].
Qed.

Lemma py_lower_class_free : forall s, (forall c, In c s -> in_class c = false) ->
  forall d, In d (py_lower s) -> in_class d = false.
Proof.
  intros s H d Hd. destruct (do_lower_out s [] d Hd) as [_ (c & Hc & Hk)]. apply Hk, H, Hc.
Qed.

Lemma remove_class_lower : forall s,
  remove_class (py_lower (remove_class s)) = py_lower (remove_class s).
Proof.
  intros s. apply remove_class_free. apply py_lower_class_free. apply remove_class_out.
Qed.

Lemma py_lower_idem : forall s, py_lower (py_lower s) = py_lower s.
Proof.
  intros s. unfold py_lower at 1. apply do_lower_fixed.
  intros d Hd. exact (proj1 (do_lower_out s [] d Hd)).
Qed.

Lemma normalize_spec : forall s, _normalize_unit_id s = py_lower (remove_class s).
Proof. apply normalize_with_spec. reflexivity. Qed.

Lemma location_chunk_unit_id : forall url dept o,
  meta_get (metadata (location_chunk url dept o)) (u "unit_id") = Some (_normalize_unit_id (name_zh o)).
Proof.
  intros url dept o. unfold location_chunk, metadata.
  cbv beta iota zeta delta -[_normalize_unit_id name_zh building floor room]. reflexivity.
Qed.

Lemma content_metadata_unit_id : forall title url dept ty nm v,
  meta_get (content_metadata title url dept ty nm) (u "unit_id") = Some v ->
  exists n, nm = Some n /\ v = _normalize_unit_id n.
Proof.
  intros title url dept ty nm v H. unfold content_metadata in H.
  destruct nm as [[|c n]|]; [vm_compute in H; discriminate| |vm_compute in H; discriminate].
  exists (c :: n). split; [reflexivity|].
  cbn -[_normalize_unit_id meta_get u] in H.
  destruct (_normalize_unit_id (c :: n)) as [|d k] eqn:E; vm_compute in H.
  - discriminate.
  - injection H as <-. reflexivity.
Qed.

(** *** Changing one code point *)

Definition same_case_props (c d : Z) : Prop :=
  _PyUnicode_IsCaseIgnorable c = _PyUnicode_IsCaseIgnorable d /\ _PyUnicode_IsCased c = _PyUnicode_IsCased d.

Lemma same_case_props_refl : forall c, same_case_props c c.
Proof. intros c. split; reflexivity. Qed.

Lemma scan_cased_props : forall l1 l2, Forall2 same_case_props l1 l2 -> scan_cased l1 = scan_cased l2.
Proof.
  intros l1 l2 H. induction H as [|c d l1 l2 [Hi Hc] _ IH]; [reflexivity|].
  simpl. rewrite Hi, Hc, IH. reflexivity.
Qed.

Lemma Forall2_same_refl : forall l, Forall2 same_case_props l l.
Proof. induction l; constructor; [apply same_case_props_refl|assumption]. Qed.

Lemma do_lower_before : forall s p1 p2, Forall2 same_case_props p1 p2 -> do_lower p1 s = do_lower p2 s.
Proof.
  induction s as [|c s IH]; intros p1 p2 H; [reflexivity|]. rewrite !do_lower_cons.
  f_equal.
  - unfold lower_ucs4, handle_capital_sigma. rewrite (scan_cased_props _ _ H). reflexivity.
  - apply IH. constructor; [apply same_case_props_refl|exact H].
Qed.

Lemma do_lower_replace : forall x p c c' y, c <> 931 -> c' <> 931 ->
  _PyUnicode_ToLowerFull c = _PyUnicode_ToLowerFull c' -> same_case_props c c' ->
  do_lower p (x ++ c :: y) = do_lower p (x ++ c' :: y).
Proof.
  induction x as [|e x IH]; intros p c c' y Hc Hc' Hl Hs; simpl app; rewrite !do_lower_cons.
  - unfold lower_ucs4. apply Z.eqb_neq in Hc, Hc'. rewrite Hc, Hc', Hl. f_equal.
    apply do_lower_before. constructor; [exact Hs|apply Forall2_same_refl].
  - f_equal; [|apply IH; assumption].
    unfold lower_ucs4, handle_capital_sigma.
    rewrite (scan_cased_props (x ++ c :: y) (x ++ c' :: y)); [reflexivity|].
    apply Forall2_app; [apply Forall2_same_refl|constructor; [exact Hs|apply Forall2_same_refl]].
Qed.

(** Two code points with the same full lower-case mapping have the same
    case properties and are both in the class or both outside it. *)
Lemma tolower_same_props : forall c c',
  _PyUnicode_ToLowerFull c = _PyUnicode_ToLowerFull c' -> props c = props c'.
Proof.
  assert (Hent : forall q, In q lower_table -> match snd q with
                    | [d] => props_eqb (fst q) d
                    | m => forallb (fun p' => if list_eq_dec Z.eq_dec m (snd p') then fst p' =? fst q else true)
                             lower_table
                    end = true).
  { intros q Hq. pose proof lower_table_props as H. rewrite forallb_forall in H. exact (H q Hq). }
  assert (Hone : forall q c', In q lower_table -> snd q = [c'] -> props (fst q) = props c').
  { intros q c' Hq Hs. specialize (Hent q Hq). rewrite Hs in Hent. apply props_eqb_spec, Hent. }
  intros c c' H.
  destruct (tolower_cases c) as [(q & Hq & <- & Ec)|[Ec _]];
  destruct (tolower_cases c') as [(q' & Hq' & <- & Ec')|[Ec' _]]; rewrite Ec, Ec' in H.
  - destruct (snd q) as [|d [|d' m]] eqn:Es.
    + destruct (table_entry q Hq) as (_ & _ & _ & Hne & _). congruence.
    + rewrite (Hone q d Hq Es), (Hone q' d Hq' (eq_sym H)). reflexivity.
    + specialize (Hent q Hq). rewrite Es in Hent. rewrite forallb_forall in Hent.
      specialize (Hent q' Hq'). rewrite <- H in Hent.
      destruct (list_eq_dec Z.eq_dec (d :: d' :: m) (d :: d' :: m)) as [_|n]; [|congruence].
      apply Z.eqb_eq in Hent. rewrite Hent. reflexivity.
  - exact (Hone q c' Hq H).
  - symmetry. exact (Hone q' c Hq' (eq_sym H)).
  - injection H as ->. reflexivity.
Qed.

(** Claim C10.  [_normalize_unit_id] is idempotent, so the [unit_id] of
    every location chunk built by [_create_location_chunks], and the
    [unit_id] attached to the content chunks of a document, are fixed
    points of it. *)
Theorem normalize_unit_id_idempotent :
  (forall s, _normalize_unit_id (_normalize_unit_id s) = _normalize_unit_id s)
  /\ (forall offices url dept c v, In c (_create_location_chunks offices url dept) ->
        meta_get (metadata c) (u "unit_id") = Some v -> _normalize_unit_id v = v)
  /\ (forall title url dept ty nm v, meta_get (content_metadata title url dept ty nm) (u "unit_id") = Some v ->
        _normalize_unit_id v = v).
Proof.
  assert (Hidem : forall s, _normalize_unit_id (_normalize_unit_id s) = _normalize_unit_id s).
  { apply normalize_with_idem; [exact py_lower_idem | exact remove_class_lower | reflexivity]. }
  split; [exact Hidem|]. split.
  - intros offices url dept c v Hc Hv. unfold _create_location_chunks in Hc.
    apply in_map_iff in Hc. destruct Hc as (o & <- & _).
    rewrite location_chunk_unit_id in Hv. injection Hv as <-. apply Hidem.
  - intros title url dept ty nm v Hv. destruct (content_metadata_unit_id _ _ _ _ _ _ Hv) as (n & _ & ->).
    apply Hidem.
Qed.

(** Two strings have the same key when one is obtained from the other by
    inserting characters of the stripped class, or by replacing a code
    point other than U+03A3 with another one, also not U+03A3, that has the
    same full lower-case mapping. *)
Inductive key_step : str -> str -> Prop :=
  | key_insert : forall a b c, in_class c = true -> key_step (a ++ b) (a ++ c :: b)
  | key_case : forall a b c c', c <> 931 -> c' <> 931 ->
      _PyUnicode_ToLowerFull c = _PyUnicode_ToLowerFull c' -> key_step (a ++ c :: b) (a ++ c' :: b).

Lemma remove_class_app : forall a b, remove_class (a ++ b) = remove_class a ++ remove_class b.
Proof. intros. unfold remove_class. apply filter_app. Qed.

Lemma key_step_same : forall s t, key_step s t -> _normalize_unit_id s = _normalize_unit_id t.
Proof.
  intros s t H. rewrite !normalize_spec. destruct H as [a b c Hc | a b c c' Hc Hc' Hl].
  - rewrite !remove_class_app. simpl. rewrite Hc. reflexivity.
  - pose proof (tolower_same_props c c' Hl) as Hp. unfold props in Hp. injection Hp as Hi Hk Hcl.
    rewrite !remove_class_app. simpl. rewrite Hcl.
    destruct (in_class c'); simpl; [reflexivity|].
    unfold py_lower. apply do_lower_replace; [exact Hc|exact Hc'|exact Hl|split; assumption].
Qed.

(** Claim C8 (counterexample).  Not every bracket character is stripped:
    the corner brackets 「 」 are kept, so ["「註冊組」"] and ["註冊組"] get
    different keys.  Nor do two strings that differ only in letter case
    always get the same key: [str.lower] gives Σ its final form ς at the
    end of a word, so ["ΑΣ"] and ["Ασ"] get the keys ["ας"] and ["ασ"]. *)
Lemma normalize_key_counterexamples :
  _normalize_unit_id (u "「註冊組」") = u "「註冊組」"
  /\ _normalize_unit_id (u "「註冊組」") <> _normalize_unit_id (u "註冊組")
  /\ _normalize_unit_id (u "ΑΣ") = u "ας" /\ _normalize_unit_id (u "Ασ") = u "ασ"
  /\ _normalize_unit_id (u "ΑΣ") <> _normalize_unit_id (u "Ασ").
Proof.
  split; [|split; [|split; [|split]]]; vm_compute; first [reflexivity | discriminate].
Qed.

(** Claim C8 (amended).  [_normalize_unit_id] deletes exactly the
    characters of its class (Unicode white space and
    ( ) （ ） [ ] 【 】 - – — _ · • : ： , ， 。 ． . / \) and applies
    [str.lower] to the rest; all other characters are kept.  In particular
    the keys of ["註冊組"] and ["註冊 組"] are equal, and two strings related
    by inserting class characters, or by replacing a code point other than
    Σ with one that has the same full lower-case mapping (such as A and a),
    get the same key. *)
Theorem normalize_unit_id_equivalence :
  (forall s, _normalize_unit_id s = py_lower (filter (fun c => negb (in_class c)) s))
  /\ _normalize_unit_id (u "註冊組") = _normalize_unit_id (u "註冊 組")
  /\ (forall s t, clos_refl_sym_trans str key_step s t -> _normalize_unit_id s = _normalize_unit_id t).
Proof.
  split; [exact normalize_spec|]. split; [vm_compute; reflexivity|].
  intros s t H. induction H as [s t H| s | s t _ IH | s t w _ IH1 _ IH2].
  - apply key_step_same. exact H.
  - reflexivity.
  - symmetry. exact IH.
  - rewrite IH1. exact IH2.
Qed.

Lemma normalize_unit_id_equivalence_witness :
  clos_refl_sym_trans str key_step (u "Registrar組") (u "registrar 組")
  /\ _normalize_unit_id (u "Registrar組") = _normalize_unit_id (u "registrar 組").
Proof.
  assert (H : clos_refl_sym_trans str key_step (u "Registrar組") (u "registrar 組")).
  { apply rst_trans with (y := u "registrar組"); apply rst_step.
    - exact (key_case [] (u "egistrar組") 82 114 ltac:(lia) ltac:(lia) ltac:(vm_compute; reflexivity)).
    - exact (key_insert (u "registrar") (u "組") 32 eq_refl). }
  split; [exact H|]. exact (proj2 (proj2 normalize_unit_id_equivalence) _ _ H).
Defined.

End NormalizeFacts.

Module SortFacts.
Import Engine.
Open Scope Q_scope.

Section SortBy.
Context {A : Type} (key : A -> Q).

Definition key_le (a b : A) : Prop := key a <= key b.

Lemma qlt_true : forall a b, qlt a b = true -> a < b.
Proof.
  unfold qlt. intros a b H. apply Bool.negb_true_iff in H.
  apply Qnot_le_lt. intro Hle. apply Qle_bool_iff in Hle. congruence.
Qed.

Lemma qlt_false : forall a b, qlt a b = false -> b <= a.
Proof.
  unfold qlt. intros a b H. apply Bool.negb_false_iff in H. apply Qle_bool_iff. exact H.
Qed.

Lemma insert_by_perm : forall x l, Permutation (insert_by key x l) (x :: l).
Proof.
  intros x l; induction l as [|y l IH]; simpl; [reflexivity|].
  destruct (qlt (key x) (key y)); [reflexivity|].
  rewrite IH. apply perm_swap.
Qed.

Lemma insert_by_hd : forall y x l, HdRel key_le y l -> key_le y x -> HdRel key_le y (insert_by key x l).
Proof.
  intros y x l Hl Hyx. destruct l as [|z l]; simpl.
  - constructor. exact Hyx.
  - destruct (qlt (key x) (key z)); constructor; [exact Hyx|]. inversion Hl; assumption.
Qed.

Lemma insert_by_sorted : forall x l, Sorted key_le l -> Sorted key_le (insert_by key x l).
Proof.
  intros x l H; induction H as [|y l Hl IH Hhd]; simpl.
  - constructor; constructor.
  - destruct (qlt (key x) (key y)) eqn:E.
    + constructor; [constructor; assumption|]. constructor. apply Qlt_le_weak, qlt_true. exact E.
    + constructor; [exact IH|]. apply insert_by_hd; [exact Hhd|]. apply qlt_false. exact E.
Qed.

Lemma sort_by_fold : forall l acc,
  Permutation (fold_left (fun acc x => insert_by key x acc) l acc) (l ++ acc)
  /\ (Sorted key_le acc -> Sorted key_le (fold_left (fun acc x => insert_by key x acc) l acc)).
Proof.
  intros l; induction l as [|x l IH]; intros acc; simpl; [split; auto|].
  destruct (IH (insert_by key x acc)) as [Hp Hs]. split.
  - rewrite Hp, insert_by_perm. symmetry. apply Permutation_middle.
  - intro H. apply Hs. apply insert_by_sorted. exact H.
Qed.

Lemma sort_by_perm : forall l, Permutation (sort_by key l) l.
Proof. intros l. unfold sort_by. rewrite (proj1 (sort_by_fold l [])), app_nil_r. reflexivity. Qed.

Lemma sort_by_sorted : forall l, Sorted key_le (sort_by key l).
Proof. intros l. apply (proj2 (sort_by_fold l [])). constructor. Qed.

Lemma sorted_firstn : forall n l, Sorted key_le l -> Sorted key_le (firstn n l).
Proof.
  intros n l H. revert n. induction H as [|y l Hl IH Hhd]; intros [|n]; simpl; try constructor.
  - apply IH.
  - destruct n as [|n]; destruct l as [|z l]; simpl; constructor. inversion Hhd; assumption.
Qed.
End SortBy.

Lemma zip3_unzip3 : forall l, zip3 (map (fun e => fst (fst e)) l) (map (fun e => snd (fst e)) l) (map snd l) = l.
Proof. intros l; induction l as [|[[d m] x] l IH]; simpl; [reflexivity|]. rewrite IH. reflexivity. Qed.

Lemma entries_unzip3 : forall l, entries (unzip3 l) = l.
Proof. intros l. unfold entries, unzip3. simpl. apply zip3_unzip3. Qed.

End SortFacts.

Module RerankFacts.
Import Chunks Engine SortFacts.
Open Scope Q_scope.

Lemma str_eqb_eq : forall a b, str_eqb a b = true -> a = b.
Proof.
  intros a; induction a as [|x a IH]; intros [|y b]; simpl; try discriminate; [reflexivity|].
  intros H. apply andb_prop in H. destruct H as [H1 H2]. apply Z.eqb_eq in H1. subst. f_equal. apply IH. exact H2.
Qed.

Lemma str_eqb_refl : forall a, str_eqb a a = true.
Proof. intros a; induction a; simpl; [reflexivity|]. rewrite Z.eqb_refl. exact IHa. Qed.

(** The reranking rule in the words of the specification: a candidate whose
    chunk type equals the intent gets [max(0, d - discount)], with discount
    0.2 for location, 0.15 for phone and 0.1 for service. *)
Definition claimed_discount (intent : str) : option Q :=
  if str_eqb intent (u "location") then Some (1#5)
  else if str_eqb intent (u "phone") then Some (3#20)
  else if str_eqb intent (u "service") then Some (1#10)
  else None.

Definition claimed_distance (intent : str) (m : Meta) (x : Q) : Q :=
  match claimed_discount intent with
  | Some dsc => if str_eqb (chunk_type m) intent then max0 (x - dsc) else x
  | None => x
  end.

Lemma apply_type_boost_claimed : forall m x intent,
  _apply_type_boost m x intent = claimed_distance intent m x.
Proof.
  intros m x intent. unfold _apply_type_boost, claimed_distance, claimed_discount.
  destruct (str_eqb intent (u "location")) eqn:E1.
  - apply str_eqb_eq in E1. subst intent. simpl andb.
    destruct (str_eqb (chunk_type m) (u "location")); reflexivity.
  - destruct (str_eqb intent (u "phone")) eqn:E2.
    + apply str_eqb_eq in E2. subst intent. simpl andb.
      destruct (str_eqb (chunk_type m) (u "phone")); reflexivity.
    + destruct (str_eqb intent (u "service")) eqn:E3.
      * apply str_eqb_eq in E3. subst intent. simpl andb.
        destruct (str_eqb (chunk_type m) (u "service")); reflexivity.
      * reflexivity.
Qed.

Definition claimed_entry (intent : str) (e : Entry) : Entry :=
  (fst e, claimed_distance intent (snd (fst e)) (snd e)).

(** Claim C5.  For any candidate lists and intent, [_rerank_with_intent]
    with [top_k = 5] returns the first five elements of an ascending
    arrangement of the candidates, each carrying the boosted distance of
    the specification ([max(0, d - discount)] when its type equals the
    intent, [d] otherwise). *)
Theorem rerank_postcondition : forall docs metas dists intent,
  exists l, Permutation l (map (claimed_entry intent) (zip3 docs metas dists))
    /\ Sorted (key_le dist_of) l
    /\ entries (_rerank_with_intent docs metas dists intent 5) = firstn 5 l.
Proof.
  intros docs metas dists intent. destruct docs as [|d docs].
  - exists []. split; [reflexivity|]. split; [constructor|]. reflexivity.
  - exists (sort_by dist_of (map (boost_entry intent) (zip3 (d :: docs) metas dists))).
    split; [|split].
    + rewrite sort_by_perm. apply Permutation_refl'. apply map_ext.
      intros [[d' m] x]. unfold claimed_entry, boost_entry. simpl.
      rewrite apply_type_boost_claimed. reflexivity.
    + apply sort_by_sorted.
    + unfold _rerank_with_intent. apply entries_unzip3.
Qed.

End RerankFacts.

Module EngineFacts.
Import TextCleaner Normalize Chunks Engine SortFacts RerankFacts.
Open Scope Q_scope.

(** *** Triples over the query monad: an invariant [I] of the query log
    and a postcondition [P] of the returned value. *)

Definition triple {A} (I : list Call -> Prop) (m : M A) (P : A -> Prop) : Prop :=
  forall log, I log -> I (fst (m log)) /\ (forall x, snd (m log) = Some x -> P x).

Section Triples.
Variable I : list Call -> Prop.

Lemma triple_ret : forall A (P : A -> Prop) x, P x -> triple I (ret x) P.
Proof. intros A P x Hx log Hl. split; [exact Hl|]. intros y Hy. injection Hy as <-. exact Hx. Qed.

Lemma triple_bind : forall A B (m : M A) (f : A -> M B) P Q,
  triple I m P -> (forall x, P x -> triple I (f x) Q) -> triple I (bind m f) Q.
Proof.
  intros A B m f P Q Hm Hf log Hl. unfold bind.
  destruct (Hm log Hl) as [Hl' Hx]. destruct (m log) as [log' [x|]]; simpl in *.
  - exact (Hf x (Hx x eq_refl) log' Hl').
  - split; [exact Hl'|]. discriminate.
Qed.

Lemma triple_conseq : forall A (m : M A) (P Q : A -> Prop),
  triple I m P -> (forall x, P x -> Q x) -> triple I m Q.
Proof. intros A m P Q Hm HPQ log Hl. destruct (Hm log Hl) as [H1 H2]. split; auto. Qed.

Lemma triple_query : forall vs q n w (P : QRes -> Prop),
  (forall log, I log -> I (log ++ [(q, n, w)])) ->
  (forall r, vs_query vs q n w = Some r -> P r) -> triple I (query vs q n w) P.
Proof. intros vs q n w P HI HP log Hl. unfold query. simpl. split; auto. Qed.

Lemma triple_try_query : forall vs q n w (P : QRes -> Prop),
  (forall log, I log -> I (log ++ [(q, n, Some w)])) ->
  (forall log, I log -> I (log ++ [(q, n, None)])) ->
  (forall r, vs_query vs q n (Some w) = Some r -> P r) ->
  (forall r, vs_query vs q n None = Some r -> P r) ->
  triple I (try_query vs q n w) P.
Proof.
  intros vs q n w P HI1 HI2 HP1 HP2 log Hl. unfold try_query, query. simpl.
  destruct (vs_query vs q n (Some w)) as [r|] eqn:E; simpl.
  - split; [apply HI1; exact Hl|]. intros x Hx. injection Hx as <-. apply HP1. reflexivity.
  - split; [apply HI2, HI1; exact Hl|]. exact (HP2).
Qed.

Lemma triple_mfold : forall A B (f : B -> A -> M B) (Inv : B -> Prop) l acc,
  (forall acc x, In x l -> Inv acc -> triple I (f acc x) Inv) -> Inv acc -> triple I (mfold f l acc) Inv.
Proof.
  intros A B f Inv l; induction l as [|x l IH]; intros acc Hf Hacc; simpl.
  - apply triple_ret. exact Hacc.
  - apply triple_bind with (P := Inv).
    + apply Hf; [left; reflexivity | exact Hacc].
    + intros b Hb. apply IH; [|exact Hb]. intros acc' y Hy. apply Hf. right. exact Hy.
Qed.

Lemma triple_ext : forall A (m m' : M A) (P : A -> Prop),
  (forall log, m log = m' log) -> triple I m P -> triple I m' P.
Proof. intros A m m' P He Hm log Hl. rewrite <- He. apply Hm. exact Hl. Qed.

Lemma mfold_app : forall A B (f : B -> A -> M B) l1 l2 acc log,
  mfold f (l1 ++ l2) acc log = bind (mfold f l1 acc) (fun b => mfold f l2 b) log.
Proof.
  intros A B f l1; induction l1 as [|x l1 IH]; intros l2 acc log; simpl; [reflexivity|].
  unfold bind. destruct (f acc x log) as [log' [b|]]; [|reflexivity].
  rewrite IH. unfold bind. reflexivity.
Qed.

Lemma triple_mfold_app : forall A B (f : B -> A -> M B) l1 l2 acc (P Q : B -> Prop),
  triple I (mfold f l1 acc) P -> (forall b, P b -> triple I (mfold f l2 b) Q) ->
  triple I (mfold f (l1 ++ l2) acc) Q.
Proof.
  intros A B f l1 l2 acc P Q H1 H2.
  apply triple_ext with (m := bind (mfold f l1 acc) (fun b => mfold f l2 b)).
  - intros log. symmetry. apply mfold_app.
  - apply triple_bind with (P := P); assumption.
Qed.
End Triples.

(** *** Results of the store *)

Definition query_entry (vs : VStore) (q : str) (w : option Where) (e : Entry) : Prop :=
  exists c, In c (store_chunks vs) /\ matches w (metadata c) = true
            /\ e = (text c, metadata c, store_distance vs q (text c)).

(** A distance that is non-negative whenever all store distances are. *)
Definition NN (vs : VStore) (e : Entry) : Prop :=
  (forall q d, 0 <= store_distance vs q d) -> 0 <= dist_of e.

Lemma Forall_firstn : forall A (P : A -> Prop) n l, Forall P l -> Forall P (firstn n l).
Proof.
  intros A P n l H. revert n. induction H as [|x l Hx _ IH]; intros [|n]; simpl; constructor; auto.
Qed.

Lemma Forall_perm : forall A (P : A -> Prop) l l', Permutation l l' -> Forall P l' -> Forall P l.
Proof.
  intros A P l l' Hp H. apply Forall_forall. intros x Hx.
  rewrite Forall_forall in H. apply H. eapply Permutation_in; eassumption.
Qed.

Lemma NoDup_firstn' : forall A n (l : list A), NoDup l -> NoDup (firstn n l).
Proof.
  intros A n l H. apply (NoDup_app_remove_r _ (skipn n l)). rewrite firstn_skipn. exact H.
Qed.

Lemma vs_query_spec : forall vs q n w r, vs_query vs q n w = Some r ->
  exists l, r = unzip3 l /\ Forall (query_entry vs q w) l.
Proof.
  intros vs q n w r H. unfold vs_query in H. destruct (store_raises vs q n w); [discriminate|].
  injection H as <-. eexists; split; [reflexivity|].
  apply Forall_firstn. eapply Forall_perm; [apply sort_by_perm|].
  apply Forall_forall. intros e He. apply in_map_iff in He. destruct He as (c & <- & Hc).
  apply filter_In in Hc. destruct Hc as [Hc Hm]. exists c. auto.
Qed.

Lemma query_entry_NN : forall vs q w e, query_entry vs q w e -> NN vs e.
Proof. intros vs q w e (c & _ & _ & ->) Hd. simpl. apply Hd. Qed.

Lemma Forall_impl' : forall A (P Q : A -> Prop) l, (forall x, P x -> Q x) -> Forall P l -> Forall Q l.
Proof. intros A P Q l H Hl. induction Hl; constructor; auto. Qed.

(** *** Stage 2 *)

Definition MInv (vs : VStore) (st : list str * list Entry) : Prop :=
  (forall k, In k (fst st) <-> In k (map doc_key (snd st)))
  /\ NoDup (map doc_key (snd st)) /\ Forall (NN vs) (snd st).

Lemma merge_entry_inv : forall vs st e, MInv vs st -> NN vs e -> MInv vs (merge_entry st e).
Proof.
  intros vs [seen acc] e (Hs & Hnd & Hnn) He. unfold merge_entry.
  destruct (existsb (str_eqb (doc_key e)) seen) eqn:E; [split; auto|].
  assert (Hnot : ~ In (doc_key e) (map doc_key acc)).
  { intro Hin. apply Hs in Hin. assert (existsb (str_eqb (doc_key e)) seen = true).
    { apply existsb_exists. exists (doc_key e). split; [exact Hin | apply str_eqb_refl]. }
    congruence. }
  unfold MInv; simpl. rewrite map_app. simpl. split; [|split].
  - intros k. rewrite in_app_iff. simpl. rewrite <- (Hs k). tauto.
  - apply NoDup_app; [exact Hnd | repeat constructor; auto | ].
    intros x Hx1 Hx2. destruct Hx2 as [<- | []]. exact (Hnot Hx1).
  - apply Forall_app. split; [exact Hnn | constructor; auto].
Qed.

Lemma merge_results_inv : forall vs st l, MInv vs st -> Forall (NN vs) l ->
  MInv vs (fold_left merge_entry l st).
Proof.
  intros vs st l; revert st; induction l as [|e l IH]; intros st Hst Hl; simpl; [exact Hst|].
  inversion Hl; subst. apply IH; [apply merge_entry_inv|]; assumption.
Qed.

Lemma merge_step_triple : forall I vs q n w st,
  (forall log, I log -> I (log ++ [(q, n, Some w)])) ->
  (forall log, I log -> I (log ++ [(q, n, None)])) ->
  MInv vs st ->
  triple I (r <- try_query vs q n w ;; ret (merge_results st r)) (MInv vs).
Proof.
  intros I vs q n w st H1 H2 Hst. apply triple_bind with (P := fun r => Forall (NN vs) (entries r)).
  - apply triple_try_query; [exact H1 | exact H2 | |];
      intros r Hr; destruct (vs_query_spec _ _ _ _ _ Hr) as (l & -> & Hl);
      rewrite entries_unzip3; exact (Forall_impl' _ _ _ _ (query_entry_NN _ _ _) Hl).
  - intros r Hr. apply triple_ret. apply merge_results_inv; assumption.
Qed.

Definition plain_calls_ok (I : list Call -> Prop) : Prop :=
  forall q n log, I log -> I (log ++ [(q, n, None)]).

Lemma retrieve_stage2_triple : forall I vs names ids q n,
  plain_calls_ok I ->
  (forall uid log, In uid ids -> I log -> I (log ++ [(q, n, Some [(u "unit_id", uid)])])) ->
  triple I (retrieve_stage2 vs names ids q n)
    (fun r => exists l, r = unzip3 l /\ NoDup (map doc_key l) /\ Forall (NN vs) l).
Proof.
  intros I vs names ids q n Hplain Hids. unfold retrieve_stage2.
  apply triple_bind with (P := MInv vs).
  { apply triple_mfold; [|split; [simpl; tauto | split; constructor]].
    intros st uid Huid Hst. apply merge_step_triple; auto. }
  intros st Hst. apply triple_bind with (P := MInv vs).
  { destruct (snd st), names; try (apply triple_ret; exact Hst).
    apply triple_mfold; [|exact Hst]. intros st' nm _ Hst'.
    apply triple_bind with (P := fun r => Forall (NN vs) (entries r)).
    - apply triple_query; [intros; apply Hplain; assumption|]. intros r Hr.
      destruct (vs_query_spec _ _ _ _ _ Hr) as (l & -> & Hl). rewrite entries_unzip3.
      eapply Forall_impl'; [|exact Hl]. apply query_entry_NN.
    - intros r Hr. apply triple_ret. apply merge_results_inv; assumption. }
  intros st' (_ & Hnd & Hnn). apply triple_ret. eexists; split; [reflexivity|]. split.
  - rewrite <- firstn_map. apply NoDup_firstn'. eapply Permutation_NoDup; [|exact Hnd].
    apply Permutation_map. symmetry. apply sort_by_perm.
  - apply Forall_firstn. eapply Forall_perm; [apply sort_by_perm|exact Hnn].
Qed.

(** *** Reranking a result *)

Lemma doc_key_boost : forall intent e, doc_key (boost_entry intent e) = doc_key e.
Proof. intros intent [[d m] x]. reflexivity. Qed.

Lemma max0_nonneg : forall v, 0 <= max0 v.
Proof.
  intros v. unfold max0. destruct (qlt 0 v) eqn:E; [|apply Qle_refl].
  apply Qlt_le_weak. apply qlt_true. exact E.
Qed.

Lemma boost_entry_NN : forall vs intent e, NN vs e -> NN vs (boost_entry intent e).
Proof.
  intros vs intent [[d m] x] H Hd. specialize (H Hd). unfold dist_of in *. simpl in *.
  unfold _apply_type_boost.
  destruct (_ && _); [apply max0_nonneg|].
  destruct (_ && _); [apply max0_nonneg|].
  destruct (_ && _); [apply max0_nonneg|exact H].
Qed.

Lemma rerank_unzip3 : forall vs l intent,
  Forall (NN vs) l ->
  exists l', _rerank_with_intent (documents (unzip3 l)) (metadatas (unzip3 l)) (distances (unzip3 l)) intent 5
             = unzip3 l'
    /\ Sorted (key_le dist_of) l' /\ (NoDup (map doc_key l) -> NoDup (map doc_key l')) /\ Forall (NN vs) l'.
Proof.
  intros vs l intent Hnn. destruct l as [|e l0].
  - exists []. split; [reflexivity|]. split; [constructor|]. split; [intros; constructor|constructor].
  - exists (firstn 5 (sort_by dist_of (map (boost_entry intent) (e :: l0)))). split; [|split; [|split]].
    + assert (Hd : documents (unzip3 (e :: l0)) = fst (fst e) :: documents (unzip3 l0)) by reflexivity.
      unfold _rerank_with_intent. rewrite Hd. rewrite <- Hd.
      change (zip3 (documents (unzip3 (e :: l0))) (metadatas (unzip3 (e :: l0)))
                   (distances (unzip3 (e :: l0)))) with (entries (unzip3 (e :: l0))).
      rewrite entries_unzip3. reflexivity.
    + apply sorted_firstn, sort_by_sorted.
    + intros Hnd. rewrite <- firstn_map. apply NoDup_firstn'.
      eapply Permutation_NoDup; [symmetry; apply Permutation_map, sort_by_perm|].
      rewrite map_map. erewrite map_ext; [exact Hnd|]. apply doc_key_boost.
    + apply Forall_firstn. eapply Forall_perm; [apply sort_by_perm|].
      apply Forall_map. eapply Forall_impl'; [|exact Hnn]. apply boost_entry_NN.
Qed.

(** *** Location augmentation *)

Definition pfx (e : Entry) : str := firstn 100 (fst (fst e)).

Definition is_loc (e : Entry) : Prop := meta_get (snd (fst e)) (u "type") = Some (u "location").

(** The augmentation state over the reranked result [l0]: [seen] holds the
    prefixes of the entries, the appended part is made of distinct location
    entries new with respect to [l0], and every key of [K] has been seen. *)
Definition AInv (vs : VStore) (l0 : list Entry) (K : list str) (st : list str * list Entry) : Prop :=
  (forall k, In k (fst st) <-> In k (map pfx (snd st)))
  /\ (forall k, In k K -> In k (fst st))
  /\ exists app, snd st = l0 ++ app /\ NoDup (map pfx app)
                /\ (forall e, In e app -> ~ In (pfx e) (map pfx l0))
                /\ Forall is_loc app /\ Forall (NN vs) app.

Lemma existsb_str_in : forall k l, existsb (str_eqb k) l = false -> ~ In k l.
Proof.
  intros k l H Hin. assert (existsb (str_eqb k) l = true); [|congruence].
  apply existsb_exists. exists k. split; [exact Hin|apply str_eqb_refl].
Qed.

Lemma existsb_str_true : forall k l, existsb (str_eqb k) l = true -> In k l.
Proof.
  intros k l H. apply existsb_exists in H. destruct H as (x & Hx & Heq).
  apply str_eqb_eq in Heq. subst. exact Hx.
Qed.

Lemma append_location_inv : forall vs l0 K st e,
  AInv vs l0 K st -> NN vs e -> AInv vs l0 K (append_location st e).
Proof.
  intros vs l0 K [seen acc] [[d m] x] (Hs & HK & app & Hacc & Hnd & Hdis & Hloc & Hnn) He.
  unfold append_location. destruct (meta_get m (u "type")) as [t|] eqn:Et;
    [|split; [|split]; [exact Hs|exact HK|exists app; auto]].
  destruct (str_eqb t (u "location")) eqn:Etl;
    [|split; [|split]; [exact Hs|exact HK|exists app; auto]].
  destruct (existsb (str_eqb (firstn 100 d)) seen) eqn:Ex;
    [split; [|split]; [exact Hs|exact HK|exists app; auto]|].
  apply existsb_str_in in Ex. simpl in Hs, HK, Hacc. subst acc.
  assert (Hnot : ~ In (firstn 100 d) (map pfx (l0 ++ app))) by (intro Hin; apply Ex, Hs; exact Hin).
  rewrite map_app in Hnot. split; [|split].
  - intros k. simpl. rewrite (Hs k), !map_app, !in_app_iff. simpl. tauto.
  - intros k Hk. right. apply HK. exact Hk.
  - exists (app ++ [(d, m, x)]). simpl. split; [rewrite app_assoc; reflexivity|]. split; [|split; [|split]].
    + rewrite map_app. apply NoDup_app; [exact Hnd|repeat constructor; auto|].
      intros k Hk [<- | []]. apply Hnot. apply in_app_iff. right. exact Hk.
    + intros e0 He0. apply in_app_iff in He0. destruct He0 as [He0 | [<- | []]]; [apply Hdis; exact He0|].
      intro Hin. apply Hnot. apply in_app_iff. left. exact Hin.
    + apply Forall_app. split; [exact Hloc|]. constructor; [|constructor].
      unfold is_loc. simpl. rewrite Et. apply str_eqb_eq in Etl. rewrite Etl. reflexivity.
    + apply Forall_app. split; [exact Hnn|]. constructor; [exact He|constructor].
Qed.

Lemma append_results_inv : forall vs l0 K l st,
  AInv vs l0 K st -> Forall (NN vs) l -> AInv vs l0 K (fold_left append_location l st).
Proof.
  intros vs l0 K l; induction l as [|e l IH]; intros st Hst Hl; simpl; [exact Hst|].
  inversion Hl; subst. apply IH; [apply append_location_inv|]; assumption.
Qed.

Lemma append_location_mono : forall st e k, In k (fst st) -> In k (fst (append_location st e)).
Proof.
  intros [seen acc] [[d m] x] k Hk. unfold append_location.
  destruct (meta_get m (u "type")); [|exact Hk].
  destruct (str_eqb _ _); [|exact Hk].
  destruct (existsb _ _); [exact Hk|right; exact Hk].
Qed.

Lemma append_location_self : forall st e, is_loc e -> In (pfx e) (fst (append_location st e)).
Proof.
  intros [seen acc] [[d m] x] He. unfold is_loc in He. cbn [fst snd] in He.
  unfold append_location, pfx. cbn [fst snd].
  rewrite He, str_eqb_refl. destruct (existsb (str_eqb (firstn 100 d)) seen) eqn:Ex.
  - apply existsb_str_true. exact Ex.
  - left. reflexivity.
Qed.

Lemma append_results_mono : forall l st k, In k (fst st) -> In k (fst (fold_left append_location l st)).
Proof.
  intros l; induction l as [|e l IH]; intros st k Hk; simpl; [exact Hk|].
  apply IH. apply append_location_mono. exact Hk.
Qed.

Lemma append_results_self : forall l st e, In e l -> is_loc e ->
  In (pfx e) (fst (fold_left append_location l st)).
Proof.
  intros l; induction l as [|e0 l IH]; intros st e Hin He; simpl; [destruct Hin|].
  destruct Hin as [<- | Hin].
  - apply append_results_mono. apply append_location_self. exact He.
  - apply IH; assumption.
Qed.

Lemma AInv_weaken : forall vs l0 K st, AInv vs l0 K st -> AInv vs l0 [] st.
Proof. intros vs l0 K st (H1 & _ & H3). split; [exact H1|]. split; [intros k []|exact H3]. Qed.

Lemma AInv_init : forall vs l0,
  AInv vs l0 [] (map (fun d => firstn 100 d) (documents (unzip3 l0)), entries (unzip3 l0)).
Proof.
  intros vs l0. rewrite entries_unzip3. split; [|split].
  - intros k. simpl. rewrite map_map. reflexivity.
  - intros k [].
  - exists []. rewrite app_nil_r. split; [reflexivity|]. split; [constructor|].
    split; [intros e []|]. split; constructor.
Qed.

Lemma triple_try_query_ok : forall (I : list Call -> Prop) vs q n w (P : QRes -> Prop),
  store_raises vs q n (Some w) = false ->
  (forall log, I log -> I (log ++ [(q, n, Some w)])) ->
  (forall r, vs_query vs q n (Some w) = Some r -> P r) -> triple I (try_query vs q n w) P.
Proof.
  intros I vs q n w P Hr HI HP log Hl. unfold try_query, query. simpl.
  destruct (vs_query vs q n (Some w)) as [r|] eqn:E.
  - simpl. split; [apply HI; exact Hl|]. intros x Hx. injection Hx as <-. apply HP. reflexivity.
  - unfold vs_query in E. rewrite Hr in E. discriminate.
Qed.

Lemma query_NN : forall vs q n w r, vs_query vs q n w = Some r -> Forall (NN vs) (entries r).
Proof.
  intros vs q n w r Hr. destruct (vs_query_spec _ _ _ _ _ Hr) as (l & -> & Hl).
  rewrite entries_unzip3. exact (Forall_impl' _ _ _ _ (query_entry_NN _ _ _) Hl).
Qed.

Definition loc_filter (uid : str) : Where := [(u "unit_id", uid); (u "type", u "location")].

Lemma append_step_triple : forall I vs l0 K st uid,
  plain_calls_ok I ->
  (forall log, I log -> I (log ++ [(uid, 2%nat, Some (loc_filter uid))])) ->
  AInv vs l0 K st ->
  triple I (r <- try_query vs uid 2 (loc_filter uid) ;; ret (append_results st r)) (AInv vs l0 K).
Proof.
  intros I vs l0 K st uid Hplain H1 Hst.
  apply triple_bind with (P := fun r => Forall (NN vs) (entries r)).
  - apply triple_try_query; [exact H1|intros; apply Hplain; assumption|apply query_NN|apply query_NN].
  - intros r Hr. apply triple_ret. apply append_results_inv; assumption.
Qed.

Lemma append_names_triple : forall I vs l0 K names st,
  plain_calls_ok I -> AInv vs l0 K st ->
  triple I (mfold (fun st nm => r <- query vs nm 2 None ;; ret (append_results st r)) names st)
    (AInv vs l0 K).
Proof.
  intros I vs l0 K names st Hplain Hst. apply triple_mfold; [|exact Hst].
  intros st' nm _ Hst'. apply triple_bind with (P := fun r => Forall (NN vs) (entries r)).
  - apply triple_query; [intros; apply Hplain; assumption|apply query_NN].
  - intros r Hr. apply triple_ret. apply append_results_inv; assumption.
Qed.

Definition APost (vs : VStore) (l0 : list Entry) (K : list str) (r : QRes) : Prop :=
  exists app, r = unzip3 (l0 ++ app) /\ NoDup (map pfx app)
    /\ (forall e, In e app -> ~ In (pfx e) (map pfx l0))
    /\ Forall is_loc app /\ Forall (NN vs) app
    /\ (forall k, In k K -> In k (map (fun d => firstn 100 d) (documents r))).

Lemma append_final : forall I vs l0 K (ids names : list str) st1,
  plain_calls_ok I -> AInv vs l0 K st1 ->
  triple I (st2 <- (match ids with
                    | [] => mfold (fun st nm => r <- query vs nm 2 None ;; ret (append_results st r))
                                  names st1
                    | _ => ret st1
                    end) ;; ret (unzip3 (snd st2))) (APost vs l0 K).
Proof.
  intros I vs l0 K ids names st1 Hplain Hst1. apply triple_bind with (P := AInv vs l0 K).
  { destruct ids; [apply append_names_triple; assumption|apply triple_ret; exact Hst1]. }
  intros st2 (Hs & HK & app & Happ & Hnd & Hdis & Hloc & Hnn). apply triple_ret.
  exists app. rewrite <- Happ. split; [reflexivity|]. repeat (split; [assumption|]).
  intros k Hk. unfold unzip3; simpl. rewrite map_map. apply Hs, HK, Hk.
Qed.

Lemma append_location_chunks_triple : forall I vs l0 ids names,
  plain_calls_ok I ->
  (forall uid log, In uid ids -> I log -> I (log ++ [(uid, 2%nat, Some (loc_filter uid))])) ->
  triple I (_append_location_chunks vs (unzip3 l0) ids names 2) (APost vs l0 []).
Proof.
  intros I vs l0 ids names Hplain Hids. unfold _append_location_chunks.
  apply triple_bind with (P := AInv vs l0 []).
  - apply triple_mfold; [|apply AInv_init]. intros st uid Huid Hst.
    apply append_step_triple; auto.
  - intros st1 Hst1. apply append_final; assumption.
Qed.

(** *** The two-stage and the single-stage paths *)

Definition filtered_calls_ok (I : list Call -> Prop) (q : str) (ids : list str) : Prop :=
  forall uid log, In uid ids -> I log ->
    I (log ++ [(q, 10%nat, Some [(u "unit_id", uid)])]) /\ I (log ++ [(uid, 2%nat, Some (loc_filter uid))]).

Definition TwoPost (vs : VStore) (K : list str) (r : QRes) : Prop :=
  exists pre app, r = unzip3 (pre ++ app) /\ Sorted (key_le dist_of) pre
    /\ NoDup (map doc_key pre) /\ Forall (NN vs) pre
    /\ NoDup (map pfx app) /\ (forall e, In e app -> ~ In (pfx e) (map pfx pre))
    /\ Forall is_loc app /\ Forall (NN vs) app
    /\ (forall k, In k K -> In k (map (fun d => firstn 100 d) (documents r))).

Lemma two_stage_triple_gen : forall I vs names ids q intent K,
  plain_calls_ok I -> filtered_calls_ok I q ids ->
  (forall l0, triple I (_append_location_chunks vs (unzip3 l0) ids names 2) (APost vs l0 K)) ->
  triple I (s2 <- retrieve_stage2 vs names ids q 10 ;;
            _append_location_chunks vs (_rerank_with_intent (documents s2) (metadatas s2) (distances s2) intent 5)
              ids names 2) (TwoPost vs K).
Proof.
  intros I vs names ids q intent K Hplain Hf Happ.
  apply triple_bind with (P := fun r => exists l, r = unzip3 l /\ NoDup (map doc_key l) /\ Forall (NN vs) l).
  { apply retrieve_stage2_triple; [exact Hplain|]. intros uid log Huid Hl. apply (Hf uid log Huid Hl). }
  intros s2 (l & -> & Hnd & Hnn). destruct (rerank_unzip3 vs l intent Hnn) as (l' & -> & Hs & Hnd' & Hnn').
  eapply triple_conseq; [apply Happ|]. intros r (app & -> & H1 & H2 & H3 & H4 & H5).
  exists l', app. split; [reflexivity|]. split; [exact Hs|]. split; [apply Hnd'; exact Hnd|].
  split; [exact Hnn'|]. exact (conj H1 (conj H2 (conj H3 (conj H4 H5)))).
Qed.

Lemma two_stage_triple : forall I vs names ids q intent,
  plain_calls_ok I -> filtered_calls_ok I q ids ->
  triple I (s2 <- retrieve_stage2 vs names ids q 10 ;;
            _append_location_chunks vs (_rerank_with_intent (documents s2) (metadatas s2) (distances s2) intent 5)
              ids names 2) (TwoPost vs []).
Proof.
  intros I vs names ids q intent Hplain Hf. apply two_stage_triple_gen; [exact Hplain|exact Hf|].
  intros l0. apply append_location_chunks_triple; [exact Hplain|].
  intros uid log Huid Hl. apply (Hf uid log Huid Hl).
Qed.

Lemma priority_triple : forall I vs q intent,
  plain_calls_ok I ->
  triple I (retrieve_with_priority vs q intent)
    (fun r => exists pre, r = unzip3 pre /\ Sorted (key_le dist_of) pre /\ Forall (NN vs) pre).
Proof.
  intros I vs q intent Hplain. unfold retrieve_with_priority.
  eapply triple_bind; [apply triple_query; [intros; apply Hplain; assumption|apply vs_query_spec]|].
  intros r (l & -> & Hl). apply triple_ret.
  assert (Hnn : Forall (NN vs) l) by exact (Forall_impl' _ _ _ _ (query_entry_NN _ _ _) Hl).
  destruct (rerank_unzip3 vs l intent Hnn) as (l' & -> & Hs & _ & Hnn'). exists l'. auto.
Qed.

(** The run of [retrieve] that goes through [retrieve_with_priority]:
    two-stage retrieval is off, or Stage 1 names no unit. *)
Definition single_stage (vs : VStore) (q : str) (ts : bool) : Prop :=
  ts = false \/ exists s1, vs_query vs q 5 None = Some s1
                            /\ stage1_unit_names s1 = [] /\ stage1_unit_ids s1 = [].

Definition RPost (vs : VStore) (q : str) (ts : bool) (r : QRes) : Prop :=
  exists pre app, r = unzip3 (pre ++ app) /\ Sorted (key_le dist_of) pre
    /\ Forall (NN vs) (pre ++ app) /\ Forall is_loc app /\ (single_stage vs q ts -> app = []).

Lemma retrieve_triple : forall I vs ord q ts,
  plain_calls_ok I ->
  (forall s1, vs_query vs q 5 None = Some s1 -> filtered_calls_ok I q (ord (stage1_unit_ids s1))) ->
  triple I (retrieve vs ord q ts) (RPost vs q ts).
Proof.
  intros I vs ord q ts Hplain Hf.
  assert (Hpr : triple I (retrieve_with_priority vs q (_get_query_intent q)) (RPost vs q ts)).
  { eapply triple_conseq; [apply priority_triple, Hplain|]. intros r (pre & -> & Hs & Hnn).
    exists pre, []. rewrite app_nil_r. split; [reflexivity|]. split; [exact Hs|].
    split; [exact Hnn|]. split; [constructor|intros _; reflexivity]. }
  unfold retrieve. destruct ts; simpl negb; cbv iota; [|exact Hpr].
  eapply triple_bind; [apply triple_query with (P := fun s1 => vs_query vs q 5 None = Some s1);
                       [intros; apply Hplain; assumption|auto]|].
  intros s1 Hs1.
  assert (H2 : (stage1_unit_names s1 = [] -> stage1_unit_ids s1 = [] -> False) ->
            triple I (s2 <- retrieve_stage2 vs (ord (stage1_unit_names s1)) (ord (stage1_unit_ids s1)) q 10 ;;
            _append_location_chunks vs (_rerank_with_intent (documents s2) (metadatas s2) (distances s2)
              (_get_query_intent q) 5) (ord (stage1_unit_ids s1)) (ord (stage1_unit_names s1)) 2) (RPost vs q true)).
  { intros Hne. eapply triple_conseq; [apply two_stage_triple; [exact Hplain|apply Hf, Hs1]|].
    intros r (pre & app & -> & Hs & _ & Hnn & _ & _ & Hloc & Hnn' & _).
    exists pre, app. split; [reflexivity|]. split; [exact Hs|].
    split; [apply Forall_app; auto|]. split; [exact Hloc|].
    intros [Ht|(s1' & Hs1' & Hn & Hi)]; [discriminate|].
    rewrite Hs1 in Hs1'. injection Hs1' as <-. destruct (Hne Hn Hi). }
  destruct (stage1_unit_names s1) as [|a l] eqn:En, (stage1_unit_ids s1) as [|b l'] eqn:Ei;
    [exact Hpr| | |]; apply H2; intros Hx Hy; discriminate.
Qed.

Lemma triple_run : forall A I (m : M A) P log x, triple I m P -> I log -> snd (m log) = Some x -> P x.
Proof. intros A I m P log x Hm Hl Hx. exact (proj2 (Hm log Hl) x Hx). Qed.

Lemma true_calls_ok : plain_calls_ok (fun _ => True).
Proof. unfold plain_calls_ok. intros; exact I. Qed.

Lemma true_filtered_ok : forall q ids, filtered_calls_ok (fun _ => True) q ids.
Proof. unfold filtered_calls_ok. intros; split; exact I. Qed.

(** A run of [retrieve] on the two-stage path once the Stage-1 result is
    known and names a unit. *)
Lemma retrieve_two_stage_run : forall vs ord q s1 log r,
  vs_query vs q 5 None = Some s1 ->
  (stage1_unit_names s1 <> [] \/ stage1_unit_ids s1 <> []) ->
  snd (retrieve vs ord q true log) = Some r ->
  snd ((s2 <- retrieve_stage2 vs (ord (stage1_unit_names s1)) (ord (stage1_unit_ids s1)) q 10 ;;
        _append_location_chunks vs (_rerank_with_intent (documents s2) (metadatas s2) (distances s2)
          (_get_query_intent q) 5) (ord (stage1_unit_ids s1)) (ord (stage1_unit_names s1)) 2)
       (log ++ [(q, 5%nat, None)])) = Some r.
Proof.
  intros vs ord q s1 log r Hs1 Hne H. unfold retrieve in H. simpl negb in H. cbv iota in H.
  unfold bind at 1, query at 1 in H. rewrite Hs1 in H.
  destruct (stage1_unit_names s1), (stage1_unit_ids s1); [destruct Hne as [[]|[]]; reflexivity| | |];
    exact H.
Qed.

(** *** Unit resolution *)

Lemma set_of_fold : forall l acc v,
  In v (fold_left (fun acc x => if existsb (str_eqb x) acc then acc else acc ++ [x]) l acc) ->
  In v acc \/ In v l.
Proof.
  intros l; induction l as [|x l IH]; intros acc v H; simpl in H; [left; exact H|].
  destruct (IH _ _ H) as [H1|H1]; [|right; right; exact H1].
  destruct (existsb (str_eqb x) acc); [left; exact H1|].
  apply in_app_iff in H1. destruct H1 as [H1|[<-|[]]]; [left; exact H1|right; left; reflexivity].
Qed.

Lemma set_of_in : forall l v, In v (set_of l) -> In v l.
Proof. intros l v H. destruct (set_of_fold l [] v H) as [[]|H1]. exact H1. Qed.

Lemma contains_nl : forall v, contains v [nl] = false -> ~ In nl v.
Proof.
  intros v; induction v as [|a v IH]; [intros _ []|].
  intros H. assert (Hc : contains (a :: v) [nl] = (Z.eqb nl a && true) || contains v [nl])
    by (destruct v; reflexivity).
  rewrite Hc in H. apply orb_false_iff in H. destruct H as [H1 H2].
  rewrite andb_true_r in H1. apply Z.eqb_neq in H1. intros [Ha|Hin]; [congruence|exact (IH H2 Hin)].
Qed.

Lemma stage1_unit_ids_valid : forall s1 v, In v (stage1_unit_ids s1) ->
  (List.length v < 50)%nat /\ ~ In nl v.
Proof.
  intros s1 v H. apply set_of_in in H. apply in_flat_map in H. destruct H as (m & _ & Hv).
  unfold valid_unit_id in Hv. destruct (meta_get m (u "unit_id")) as [w|]; [|destruct Hv].
  destruct (negb (Nat.eqb (List.length w) 0) && (List.length w <? 50)%nat && negb (contains w [nl])) eqn:E;
    [|destruct Hv].
  destruct Hv as [<-|[]]. apply andb_prop in E. destruct E as [E E3]. apply andb_prop in E.
  destruct E as [_ E2]. apply Nat.ltb_lt in E2. apply negb_true_iff in E3. split; [exact E2|].
  apply contains_nl. exact E3.
Qed.

(** A query of the log whose [where] filter gives [unit_id] only values of
    fewer than 50 characters without a ['\n']. *)
Definition good_call (c : Call) : Prop :=
  match c with
  | (_, _, Some w) => forall v, In (u "unit_id", v) w -> (List.length v < 50)%nat /\ ~ In nl v
  | (_, _, None) => True
  end.

Lemma good_plain : plain_calls_ok (Forall good_call).
Proof. intros q n log H. apply Forall_app. split; [exact H|]. constructor; [exact I|constructor]. Qed.

(** *** Location chunks of a unit *)

Lemma matches_loc_filter : forall uid m, matches (Some (loc_filter uid)) m = true ->
  meta_get m (u "unit_id") = Some uid /\ meta_get m (u "type") = Some (u "location").
Proof.
  intros uid m H. unfold matches, loc_filter in H. simpl in H.
  destruct (meta_get m (u "unit_id")) as [a|]; [|discriminate].
  destruct (meta_get m (u "type")) as [b|]; [|rewrite andb_false_r in H; discriminate].
  rewrite andb_true_r in H. apply andb_prop in H. destruct H as [H1 H2].
  apply str_eqb_eq in H1, H2. subst. split; reflexivity.
Qed.

Lemma loc_filter_matches : forall uid m,
  meta_get m (u "unit_id") = Some uid -> meta_get m (u "type") = Some (u "location") ->
  matches (Some (loc_filter uid)) m = true.
Proof.
  intros uid m H1 H2. unfold matches, loc_filter. simpl. rewrite H1, H2, !str_eqb_refl. reflexivity.
Qed.

Lemma vs_query_nonempty : forall vs q n w c r, (0 < n)%nat ->
  In c (store_chunks vs) -> matches w (metadata c) = true -> vs_query vs q n w = Some r ->
  entries r <> [].
Proof.
  intros vs q n w c r Hn Hc Hm H. unfold vs_query in H.
  destruct (store_raises vs q n w); [discriminate|]. injection H as <-. rewrite entries_unzip3.
  destruct n as [|n]; [lia|].
  destruct (sort_by dist_of (map (fun c => (text c, metadata c, store_distance vs q (text c)))
                       (filter (fun c => matches w (metadata c)) (store_chunks vs)))) eqn:E;
    [|discriminate].
  exfalso. pose proof (sort_by_perm dist_of (map (fun c => (text c, metadata c, store_distance vs q (text c)))
                       (filter (fun c => matches w (metadata c)) (store_chunks vs)))) as Hp.
  rewrite E in Hp. apply Permutation_nil in Hp. apply map_eq_nil in Hp.
  assert (In c (filter (fun c => matches w (metadata c)) (store_chunks vs))) by (apply filter_In; auto).
  rewrite Hp in H. exact H.
Qed.

Lemma append_cover_triple : forall I vs l0 ids names uid e,
  plain_calls_ok I ->
  (forall uid' log, In uid' ids -> I log -> I (log ++ [(uid', 2%nat, Some (loc_filter uid'))])) ->
  In uid ids -> store_raises vs uid 2 (Some (loc_filter uid)) = false ->
  (forall r, vs_query vs uid 2 (Some (loc_filter uid)) = Some r -> In e (entries r)) -> is_loc e ->
  triple I (_append_location_chunks vs (unzip3 l0) ids names 2) (APost vs l0 [pfx e]).
Proof.
  intros I vs l0 ids names uid e Hplain Hids Hin Hr He Hloc.
  destruct (in_split _ _ Hin) as (l1 & l2 & Heq). unfold _append_location_chunks.
  apply triple_bind with (P := AInv vs l0 [pfx e]); [|intros st1 Hst1; apply append_final; assumption].
  rewrite Heq. apply triple_mfold_app with (P := AInv vs l0 []).
  { apply triple_mfold; [|apply AInv_init]. intros st uid' Huid' Hst. apply append_step_triple; auto.
    intros log Hl. apply Hids; [rewrite Heq; apply in_app_iff; left; exact Huid'|exact Hl]. }
  intros b Hb. simpl mfold.
  apply triple_bind with (P := AInv vs l0 [pfx e]).
  - apply triple_bind with (P := fun r => Forall (NN vs) (entries r) /\ In e (entries r)).
    + apply triple_try_query_ok; [exact Hr| |].
      * intros log Hl. apply Hids; [exact Hin|exact Hl].
      * intros r0 Hr0. split; [apply (query_NN _ _ _ _ _ Hr0)|apply He, Hr0].
    + intros r0 [Hnn Hine]. apply triple_ret.
      destruct (append_results_inv vs l0 [] (entries r0) b Hb Hnn) as (H1 & _ & H3).
      split; [exact H1|]. split; [|exact H3].
      intros k [<-|[]]. apply append_results_self; assumption.
  - intros b' Hb'. apply triple_mfold; [|exact Hb']. intros st uid' Huid' Hst.
    apply triple_bind with (P := fun r => Forall (NN vs) (entries r)).
    + apply triple_try_query; [|intros; apply Hplain; assumption|apply query_NN|apply query_NN].
      intros log Hl. apply Hids; [rewrite Heq; apply in_app_iff; right; right; exact Huid'|exact Hl].
    + intros r0 Hnn. apply triple_ret. destruct Hst as (H1 & HK & H3).
      destruct (append_results_inv vs l0 [] (entries r0) st (conj H1 (conj (fun k (h : In k []) => match h with end) H3)) Hnn)
        as (G1 & _ & G3).
      split; [exact G1|]. split; [|exact G3].
      intros k Hk. apply append_results_mono. apply HK, Hk.
Qed.

(** *** Fingerprints *)



(** *** Concrete stores *)

Definition unit_u_general (t : str) : Chunk := mkChunk t [(u "unit_id", u "u")].

Definition unit_u_location : Chunk := mkChunk (u "L") [(u "unit_id", u "u"); (u "type", u "location")].

(** Five general chunks of unit ["u"] and one location chunk of it, which
    is near the query ["u"] and far from the others. *)
Definition order_store : VStore :=
  mkStore [unit_u_general (u "g1"); unit_u_general (u "g2"); unit_u_general (u "g3");
           unit_u_general (u "g4"); unit_u_general (u "g5"); unit_u_location]
          (fun q d => if str_eqb d (u "L") then (if str_eqb q (u "u") then 1#10 else 9#10) else 1#2)
          (fun _ _ _ => false).


(** A general chunk and a location chunk of unit ["u"] with the same text. *)
Definition shadow_store : VStore :=
  mkStore [mkChunk (u "T") [(u "unit_id", u "u")];
           mkChunk (u "T") [(u "unit_id", u "u"); (u "type", u "location")]]
          (fun _ _ => 1#2) (fun _ _ _ => false).

(** A unit id holding a carriage return: ["a\rb"]. *)
Definition cr_unit_id : str := [97; 13; 98]%Z.

Definition cr_store : VStore :=
  mkStore [mkChunk (u "t") [(u "unit_id", cr_unit_id)]] (fun _ _ => 0) (fun _ _ _ => false).

(** ** Claims *)

(** Claim C2, counterexample.  The store holds a location chunk of unit
    ["u"], and the query ["x"] resolves that unit on the two-stage path.
    Stage 2 keeps only the general chunk, because both chunks have the same
    (url, title, text) key.  The augmentation then skips the location chunk,
    because its first 100 characters are already present.  The result has
    no chunk of type ["location"]. *)
Lemma location_chunk_shadowed_by_same_text :
  exists s1 r, vs_query shadow_store (u "x") 5 None = Some s1
    /\ stage1_unit_ids s1 = [u "u"]
    /\ snd (retrieve shadow_store (fun l => l) (u "x") true []) = Some r
    /\ map (fun m => meta_get m (u "type")) (metadatas r) = [None].
Proof. eexists; eexists; split; [vm_compute; reflexivity|]. split; [vm_compute; reflexivity|].
  split; [vm_compute; reflexivity|]. vm_compute. reflexivity. Qed.

(** Claim C2, amended.  Take a two-stage run whose Stage-1 result resolves
    the unit id [uid], on a store with a location chunk of [uid] whose
    filtered location query does not raise.  Then the result contains a
    document that has the same first 100 characters as a location chunk of
    [uid]. *)
Theorem location_coverage_by_prefix : forall vs ord q s1 uid r,
  (forall l, Permutation (ord l) l) ->
  vs_query vs q 5 None = Some s1 -> In uid (stage1_unit_ids s1) ->
  (exists c, In c (store_chunks vs) /\ meta_get (metadata c) (u "unit_id") = Some uid
             /\ meta_get (metadata c) (u "type") = Some (u "location")) ->
  store_raises vs uid 2 (Some (loc_filter uid)) = false ->
  snd (retrieve vs ord q true []) = Some r ->
  exists c, In c (store_chunks vs) /\ meta_get (metadata c) (u "unit_id") = Some uid
    /\ meta_get (metadata c) (u "type") = Some (u "location")
    /\ In (firstn 100 (text c)) (map (fun d => firstn 100 d) (documents r)).
Proof.
  intros vs ord q s1 uid r Hord Hs1 Huid (c & Hc & Hcu & Hct) Hraise Hr.
  assert (Hne : stage1_unit_names s1 <> [] \/ stage1_unit_ids s1 <> [])
    by (right; intro E; rewrite E in Huid; destruct Huid).
  pose proof (retrieve_two_stage_run _ _ _ _ _ _ Hs1 Hne Hr) as Hrun.
  destruct (vs_query vs uid 2 (Some (loc_filter uid))) as [ru|] eqn:Eu;
    [|unfold vs_query in Eu; rewrite Hraise in Eu; discriminate].
  destruct (entries ru) as [|e rest] eqn:Ee.
  { exfalso. refine (vs_query_nonempty _ _ _ _ _ _ _ Hc (loc_filter_matches _ _ Hcu Hct) Eu Ee). lia. }
  destruct (vs_query_spec _ _ _ _ _ Eu) as (l & Hru & Hl).
  rewrite Hru, entries_unzip3 in Ee. subst l. inversion Hl as [|e0 rest0 He _]; subst.
  destruct He as (c' & Hc' & Hm & ->). destruct (matches_loc_filter _ _ Hm) as [Hu' Ht'].
  assert (Hin : In uid (ord (stage1_unit_ids s1))) by (apply (Permutation_in _ (Permutation_sym (Hord _))); exact Huid).
  pose proof (two_stage_triple_gen (fun _ => True) vs (ord (stage1_unit_names s1)) (ord (stage1_unit_ids s1))
                q (_get_query_intent q) [pfx (text c', metadata c', store_distance vs uid (text c'))]
                true_calls_ok (true_filtered_ok _ _)) as T.
  assert (Happ : forall l0, triple (fun _ => True)
            (_append_location_chunks vs (unzip3 l0) (ord (stage1_unit_ids s1)) (ord (stage1_unit_names s1)) 2)
            (APost vs l0 [pfx (text c', metadata c', store_distance vs uid (text c'))])).
  { intros l0. apply append_cover_triple with (uid := uid); [exact true_calls_ok|intros; exact I|exact Hin|exact Hraise| |].
    - intros r0 Hr0. rewrite Eu in Hr0. injection Hr0 as <-. rewrite entries_unzip3. left. reflexivity.
    - unfold is_loc. exact Ht'. }
  destruct (triple_run _ _ _ _ _ r (T Happ) I Hrun) as (pre & app & _ & _ & _ & _ & _ & _ & _ & _ & HK).
  exists c'. split; [exact Hc'|]. split; [exact Hu'|]. split; [exact Ht'|].
  apply HK. left. reflexivity.
Qed.

Lemma location_coverage_by_prefix_witness :
  exists s1 r, vs_query order_store (u "x") 5 None = Some s1
    /\ snd (retrieve order_store (fun l => l) (u "x") true []) = Some r
    /\ exists c, In c (store_chunks order_store) /\ meta_get (metadata c) (u "unit_id") = Some (u "u")
         /\ meta_get (metadata c) (u "type") = Some (u "location")
         /\ In (firstn 100 (text c)) (map (fun d => firstn 100 d) (documents r)).
Proof.
  eexists; eexists. split; [vm_compute; reflexivity|]. split; [vm_compute; reflexivity|].
  eapply (location_coverage_by_prefix order_store (fun l => l) (u "x") _ (u "u")).
  - intros l. apply Permutation_refl.
  - vm_compute. reflexivity.
  - vm_compute. left. reflexivity.
  - exists unit_u_location. split; [vm_compute; tauto|]. split; vm_compute; reflexivity.
  - vm_compute. reflexivity.
  - vm_compute. reflexivity.
Defined.




(** Claim C4, counterexample.  On the two-stage path the appended location
    chunk (distance 1/10) follows five reranked chunks at distance 1/2:
    the returned distances are not ascending. *)
Lemma appended_location_breaks_order :
  exists r, snd (retrieve order_store (fun l => l) (u "x") true []) = Some r
    /\ distances r = [1#2; 1#2; 1#2; 1#2; 1#2; 1#10] /\ 1#10 < 1#2.
Proof.
  eexists. split; [vm_compute; reflexivity|]. split; [vm_compute; reflexivity|].
  unfold Qlt. simpl. lia.
Qed.

(** Claim C4, amended.  A result returned by [retrieve] has three parallel
    sequences of equal length.  Its distances are non-negative when all
    store distances are.  The entries are a reranked part, sorted ascending
    by distance, followed by appended location entries (type
    ["location"]), in no particular order.  The single-stage path (two-stage
    retrieval off, or a Stage-1 result that names no unit, which falls back
    to [retrieve_with_priority]) appends nothing. *)
Theorem retrieve_result_shape : forall vs ord q ts r,
  snd (retrieve vs ord q ts []) = Some r ->
  List.length (documents r) = List.length (metadatas r)
  /\ List.length (metadatas r) = List.length (distances r)
  /\ ((forall q' d, 0 <= store_distance vs q' d) -> Forall (fun x => 0 <= x) (distances r))
  /\ exists pre app, entries r = pre ++ app /\ Sorted (key_le dist_of) pre
       /\ Forall is_loc app
       /\ ((ts = false \/ exists s1, vs_query vs q 5 None = Some s1
                            /\ stage1_unit_names s1 = [] /\ stage1_unit_ids s1 = []) -> app = []).
Proof.
  intros vs ord q ts r Hr.
  pose proof (retrieve_triple (fun _ => True) vs ord q ts true_calls_ok
                (fun s1 _ => true_filtered_ok q _)) as T.
  destruct (triple_run _ _ _ _ _ r T I Hr) as (pre & app & -> & Hs & Hnn & Hloc & Hts).
  split; [unfold unzip3; simpl; rewrite !length_map; reflexivity|].
  split; [unfold unzip3; simpl; rewrite !length_map; reflexivity|].
  split.
  - intros Hd. unfold unzip3; simpl. apply Forall_map.
    eapply Forall_impl'; [|exact Hnn]. intros e He. exact (He Hd).
  - exists pre, app. rewrite entries_unzip3. auto.
Qed.

Lemma retrieve_result_shape_witness :
  exists r, snd (retrieve order_store (fun l => l) (u "x") true []) = Some r
    /\ List.length (documents r) = List.length (metadatas r)
    /\ List.length (metadatas r) = List.length (distances r)
    /\ ((forall q' d, 0 <= store_distance order_store q' d) -> Forall (fun x => 0 <= x) (distances r))
    /\ exists pre app, entries r = pre ++ app /\ Sorted (key_le dist_of) pre
         /\ Forall is_loc app
         /\ ((true = false \/ exists s1, vs_query order_store (u "x") 5 None = Some s1
                              /\ stage1_unit_names s1 = [] /\ stage1_unit_ids s1 = []) -> app = []).
Proof.
  eexists. split; [vm_compute; reflexivity|].
  apply (retrieve_result_shape order_store (fun l => l) (u "x") true). vm_compute. reflexivity.
Defined.

(** Claim C9, counterexample.  The guard drops only unit ids holding
    ['\n']: the id ["a\rb"], which holds another line-break character, is
    used in the Stage-2 filtered query. *)
Lemma cr_unit_id_reaches_filter :
  In (u "x", 10%nat, Some [(u "unit_id", cr_unit_id)]) (fst (retrieve cr_store (fun l => l) (u "x") true [])).
Proof. vm_compute. right. left. reflexivity. Qed.

(** Claim C9, amended.  Whatever the iteration order of the unit sets, every
    query issued by [retrieve] whose [where] filter gives a [unit_id] value
    uses a value of fewer than 50 characters without ['\n'].  A longer
    value, or one holding ['\n'], read from Stage-1 metadata never reaches
    a filter. *)
Theorem retrieve_filters_valid_ids : forall vs ord q ts,
  (forall l, Permutation (ord l) l) ->
  Forall good_call (fst (retrieve vs ord q ts [])).
Proof.
  intros vs ord q ts Hord.
  assert (Hf : forall s1, vs_query vs q 5 None = Some s1 ->
                 filtered_calls_ok (Forall good_call) q (ord (stage1_unit_ids s1))).
  { intros s1 _ uid log Huid Hl.
    assert (Hv : (List.length uid < 50)%nat /\ ~ In nl uid)
      by (apply (stage1_unit_ids_valid s1), (Permutation_in _ (Hord _)), Huid).
    split; apply Forall_app; (split; [exact Hl|]); (apply Forall_cons; [|apply Forall_nil]);
      simpl; intros v Hin.
    - destruct Hin as [Heq|[]]. injection Heq as <-. exact Hv.
    - unfold loc_filter in Hin. destruct Hin as [Heq|[Heq|[]]].
      + injection Heq as <-. exact Hv.
      + exfalso. injection Heq as Hk _. vm_compute in Hk. discriminate Hk. }
  exact (proj1 (retrieve_triple (Forall good_call) vs ord q ts good_plain Hf [] (Forall_nil _))).
Qed.

Lemma retrieve_filters_valid_ids_witness :
  Forall good_call (fst (retrieve cr_store (fun l => l) (u "x") true [])).
Proof. apply retrieve_filters_valid_ids. intros l. apply Permutation_refl. Defined.

End EngineFacts.

(** ** Facts about the remaining steps of [DataProcessor] and [EnhancedRAGEngine] *)

Module ProcessorFacts.
Import TextCleaner Extractor Normalize Chunks Engine Processor ExtractorFacts NormalizeFacts SortFacts RerankFacts EngineFacts.
Open Scope Z_scope.
Lemma startswith_nil : forall s, startswith s [] = true.
Proof. intros [|c s]; reflexivity. Qed.

Lemma startswith_app : forall s p t, startswith s p = true -> startswith (s ++ t) p = true.
Proof.
  intros s p; revert s; induction p as [|c p IH]; intros [|d s] t H; cbn [startswith app] in *;
    try reflexivity; try discriminate; try apply startswith_nil.
  apply andb_prop in H. destruct H as [H1 H2]. rewrite H1. simpl. apply IH. exact H2.
Qed.

Lemma startswith_spec : forall s p, startswith s p = true <-> exists r, s = p ++ r.
Proof.
  intros s p; revert s; induction p as [|c p IH]; intros [|d s]; simpl.
  - split; [exists []; reflexivity | reflexivity].
  - split; [exists (d :: s); reflexivity | reflexivity].
  - split; [discriminate | intros [r Hr]; discriminate].
  - rewrite andb_true_iff, IH, Z.eqb_eq. split.
    + intros [-> [r ->]]. exists r. reflexivity.
    + intros [r Hr]. injection Hr as -> ->. split; [reflexivity | exists r; reflexivity].
Qed.

Lemma contains_spec : forall s p, contains s p = true <-> exists a b, s = a ++ p ++ b.
Proof.
  intros s p; induction s as [|c s IH].
  - change (contains [] p) with (startswith [] p || false). rewrite orb_false_r, startswith_spec. split.
    + intros [r Hr]. exists [], r. exact Hr.
    + intros (a & b & H). destruct a; [exists b; exact H | discriminate].
  - cbn [contains]. rewrite orb_true_iff, startswith_spec, IH. split.
    + intros [[r Hr] | (a & b & ->)]; [exists [], r; exact Hr | exists (c :: a), b; reflexivity].
    + intros ([|x a] & b & H); [left; exists b; exact H|].
      injection H as -> ->. right. exists a, b. reflexivity.
Qed.

Lemma contains_infix : forall a p b, contains (a ++ p ++ b) p = true.
Proof. intros a p b. apply contains_spec. exists a, b. reflexivity. Qed.

Lemma contains_app_l : forall a s p, contains s p = true -> contains (a ++ s) p = true.
Proof.
  intros a s p H. apply contains_spec in H. destruct H as (x & y & ->).
  apply contains_spec. exists (a ++ x), y. rewrite app_assoc. reflexivity.
Qed.

Lemma contains_app_r : forall s t p, contains s p = true -> contains (s ++ t) p = true.
Proof.
  intros s t p H. apply contains_spec in H. destruct H as (x & y & ->).
  apply contains_spec. exists x, (y ++ t). rewrite <- !app_assoc. reflexivity.
Qed.

Lemma contains_mid : forall a s b p, contains s p = true -> contains (a ++ s ++ b) p = true.
Proof. intros a s b p H. apply contains_app_l, contains_app_r, H. Qed.

Lemma contains_trans : forall s t p, contains s t = true -> contains t p = true -> contains s p = true.
Proof.
  intros s t p H1 H2. apply contains_spec in H1. destruct H1 as (a & b & ->).
  apply contains_mid. exact H2.
Qed.

Lemma contains_nil_r : forall p, p <> [] -> contains [] p = false.
Proof. intros [|c p] H; [congruence | reflexivity]. Qed.

Lemma contains_in : forall s x, contains s [x] = true <-> In x s.
Proof.
  intros s x. rewrite contains_spec. split.
  - intros (a & b & ->). apply in_app_iff. right. left. reflexivity.
  - intros H. apply in_split in H. destruct H as (a & b & ->). exists a, b. reflexivity.
Qed.

(** *** [drop_while] and [strip] *)

Lemma drop_while_split : forall p s, exists w, s = w ++ drop_while p s /\ Forall (fun c => p c = true) w.
Proof.
  intros p s; induction s as [|c s IH]; simpl.
  - exists []. split; [reflexivity | constructor].
  - destruct (p c) eqn:E.
    + destruct IH as (w & Hw & Hf). exists (c :: w). split; [simpl; congruence | constructor; auto].
    + exists []. split; [reflexivity | constructor].
Qed.

Definition hd_not (p : Z -> bool) (s : str) : Prop :=
  match s with [] => True | c :: _ => p c = false end.

Lemma drop_while_hd : forall p s, hd_not p (drop_while p s).
Proof.
  intros p s; induction s as [|c s IH]; simpl; [exact I|].
  destruct (p c) eqn:E; [exact IH | exact E].
Qed.

Lemma drop_while_id : forall p s, hd_not p s -> drop_while p s = s.
Proof. intros p [|c s] H; simpl in *; [reflexivity | rewrite H; reflexivity]. Qed.

Lemma drop_while_idem : forall p s, drop_while p (drop_while p s) = drop_while p s.
Proof. intros p s. apply drop_while_id, drop_while_hd. Qed.

Lemma drop_while_app_all : forall p w s, Forall (fun c => p c = true) w ->
  drop_while p (w ++ s) = drop_while p s.
Proof. intros p w s H. induction H as [|c w Hc _ IH]; simpl; [reflexivity | rewrite Hc; exact IH]. Qed.

Lemma drop_while_app : forall p x y, drop_while p (x ++ y) =
  match drop_while p x with [] => drop_while p y | d => d ++ y end.
Proof.
  intros p x y; induction x as [|c x IH]; simpl; [reflexivity|].
  destruct (p c) eqn:E; [exact IH | reflexivity].
Qed.

Definition spaces (w : str) : Prop := Forall (fun c => is_space c = true) w.

Lemma strip_split : forall s, exists w1 w2, s = w1 ++ strip s ++ w2 /\ spaces w1 /\ spaces w2.
Proof.
  intros s. destruct (drop_while_split is_space s) as (w1 & H1 & F1).
  destruct (drop_while_split is_space (rev (drop_while is_space s))) as (w2 & H2 & F2).
  exists w1, (rev w2). split; [|split; [exact F1 | apply Forall_rev, F2]].
  unfold strip. rewrite H1 at 1. f_equal. set (D := drop_while is_space s) in *.
  rewrite <- (rev_involutive D) at 1. rewrite H2 at 1. rewrite rev_app_distr. reflexivity.
Qed.

Lemma strip_cons_space : forall c s, is_space c = true -> strip (c :: s) = strip s.
Proof. intros c s H. unfold strip. simpl. rewrite H. reflexivity. Qed.

Lemma strip_app_spaces : forall s w, spaces w -> strip (s ++ w) = strip s.
Proof.
  intros s w Hw. unfold strip. rewrite drop_while_app.
  destruct (drop_while is_space s) as [|d ds] eqn:E.
  - assert (drop_while is_space w = []) as ->.
    { rewrite <- (app_nil_r w). rewrite drop_while_app_all by exact Hw. reflexivity. }
    reflexivity.
  - rewrite rev_app_distr, drop_while_app_all by (apply Forall_rev, Hw). reflexivity.
Qed.

Lemma strip_snoc_space : forall s c, is_space c = true -> strip (s ++ [c]) = strip s.
Proof. intros s c H. apply strip_app_spaces. constructor; [exact H | constructor]. Qed.

Lemma strip_idem : forall s, strip (strip s) = strip s.
Proof.
  intros s. destruct (strip_split s) as (w1 & w2 & Hs & F1 & F2).
  assert (Hh : hd_not is_space (strip s)).
  { unfold strip. set (D := drop_while is_space s).
    destruct (drop_while_split is_space (rev D)) as (w & Hw & _).
    assert (HD : D = rev (drop_while is_space (rev D)) ++ rev w).
    { rewrite <- (rev_involutive D) at 1. rewrite Hw at 1. rewrite rev_app_distr. reflexivity. }
    pose proof (drop_while_hd is_space s) as Hd. fold D in Hd. rewrite HD in Hd.
    destruct (rev (drop_while is_space (rev D))) as [|c t]; [exact I | exact Hd]. }
  unfold strip at 1. rewrite (drop_while_id _ _ Hh). unfold strip.
  rewrite rev_involutive, drop_while_idem. reflexivity.
Qed.

Lemma strip_contains : forall s p, contains (strip s) p = true -> contains s p = true.
Proof.
  intros s p H. destruct (strip_split s) as (w1 & w2 & Hs & _ & _). rewrite Hs. apply contains_mid, H.
Qed.

Lemma strip_in : forall s c, In c (strip s) -> In c s.
Proof.
  intros s c H. destruct (strip_split s) as (w1 & w2 & Hs & _ & _). rewrite Hs.
  apply in_app_iff. right. apply in_app_iff. left. exact H.
Qed.

Lemma strip_len : forall s, (List.length (strip s) <= List.length s)%nat.
Proof.
  intros s. destruct (strip_split s) as (w1 & w2 & Hs & _ & _). rewrite Hs at 2.
  rewrite !length_app. lia.
Qed.

(** *** Building detection *)

Lemma existsb_contains : forall text pats,
  existsb (contains text) pats = true <-> exists p, In p pats /\ contains text p = true.
Proof. intros text pats. apply existsb_exists. Qed.

Lemma detect_in_some : forall bps text b, detect_in bps text = Some b <->
  exists pre pats post, bps = pre ++ (b, pats) :: post
    /\ existsb (contains text) pats = true
    /\ Forall (fun bp => existsb (contains text) (snd bp) = false) pre.
Proof.
  intros bps text b; induction bps as [|[b0 pats0] bps IH]; simpl.
  - split; [discriminate|]. intros ([|x pre] & pats & post & H & _); discriminate.
  - destruct (existsb (contains text) pats0) eqn:E. split.
    + intros H. injection H as <-. exists [], pats0, bps. split; [reflexivity|]. split; [exact E|constructor].
    + intros ([|x pre] & pats & post & H & Hp & Hf).
      * injection H as -> -> ->. reflexivity.
      * injection H as <- _. inversion Hf; subst. simpl in *. congruence.
    + rewrite IH. split.
      * intros (pre & pats & post & -> & Hp & Hf). exists ((b0, pats0) :: pre), pats, post.
        split; [reflexivity|]. split; [exact Hp|]. constructor; [exact E|exact Hf].
      * intros ([|x pre] & pats & post & H & Hp & Hf).
        -- injection H as -> -> ->. congruence.
        -- injection H as <- ->. inversion Hf; subst. exists pre, pats, post. auto.
Qed.

Lemma detect_in_none : forall bps text, detect_in bps text = None <->
  Forall (fun bp => existsb (contains text) (snd bp) = false) bps.
Proof.
  intros bps text; induction bps as [|[b0 pats0] bps IH]; simpl.
  - split; [constructor|reflexivity].
  - destruct (existsb (contains text) pats0) eqn:E; split.
    + discriminate.
    + intros Hf. inversion Hf; subst. simpl in *. congruence.
    + intros H. constructor; [exact E | apply IH, H].
    + intros Hf. inversion Hf; subst. apply IH. assumption.
Qed.

(** *** Titles *)

Lemma split_lines_ne : forall s, split_lines s <> [].
Proof.
  intros [|c s]; simpl; [discriminate|].
  destruct (c =? nl); [discriminate|]. destruct (split_lines s); discriminate.
Qed.

Lemma split_lines_no_nl : forall s l, In l (split_lines s) -> ~ In nl l.
Proof.
  intros s; induction s as [|c s IH]; intros l Hl; simpl in Hl.
  - destruct Hl as [<-|[]]. intros [].
  - destruct (c =? nl) eqn:E.
    + destruct Hl as [<-|Hl]; [intros []|exact (IH l Hl)].
    + destruct (split_lines s) as [|l0 ls] eqn:Es; [destruct (split_lines_ne s Es)|].
      destruct Hl as [<-|Hl].
      * intros [Hc|Hc]; [subst c; rewrite Z.eqb_refl in E; discriminate|].
        exact (IH l0 (or_introl eq_refl) Hc).
      * exact (IH l (or_intror Hl)).
Qed.

Lemma split_lines_single : forall s, ~ In nl s -> split_lines s = [s].
Proof.
  intros s; induction s as [|c s IH]; intros H; [reflexivity|]. simpl.
  destruct (c =? nl) eqn:E; [apply Z.eqb_eq in E; subst; destruct H; left; reflexivity|].
  rewrite IH; [reflexivity|]. intro Hin. apply H. right. exact Hin.
Qed.

Definition blank (l : str) : Prop := strip l = [].

Lemma first_nonblank_nil : forall ls, first_nonblank ls = [] <-> Forall blank ls.
Proof.
  intros ls; induction ls as [|l ls IH]; simpl; [split; [constructor|reflexivity]|].
  destruct (strip l) as [|c t] eqn:E.
  - rewrite IH. split; [intros H; constructor; assumption | intros H; inversion H; assumption].
  - split; [discriminate|]. intros H. inversion H as [|x y Hb]. unfold blank in Hb. congruence.
Qed.

Lemma first_nonblank_pick : forall ls, first_nonblank ls <> [] ->
  exists pre l post, ls = pre ++ l :: post /\ Forall blank pre /\ first_nonblank ls = strip l.
Proof.
  intros ls; induction ls as [|l ls IH]; simpl; intros H; [congruence|].
  destruct (strip l) as [|c t] eqn:E.
  - destruct (IH H) as (pre & l' & post & -> & Hb & Hs). exists (l :: pre), l', post.
    split; [reflexivity|]. split; [constructor; assumption|exact Hs].
  - exists [], l, ls. split; [reflexivity|]. split; [constructor|]. rewrite E. reflexivity.
Qed.

Lemma first_nonblank_in : forall ls, first_nonblank ls = [] \/ exists l, In l ls /\ first_nonblank ls = strip l.
Proof.
  intros ls. destruct (first_nonblank ls) as [|c t] eqn:E; [left; reflexivity|right].
  destruct (first_nonblank_pick ls) as (pre & l & post & -> & _ & Hs); [rewrite E; discriminate|].
  exists l. split; [apply in_app_iff; right; left; reflexivity|]. rewrite <- E, Hs. reflexivity.
Qed.

Lemma extract_title_no_nl : forall c, ~ In nl (_extract_title c).
Proof.
  intros [|z c]; [intros []|]. unfold _extract_title.
  destruct (first_nonblank_in (split_lines (z :: c))) as [->|(l & Hl & ->)]; [intros []|].
  intros Hin. apply strip_in in Hin. exact (split_lines_no_nl _ _ Hl Hin).
Qed.

Lemma extract_title_stripped : forall c, strip (_extract_title c) = _extract_title c.
Proof.
  intros [|z c]; [reflexivity|]. unfold _extract_title.
  destruct (first_nonblank_in (split_lines (z :: c))) as [->|(l & Hl & ->)]; [reflexivity|].
  apply strip_idem.
Qed.

(** X1. [_detect_building] returns the first building of [building_patterns],
    in insertion order, one of whose patterns occurs in the text: it returns
    [b] exactly when some pattern of [b] occurs in the text and no pattern of
    an earlier building does, and it returns [None] exactly when no pattern
    occurs at all. *)
Theorem detect_building_first_match : forall text,
  (forall b, _detect_building text = Some b <->
     exists pre pats post, building_patterns = pre ++ (b, pats) :: post
       /\ (exists p, In p pats /\ contains text p = true)
       /\ (forall b' pats' p, In (b', pats') pre -> In p pats' -> contains text p = false))
  /\ (_detect_building text = None <->
      forall b pats p, In (b, pats) building_patterns -> In p pats -> contains text p = false).
Proof.
  intros text. unfold _detect_building. split.
  - intros b. rewrite detect_in_some. split.
    + intros (pre & pats & post & He & Hp & Hf). exists pre, pats, post.
      split; [exact He|]. split; [apply existsb_contains, Hp|].
      intros b' pats' p Hin Hp'. rewrite Forall_forall in Hf. specialize (Hf _ Hin). simpl in Hf.
      destruct (contains text p) eqn:E; [|reflexivity].
      assert (existsb (contains text) pats' = true) by (apply existsb_contains; exists p; auto). congruence.
    + intros (pre & pats & post & He & Hp & Hf). exists pre, pats, post.
      split; [exact He|]. split; [apply existsb_contains, Hp|].
      apply Forall_forall. intros [b' pats'] Hin. simpl.
      apply Bool.not_true_is_false. intros Hx. apply existsb_contains in Hx.
      destruct Hx as (p & Hp' & Hc). rewrite (Hf b' pats' p Hin Hp') in Hc. discriminate.
  - rewrite detect_in_none, Forall_forall. split.
    + intros Hf b pats p Hin Hp. specialize (Hf _ Hin). simpl in Hf.
      destruct (contains text p) eqn:E; [|reflexivity].
      assert (existsb (contains text) pats = true) by (apply existsb_contains; exists p; auto). congruence.
    + intros Hf [b pats] Hin. simpl. apply Bool.not_true_is_false. intros Hx.
      apply existsb_contains in Hx. destruct Hx as (p & Hp & Hc).
      rewrite (Hf b pats p Hin Hp) in Hc. discriminate.
Qed.

(** X2. [_extract_title] returns the first non-blank line of the content,
    stripped: the result is empty exactly when every line is blank;
    otherwise it is [line.strip()] for a line preceded only by blank lines.
    The title never holds a newline, and extracting the title of a title
    gives it back. *)
Theorem extract_title_spec : forall content,
  (_extract_title content = [] <-> Forall blank (split_lines content))
  /\ (_extract_title content <> [] ->
      exists pre line post, split_lines content = pre ++ line :: post /\ Forall blank pre
        /\ _extract_title content = strip line)
  /\ ~ In nl (_extract_title content)
  /\ _extract_title (_extract_title content) = _extract_title content.
Proof.
  intros content. split; [|split; [|split]].
  - destruct content as [|z c]; [split; [intros _; repeat constructor | reflexivity]|].
    apply first_nonblank_nil.
  - destruct content as [|z c]; [intros H; exfalso; apply H; reflexivity|]. apply first_nonblank_pick.
  - apply extract_title_no_nl.
  - pose proof (extract_title_no_nl content) as Hn. pose proof (extract_title_stripped content) as Hs.
    destruct (_extract_title content) as [|z t] eqn:E; [reflexivity|].
    unfold _extract_title at 1. rewrite split_lines_single by exact Hn. cbn [first_nonblank].
    rewrite Hs. reflexivity.
Qed.

(** *** Query intent and chunk type *)

(** X3. The query intent of [_get_query_intent] is ["location"] for a
    location query and otherwise the chunk type that [_classify_chunk_type]
    gives the query text: both use the same phone and service keywords in
    the same order. *)
Theorem query_intent_is_chunk_type : forall q,
  _get_query_intent q = if _is_location_query q then u "location" else _classify_chunk_type q.
Proof. intros [|c q]; reflexivity. Qed.

(** *** Unit names *)

Lemma take_while_firstn : forall (p : Z -> bool) s k, (k <= List.length (take_while p s))%nat ->
  Forall (fun c => p c = true) (firstn k s) /\ List.length (firstn k s) = k.
Proof.
  intros p s; induction s as [|c s IH]; intros [|k] Hk; simpl in *; try (split; [constructor|reflexivity]).
  - lia.
  - destruct (p c) eqn:E; simpl in Hk; [|lia].
    destruct (IH k) as [H1 H2]; [lia|]. split; [constructor; assumption|simpl; congruence].
Qed.

Lemma find_window : forall (f : nat -> bool) lo run k,
  find f (if (lo <=? run)%nat then rev (seq lo (S run - lo)) else []) = Some k ->
  (lo <= k <= run)%nat /\ f k = true.
Proof.
  intros f lo run k H. destruct (lo <=? run)%nat eqn:E; [|discriminate].
  apply find_some in H. destruct H as [Hin Hf]. apply in_rev, in_seq in Hin.
  apply Nat.leb_le in E. split; [lia|exact Hf].
Qed.

Lemma firstn_length_app : forall (a b : str), firstn (List.length a) (a ++ b) = a.
Proof. intros a b. rewrite firstn_app, Nat.sub_diag, firstn_all. simpl. apply app_nil_r. Qed.

Lemma window_match : forall (p : Z -> bool) lo hi suf s k,
  find (fun k => startswith (skipn k s) suf)
    (if (lo <=? Nat.min hi (List.length (take_while p s)))%nat
     then rev (seq lo (S (Nat.min hi (List.length (take_while p s))) - lo)) else []) = Some k ->
  exists y r, s = y ++ suf ++ r /\ firstn (k + List.length suf) s = y ++ suf
    /\ (lo <= List.length y <= hi)%nat /\ Forall (fun c => p c = true) y.
Proof.
  intros p lo hi suf s k H. apply find_window in H. destruct H as [Hk Hs].
  apply startswith_spec in Hs. destruct Hs as [r Hr].
  destruct (take_while_firstn p s k) as [Hf Hl]; [lia|].
  exists (firstn k s), r.
  assert (Hs : s = firstn k s ++ suf ++ r) by (rewrite <- Hr; symmetry; apply firstn_skipn).
  split; [exact Hs|]. split; [|split; [lia|exact Hf]].
  rewrite Hs at 1. rewrite <- Hl at 1. rewrite firstn_app_2, firstn_length_app. reflexivity.
Qed.

Lemma search_unit_spec : forall fuel lo hi suf s m, search_unit fuel lo hi suf s = Some m ->
  exists a y r, s = a ++ y ++ suf ++ r /\ m = y ++ suf
    /\ (lo <= List.length y <= hi)%nat /\ Forall (fun c => not_nl c = true) y.
Proof.
  intros fuel; induction fuel as [|f IH]; intros lo hi suf s m H; [discriminate|].
  destruct s as [|c s]; [discriminate|]. cbn zeta in H. unfold search_unit in H; fold search_unit in H.
  destruct (find _ _) as [k|] eqn:E.
  - injection H as <-. destruct (window_match _ _ _ _ _ _ E) as (y & r & Hs & Hm & Hl & Hf).
    exists [], y, r. rewrite Hm. auto.
  - destruct (IH _ _ _ _ _ H) as (a & y & r & -> & Hm & Hl & Hf). exists (c :: a), y, r. auto.
Qed.

Lemma findall_unit_spec : forall fuel lo hi suf s m, In m (findall_unit fuel lo hi suf s) ->
  exists a y r, s = a ++ y ++ suf ++ r /\ m = y ++ suf
    /\ (lo <= List.length y <= hi)%nat /\ Forall (fun c => name_char c = true) y.
Proof.
  intros fuel; induction fuel as [|f IH]; intros lo hi suf s m H; [destruct H|].
  destruct s as [|c s]; [destruct H|]. cbn zeta in H. unfold findall_unit in H; fold findall_unit in H.
  destruct (find _ _) as [k|] eqn:E.
  - destruct (window_match _ _ _ _ _ _ E) as (y & r & Hs & Hm & Hl & Hf). destruct H as [<-|H].
    + exists [], y, r. rewrite Hm. auto.
    + destruct (IH _ _ _ _ _ H) as (a & y' & r' & Ha & Hm' & Hl' & Hf').
      exists (firstn (k + List.length suf) (c :: s) ++ a), y', r'. split; [|auto].
      rewrite <- app_assoc, <- Ha. symmetry. apply firstn_skipn.
  - destruct (IH _ _ _ _ _ H) as (a & y & r & -> & Hm & Hl & Hf). exists (c :: a), y, r. auto.
Qed.

Lemma first_unit_spec : forall text sufs n, first_unit text sufs = Some n ->
  exists suf a y r, In suf sufs /\ text = a ++ y ++ suf ++ r /\ n = strip (y ++ suf)
    /\ (2 <= List.length y <= 12)%nat /\ Forall (fun c => not_nl c = true) y
    /\ first_isdigit n = Some false.
Proof.
  intros text sufs; induction sufs as [|suf sufs IH]; intros n H; [discriminate|].
  simpl in H. destruct (search_unit _ _ _ _ _) as [m|] eqn:E.
  - destruct (strip m) as [|c t] eqn:Es.
    + destruct (IH n H) as (suf' & a & y & r & Hin & Hr). exists suf', a, y, r. split; [right|]; auto.
    + destruct (is_digit c) eqn:Ed.
      * destruct (IH n H) as (suf' & a & y & r & Hin & Hr). exists suf', a, y, r. split; [right|]; auto.
      * injection H as <-. destruct (search_unit_spec _ _ _ _ _ _ E) as (a & y & r & Ht & Hm & Hl & Hf).
        exists suf, a, y, r. split; [left; reflexivity|]. split; [exact Ht|].
        split; [rewrite <- Es, Hm; reflexivity|]. split; [exact Hl|]. split; [exact Hf|].
        simpl. rewrite Ed. reflexivity.
  - destruct (IH n H) as (suf' & a & y & r & Hin & Hr). exists suf', a, y, r. split; [right|]; auto.
Qed.

(** A suffix made of characters outside the [_normalize_unit_id] class,
    hence neither whitespace nor a newline. *)
Definition suffix_ok (s : str) : bool :=
  negb (Nat.eqb (List.length s) 0) && forallb (fun c => negb (in_class c)) s.

Lemma suffix_ok_chars : forall s c, suffix_ok s = true -> In c s -> in_class c = false.
Proof.
  intros s c H Hc. unfold suffix_ok in H. apply andb_prop in H. destruct H as [_ H].
  rewrite forallb_forall in H. apply negb_true_iff, H, Hc.
Qed.

Lemma suffix_ok_ne : forall s, suffix_ok s = true -> s <> [].
Proof. intros [|c s] H; [discriminate|discriminate]. Qed.

Lemma in_class_space : forall c, is_space c = true -> in_class c = true.
Proof. intros c H. unfold in_class. rewrite H. reflexivity. Qed.

Lemma hd_not_ok : forall s, (forall c, In c s -> in_class c = false) -> hd_not is_space s.
Proof.
  intros [|c s] H; simpl; [exact I|]. destruct (is_space c) eqn:E; [|reflexivity].
  pose proof (H c (or_introl eq_refl)) as Hc. rewrite (in_class_space c E) in Hc. discriminate.
Qed.

Lemma strip_app_ok : forall y suf, suffix_ok suf = true ->
  strip (y ++ suf) = drop_while is_space y ++ suf.
Proof.
  intros y suf Hok. assert (Hc : forall c, In c suf -> in_class c = false)
    by (intros c; apply suffix_ok_chars, Hok).
  assert (Hd : drop_while is_space suf = suf) by (apply drop_while_id, hd_not_ok, Hc).
  assert (Hdw : drop_while is_space (y ++ suf) = drop_while is_space y ++ suf).
  { rewrite drop_while_app. destruct (drop_while is_space y); [exact Hd|reflexivity]. }
  unfold strip. rewrite Hdw, rev_app_distr, drop_while_app.
  rewrite (drop_while_id _ (rev suf)) by (apply hd_not_ok; intros c Hin; apply Hc, in_rev, Hin).
  destruct (rev suf) as [|x l] eqn:Er.
  - destruct (suffix_ok_ne suf Hok). rewrite <- (rev_involutive suf), Er. reflexivity.
  - rewrite rev_app_distr, rev_involutive, <- Er, rev_involutive. reflexivity.
Qed.

Lemma name_suffixes_ok : forall suf, In suf name_suffixes ->
  suffix_ok suf = true /\ (List.length suf <= 2)%nat.
Proof.
  intros suf H. repeat (destruct H as [<-|H]; [split; [vm_compute; reflexivity|simpl; lia]|]). destruct H.
Qed.

Lemma in_class_nl : in_class nl = true.
Proof. reflexivity. Qed.

Lemma unit_name_facts : forall text n, _extract_unit_name_from_text text = Some n ->
  exists suf y, In suf name_suffixes /\ n = y ++ suf /\ (List.length y <= 12)%nat
    /\ ~ In nl n /\ first_isdigit n = Some false /\ contains text n = true.
Proof.
  intros [|z text] n H; [discriminate|]. unfold _extract_unit_name_from_text in H.
  destruct (first_unit_spec _ _ _ H) as (suf & a & y & r & Hin & Ht & Hn & Hl & Hf & Hd).
  destruct (name_suffixes_ok suf Hin) as [Hok _].
  rewrite strip_app_ok in Hn by exact Hok.
  destruct (drop_while_split is_space y) as (w & Hw & _).
  exists suf, (drop_while is_space y). split; [exact Hin|]. split; [exact Hn|].
  split; [rewrite Hw in Hl; rewrite length_app in Hl; lia|]. split; [|split; [exact Hd|]].
  - rewrite Hn. intros Hi. apply in_app_iff in Hi. destruct Hi as [Hi|Hi].
    + rewrite Forall_forall in Hf. assert (Hy : In nl y) by (rewrite Hw; apply in_app_iff; right; exact Hi).
      specialize (Hf _ Hy). unfold not_nl in Hf. rewrite Z.eqb_refl in Hf. discriminate.
    + pose proof (suffix_ok_chars _ _ Hok Hi) as Hx. rewrite in_class_nl in Hx. discriminate.
  - rewrite Ht, Hn. apply contains_spec. exists (a ++ w), r. rewrite Hw at 1. rewrite <- !app_assoc. reflexivity.
Qed.

(** X4. A unit name found by [_extract_unit_name_from_text] is a run of at
    most 12 characters followed by one of the ten unit suffixes; it holds no
    newline, does not start with a digit and occurs in the text. *)
Theorem unit_name_from_text_shape : forall text n,
  _extract_unit_name_from_text text = Some n ->
  exists suf y, In suf name_suffixes /\ n = y ++ suf /\ (List.length y <= 12)%nat
    /\ ~ In nl n /\ first_isdigit n = Some false /\ contains text n = true.
Proof. exact unit_name_facts. Qed.


Lemma remove_class_app' : forall a b, remove_class (a ++ b) = remove_class a ++ remove_class b.
Proof. intros a b. unfold remove_class. apply filter_app. Qed.

Lemma remove_class_ok : forall s, (forall c, In c s -> in_class c = false) -> remove_class s = s.
Proof.
  intros s H. unfold remove_class. induction s as [|c s IH]; [reflexivity|]. simpl.
  rewrite (H c (or_introl eq_refl)). simpl. f_equal. apply IH. intros x Hx. apply H. right. exact Hx.
Qed.

Lemma normalize_unit_name : forall text n, _extract_unit_name_from_text text = Some n ->
  _normalize_unit_id n <> [] /\ (List.length (_normalize_unit_id n) <= 28)%nat
  /\ ~ In nl (_normalize_unit_id n).
Proof.
  intros text n H. destruct (unit_name_facts text n H) as (suf & y & Hin & -> & Hl & _).
  destruct (name_suffixes_ok suf Hin) as [Hok Hls].
  rewrite normalize_spec, remove_class_app', (remove_class_ok suf) by (intros c; apply suffix_ok_chars, Hok).
  assert (Hfree : forall c, In c (remove_class y ++ suf) -> in_class c = false).
  { intros c Hc. apply in_app_iff in Hc. destruct Hc as [Hc|Hc];
      [exact (remove_class_out y c Hc) | exact (suffix_ok_chars _ _ Hok Hc)]. }
  split; [|split].
  - apply do_lower_nonempty. intros He. apply app_eq_nil in He. exact (suffix_ok_ne _ Hok (proj2 He)).
  - pose proof (do_lower_length (remove_class y ++ suf) []) as Hx. rewrite length_app in Hx.
    assert (List.length (remove_class y) <= List.length y)%nat by apply filter_length_le.
    unfold py_lower. lia.
  - intros Hi. pose proof (py_lower_class_free _ Hfree nl Hi) as Hx. rewrite in_class_nl in Hx. discriminate.
Qed.

(** X5. The [unit_id] that [process] stores in a chunk's metadata always
    passes the guard of [retrieve] (non-empty, fewer than 50 characters, no
    newline): it has at most 28 characters. *)
Theorem doc_unit_id_passes_guard : forall item_title url department text v,
  meta_get (doc_metadata item_title url department text) (u "unit_id") = Some v ->
  valid_unit_id (doc_metadata item_title url department text) = [v] /\ (List.length v <= 28)%nat.
Proof.
  intros item_title url department text v H. pose proof H as H0. unfold doc_metadata in H.
  apply content_metadata_unit_id in H. destruct H as (n & Hn & ->).
  assert (Hf : _normalize_unit_id n <> [] /\ (List.length (_normalize_unit_id n) <= 28)%nat
               /\ ~ In nl (_normalize_unit_id n)).
  { unfold doc_unit_name in Hn.
    destruct (_extract_unit_name_from_text (doc_title item_title text)) as [[|c m]|] eqn:E.
    - apply (normalize_unit_name _ _ Hn).
    - injection Hn as <-. apply (normalize_unit_name _ _ E).
    - apply (normalize_unit_name _ _ Hn). }
  destruct Hf as (Hne & Hl & Hnl). split; [|exact Hl].
  unfold valid_unit_id. rewrite H0.
  destruct (_normalize_unit_id n) as [|c k] eqn:E; [congruence|].
  assert (Hc : contains (c :: k) [nl] = false)
    by (apply Bool.not_true_is_false; intros Hx; apply contains_in in Hx; exact (Hnl Hx)).
  rewrite Hc. assert (Hlt : (List.length (c :: k) <? 50)%nat = true) by (apply Nat.ltb_lt; lia).
  rewrite Hlt. reflexivity.
Qed.

Lemma doc_unit_id_passes_guard_witness :
  meta_get (doc_metadata None (u "u") (u "aca") (u "教務處註冊組位於行政大樓")) (u "unit_id")
    = Some (u "教務處註冊組")
  /\ valid_unit_id (doc_metadata None (u "u") (u "aca") (u "教務處註冊組位於行政大樓")) = [u "教務處註冊組"]
  /\ (List.length (u "教務處註冊組") <= 28)%nat.
Proof.
  assert (H : meta_get (doc_metadata None (u "u") (u "aca") (u "教務處註冊組位於行政大樓")) (u "unit_id")
    = Some (u "教務處註冊組")) by (vm_compute; reflexivity).
  split; [exact H|]. exact (doc_unit_id_passes_guard _ _ _ _ _ H).
Defined.

(** *** Enrichment *)

Lemma contains_short : forall s p, (List.length s < List.length p)%nat -> contains s p = false.
Proof.
  intros s p H. apply Bool.not_true_is_false. intros Hc. apply contains_spec in Hc.
  destruct Hc as (a & b & ->). rewrite !length_app in H. lia.
Qed.

Definition from_map (content : str) (m : list (str * str)) (a : str) : Prop :=
  exists o l, In (o, l) m /\ contains content o = true /\ a = o ++ loc_suffix ++ l.

Section EnrichFacts.
Variable repr_list : list str -> str.

Lemma enrich_loop_spec : forall content m added, exists extra,
  enrich_loop repr_list content m added = added ++ extra /\ Forall (from_map content m) extra.
Proof.
  intros content m; induction m as [|[o l] m IH]; intros added; cbn [enrich_loop].
  - exists []. rewrite app_nil_r. split; [reflexivity|constructor].
  - assert (Hw : forall x, Forall (from_map content m) x -> Forall (from_map content ((o, l) :: m)) x).
    { intros x Hx. eapply Forall_impl'; [|exact Hx]. intros a (o' & l' & H1 & H2 & H3).
      exists o', l'. split; [right; exact H1|]. auto. }
    destruct (contains content o && negb (contains (repr_list added) (o ++ loc_suffix))) eqn:E.
    + destruct (IH (added ++ [o ++ loc_suffix ++ l])) as (extra & He & Hf).
      exists ((o ++ loc_suffix ++ l) :: extra). rewrite He, <- app_assoc. split; [reflexivity|].
      constructor; [|apply Hw, Hf]. apply andb_prop in E. destruct E as [E _].
      exists o, l. split; [left; reflexivity|]. auto.
    + destruct (IH added) as (extra & He & Hf). exists extra. split; [exact He|apply Hw, Hf].
Qed.

Lemma enrich_loop_none : forall content m added,
  (forall o l, In (o, l) m -> contains content o = false) ->
  enrich_loop repr_list content m added = added.
Proof.
  intros content m; induction m as [|[o l] m IH]; intros added H; simpl; [reflexivity|].
  rewrite (H o l (or_introl eq_refl)). simpl. apply IH. intros o' l' Hin. apply (H o' l'). right. exact Hin.
Qed.

Lemma enrich_loop_hit : forall content m o l, repr_list [] = u "[]" ->
  In (o, l) m -> contains content o = true -> enrich_loop repr_list content m [] <> [].
Proof.
  intros content m; induction m as [|[o' l'] m IH]; intros o l Hr Hin Hc; [destruct Hin|]. cbn [enrich_loop].
  rewrite Hr, (contains_short (u "[]")) by (rewrite length_app; unfold loc_suffix; simpl; lia).
  rewrite andb_true_r. destruct (contains content o') eqn:E.
  - match goal with |- enrich_loop _ _ _ ?a <> [] =>
      destruct (enrich_loop_spec content m a) as (extra & -> & _) end.
    simpl. discriminate.
  - destruct Hin as [Heq|Hin]; [injection Heq as -> ->; congruence|]. exact (IH o l Hr Hin Hc).
Qed.
End EnrichFacts.

Lemma str_ltb_asym : forall a b, str_ltb a b = true -> str_ltb b a = false.
Proof.
  intros a; induction a as [|x a IH]; intros [|y b] H; simpl in *; try discriminate; try reflexivity.
  apply orb_true_iff in H. apply orb_false_iff. destruct H as [H|H].
  - split; [apply Z.ltb_ge; apply Z.ltb_lt in H; lia|].
    apply andb_false_iff. left. apply Z.eqb_neq. apply Z.ltb_lt in H. lia.
  - apply andb_prop in H. destruct H as [H1 H2]. apply Z.eqb_eq in H1. subst y.
    split; [apply Z.ltb_irrefl|]. rewrite Z.eqb_refl. simpl. apply IH, H2.
Qed.

Definition str_le (a b : str) : Prop := str_ltb b a = false.

Lemma insert_str_perm : forall x l, Permutation (insert_str x l) (x :: l).
Proof.
  intros x l; induction l as [|y l IH]; simpl; [apply Permutation_refl|].
  destruct (str_ltb x y); [apply Permutation_refl|].
  eapply perm_trans; [apply perm_skip, IH|apply perm_swap].
Qed.

Lemma insert_str_sorted : forall x l, Sorted str_le l -> Sorted str_le (insert_str x l).
Proof.
  intros x l; induction l as [|y l IH]; intros Hs; simpl; [repeat constructor|].
  destruct (str_ltb x y) eqn:E.
  - constructor; [exact Hs|]. constructor. unfold str_le. apply str_ltb_asym, E.
  - inversion Hs as [|? ? Hl Hhd]; subst. constructor; [apply IH, Hl|].
    destruct l as [|z l]; simpl; [constructor; exact E|].
    destruct (str_ltb x z); constructor; [exact E|]. inversion Hhd; assumption.
Qed.

Lemma sort_str_fold : forall l acc, Sorted str_le acc ->
  Sorted str_le (fold_left (fun acc x => insert_str x acc) l acc)
  /\ Permutation (fold_left (fun acc x => insert_str x acc) l acc) (l ++ acc).
Proof.
  intros l; induction l as [|x l IH]; intros acc Hs; simpl; [split; [exact Hs|apply Permutation_refl]|].
  destruct (IH (insert_str x acc)) as [H1 H2]; [apply insert_str_sorted, Hs|]. split; [exact H1|].
  eapply perm_trans; [exact H2|]. eapply perm_trans; [apply Permutation_app_head, insert_str_perm|].
  apply Permutation_sym, Permutation_middle.
Qed.

Lemma sort_str_spec : forall l, Sorted str_le (sort_str l) /\ Permutation (sort_str l) l.
Proof.
  intros l. unfold sort_str. destruct (sort_str_fold l [] (Sorted_nil _)) as [H1 H2].
  rewrite app_nil_r in H2. auto.
Qed.

Lemma set_of_fold_nodup : forall l acc, NoDup acc ->
  NoDup (fold_left (fun acc x => if existsb (str_eqb x) acc then acc else acc ++ [x]) l acc).
Proof.
  intros l; induction l as [|x l IH]; intros acc H; simpl; [exact H|].
  apply IH. destruct (existsb (str_eqb x) acc) eqn:E; [exact H|].
  apply NoDup_app; [exact H|repeat constructor; intros []|].
  intros y Hy [<-|[]]. exact (existsb_str_in _ _ E Hy).
Qed.

Lemma set_of_nodup : forall l, NoDup (set_of l).
Proof. intros l. apply set_of_fold_nodup. constructor. Qed.

Lemma set_of_fold_incl : forall l acc v, In v acc \/ In v l ->
  In v (fold_left (fun acc x => if existsb (str_eqb x) acc then acc else acc ++ [x]) l acc).
Proof.
  intros l; induction l as [|x l IH]; intros acc v H; simpl; [destruct H as [H|[]]; exact H|].
  apply IH. destruct H as [H|[->|H]]; [|left|right; exact H].
  - left. destruct (existsb (str_eqb x) acc); [exact H|apply in_app_iff; left; exact H].
  - destruct (existsb (str_eqb v) acc) eqn:E; [apply existsb_str_true, E|].
    apply in_app_iff. right. left. reflexivity.
Qed.

Lemma set_of_ne : forall l, l <> [] -> set_of l <> [].
Proof.
  intros [|x l] H; [congruence|]. intros He.
  assert (In x (set_of (x :: l))) by (apply set_of_fold_incl; right; left; reflexivity).
  rewrite He in H0. destruct H0.
Qed.

(** X6. [enrich_content_with_locations] either returns the content
    unchanged or appends two newlines, the marker line and a non-empty,
    duplicate-free, sorted list of lines [office + "位置：" + location], one
    for a map entry whose office name occurs in the content. *)
Theorem enrich_shape : forall repr_list content location_map,
  enrich_content_with_locations repr_list content location_map = content
  \/ exists added, added <> []
       /\ enrich_content_with_locations repr_list content location_map
          = content ++ [nl; nl] ++ enrich_marker ++ [nl] ++ join_lines added
       /\ NoDup added /\ Sorted str_le added
       /\ Forall (from_map content location_map) added.
Proof.
  intros repr_list content m. unfold enrich_content_with_locations.
  destruct content as [|z c]; [left; reflexivity|].
  destruct (enrich_loop_spec repr_list (z :: c) m []) as (extra & He & Hf). simpl in He.
  rewrite He. destruct extra as [|a extra]; [left; reflexivity|right].
  destruct (sort_str_spec (set_of (a :: extra))) as [Hs Hp].
  exists (sort_str (set_of (a :: extra))). split; [|split; [reflexivity|split; [|split; [exact Hs|]]]].
  - intros H0. rewrite H0 in Hp. apply Permutation_nil in Hp. exact (set_of_ne (a :: extra) ltac:(discriminate) Hp).
  - eapply Permutation_NoDup; [apply Permutation_sym, Hp|apply set_of_nodup].
  - eapply Forall_perm; [exact Hp|]. apply Forall_forall. intros x Hx. apply set_of_in in Hx.
    rewrite Forall_forall in Hf. apply Hf, Hx.
Qed.

(** X7. For non-empty content (and the [str] of the empty list being
    ["[]"]), [enrich_content_with_locations] returns the content unchanged
    exactly when no office name of the map occurs in it. *)
Theorem enrich_unchanged_iff : forall repr_list content location_map,
  repr_list [] = u "[]" -> content <> [] ->
  (enrich_content_with_locations repr_list content location_map = content
   <-> forall o l, In (o, l) location_map -> contains content o = false).
Proof.
  intros repr_list content m Hr Hc. split.
  - intros He o l Hin. destruct (contains content o) eqn:E; [|reflexivity]. exfalso.
    unfold enrich_content_with_locations in He. destruct content as [|z c]; [congruence|].
    pose proof (enrich_loop_hit repr_list (z :: c) m o l Hr Hin E) as Hne.
    destruct (enrich_loop repr_list (z :: c) m []) as [|a added]; [congruence|].
    apply (f_equal (@List.length Z)) in He. rewrite length_app in He. simpl in He. lia.
  - intros H. unfold enrich_content_with_locations. destruct content as [|z c]; [reflexivity|].
    rewrite enrich_loop_none by exact H. reflexivity.
Qed.

(** *** Cleaning enriched text *)

Lemma split_head_prefix : forall s p, exists rest, s = split_head s p ++ rest.
Proof.
  intros s p; induction s as [|c s IH]; cbn [split_head].
  - destruct (startswith [] p); exists []; reflexivity.
  - destruct (startswith (c :: s) p); [exists (c :: s); reflexivity|].
    destruct IH as [rest Hr]. exists rest. rewrite Hr at 1. reflexivity.
Qed.

Lemma split_head_no_occ : forall s p, p <> [] -> contains (split_head s p) p = false.
Proof.
  intros s p Hp; induction s as [|c s IH]; cbn [split_head].
  - destruct (startswith [] p); apply contains_nil_r, Hp.
  - destruct (startswith (c :: s) p) eqn:E; [apply contains_nil_r, Hp|].
    cbn [contains]. rewrite IH, orb_false_r. apply Bool.not_true_is_false. intros Hs.
    destruct (split_head_prefix s p) as [rest Hr].
    apply (startswith_app _ _ rest) in Hs.
    change ((c :: split_head s p) ++ rest) with (c :: (split_head s p ++ rest)) in Hs.
    rewrite <- Hr in Hs. congruence.
Qed.

Lemma marker_ne : enrich_marker <> [].
Proof. vm_compute. discriminate. Qed.

(** X8. The text returned by [clean_text_advanced] never holds the
    enrichment marker ["【系統補充位置資訊】"]. *)
Theorem clean_output_no_marker : forall text dept cleaned,
  clean_text_advanced text dept = Some cleaned -> contains cleaned enrich_marker = false.
Proof.
  intros text dept cleaned H. unfold clean_text_advanced in H. destruct text as [|z t].
  - injection H as <-. apply contains_nil_r, marker_ne.
  - destruct (structural _) as [fl|]; [|discriminate]. injection H as <-.
    destruct (contains (join_lines fl) enrich_marker) eqn:E; [|exact E].
    apply Bool.not_true_is_false. intros Hc. apply strip_contains in Hc.
    rewrite split_head_no_occ in Hc by apply marker_ne. discriminate.
Qed.

Lemma split_lines_cons : forall c s, split_lines (c :: s) =
  if c =? nl then [] :: split_lines s
  else match split_lines s with l :: ls => (c :: l) :: ls | [] => [[c]] end.
Proof. reflexivity. Qed.

Lemma noise_pass_app : forall a b, noise_pass (a ++ b) = noise_pass a ++ noise_pass b.
Proof.
  intros a b; induction a as [|l a IH]; [reflexivity|]. cbn [noise_pass app].
  destruct (strip l) as [|z t]; [exact IH|].
  destruct (existsb _ _); [exact IH|]. cbn [app]. f_equal. exact IH.
Qed.

Lemma noise_pass_strip_eq : forall x y ls, strip x = strip y -> noise_pass (x :: ls) = noise_pass (y :: ls).
Proof. intros x y ls H. cbn [noise_pass]. rewrite H. reflexivity. Qed.

Lemma noise_pass_blank : forall x ls, strip x = [] -> noise_pass (x :: ls) = noise_pass ls.
Proof. intros x ls H. cbn [noise_pass]. rewrite H. reflexivity. Qed.

Lemma np_cons_space : forall c s, is_space c = true ->
  noise_pass (split_lines (c :: s)) = noise_pass (split_lines s).
Proof.
  intros c s H. rewrite split_lines_cons. destruct (c =? nl).
  - apply noise_pass_blank. reflexivity.
  - destruct (split_lines s) as [|l ls] eqn:Es; [destruct (split_lines_ne _ Es)|].
    apply noise_pass_strip_eq, strip_cons_space, H.
Qed.

Lemma split_lines_snoc : forall s c, exists init l, split_lines s = init ++ [l] /\
  split_lines (s ++ [c]) = if c =? nl then init ++ [l; []] else init ++ [l ++ [c]].
Proof.
  intros s; induction s as [|x s IH]; intros c.
  - exists [], []. split; [reflexivity|]. cbn [app]. rewrite split_lines_cons.
    destruct (c =? nl); reflexivity.
  - destruct (IH c) as (init & l & H1 & H2). cbn [app]. rewrite !split_lines_cons, H1, H2.
    destruct (x =? nl).
    + exists ([] :: init), l. destruct (c =? nl); split; reflexivity.
    + destruct init as [|i0 init].
      * exists [], (x :: l). destruct (c =? nl); split; reflexivity.
      * exists ((x :: i0) :: init), l. destruct (c =? nl); split; reflexivity.
Qed.

Lemma np_snoc_space : forall s c, is_space c = true ->
  noise_pass (split_lines (s ++ [c])) = noise_pass (split_lines s).
Proof.
  intros s c H. destruct (split_lines_snoc s c) as (init & l & H1 & H2). rewrite H2, H1.
  destruct (c =? nl).
  - change [l; []] with ([l] ++ [[]]). rewrite !noise_pass_app.
    change (noise_pass [[]]) with (@nil str). rewrite app_nil_r. reflexivity.
  - rewrite !noise_pass_app. f_equal. apply noise_pass_strip_eq, strip_snoc_space, H.
Qed.

Lemma startswith_snoc : forall s p c, startswith (s ++ [c]) p = true -> startswith s p = true \/ p = s ++ [c].
Proof.
  intros s p c; revert s; induction p as [|a p IH]; intros s H; [left; apply startswith_nil|].
  destruct s as [|y s].
  - cbn [app startswith] in H. apply andb_prop in H. destruct H as [H1 H2].
    apply Z.eqb_eq in H1. subst a. right. destruct p as [|b p]; [reflexivity|discriminate].
  - cbn [app startswith] in H |- *. apply andb_prop in H. destruct H as [H1 H2]. rewrite H1.
    destruct (IH s H2) as [H|H]; [left; exact H|right]. apply Z.eqb_eq in H1. subst. reflexivity.
Qed.

Definition no_snoc (p : str) (c : Z) : Prop := p <> [] /\ forall t, p <> t ++ [c].

Lemma startswith_snoc_eq : forall s p c, no_snoc p c -> startswith (s ++ [c]) p = startswith s p.
Proof.
  intros s p c [Hne Hp]. destruct (startswith s p) eqn:E; [apply startswith_app, E|].
  apply Bool.not_true_is_false. intros H. destruct (startswith_snoc s p c H) as [H'|H']; [congruence|].
  exact (Hp s H').
Qed.

Lemma replace_cons_nomatch : forall c s old new, startswith (c :: s) old = false ->
  replace (c :: s) old new = c :: replace s old new.
Proof. intros c s old new H. unfold replace. cbn [List.length replace_fuel]. rewrite H. reflexivity. Qed.

Lemma replace_fuel_nil : forall f old new, replace_fuel f [] old new = [].
Proof. intros [|f] old new; reflexivity. Qed.

Lemma replace_fuel_enough : forall old new, old <> [] -> forall f1 f2 s,
  (List.length s <= f1)%nat -> (List.length s <= f2)%nat ->
  replace_fuel f1 s old new = replace_fuel f2 s old new.
Proof.
  intros old new Hne f1; induction f1 as [|f1 IH]; intros f2 s H1 H2.
  - destruct s; [rewrite !replace_fuel_nil; reflexivity|simpl in H1; lia].
  - destruct s as [|c s]; [rewrite !replace_fuel_nil; reflexivity|].
    destruct f2 as [|f2]; [simpl in H2; lia|]. cbn [replace_fuel].
    assert (Hlo : (1 <= List.length old)%nat) by (destruct old; [congruence|simpl; lia]).
    destruct (startswith (c :: s) old); f_equal; apply IH;
      try (rewrite length_skipn); cbn [List.length] in *; lia.
Qed.

Lemma replace_snoc : forall s c old new, no_snoc old c ->
  replace (s ++ [c]) old new = replace s old new ++ [c].
Proof.
  intros s c old new Hn. pose proof Hn as [Hne Hp].
  assert (Hlo : (1 <= List.length old)%nat) by (destruct old; [congruence|simpl; lia]).
  assert (Hf : forall f s, (List.length s < f)%nat ->
            replace_fuel f (s ++ [c]) old new = replace_fuel f s old new ++ [c]).
  { intros f; induction f as [|f IH]; intros s' Hs; [lia|]. destruct s' as [|x s'].
    - cbn [app replace_fuel]. rewrite (startswith_snoc_eq [] old c Hn : startswith [c] old = _).
      replace (startswith [] old) with false by (destruct old; [congruence|reflexivity]).
      rewrite !replace_fuel_nil. reflexivity.
    - change ((x :: s') ++ [c]) with (x :: (s' ++ [c])). cbn [replace_fuel].
      rewrite (app_comm_cons s' [c] x), (startswith_snoc_eq (x :: s') old c Hn).
      destruct (startswith (x :: s') old) eqn:E.
      + apply startswith_spec in E. destruct E as [r Hr].
        assert (Hl : (List.length old <= List.length (x :: s'))%nat) by (rewrite Hr, length_app; lia).
        rewrite skipn_app. replace (List.length old - List.length (x :: s'))%nat with 0%nat by lia.
        cbn [skipn]. rewrite IH by (rewrite length_skipn; cbn [List.length] in *; lia). apply app_assoc.
      + rewrite <- app_comm_cons. cbn [app]. f_equal. apply IH. simpl in Hs. lia. }
  unfold replace. rewrite Hf by (rewrite length_app; simpl; lia).
  f_equal. apply replace_fuel_enough; [exact Hne| |]; rewrite ?length_app; simpl; lia.
Qed.

Lemma split_head_cons_nomatch : forall c s p, startswith (c :: s) p = false ->
  split_head (c :: s) p = c :: split_head s p.
Proof. intros c s p H. cbn [split_head]. rewrite H. reflexivity. Qed.

Lemma split_head_nil : forall p, split_head [] p = [].
Proof. intros p. cbn [split_head]. destruct (startswith [] p); reflexivity. Qed.

Lemma split_head_snoc : forall s p c, no_snoc p c ->
  split_head (s ++ [c]) p = split_head s p ++ (if contains s p then [] else [c]).
Proof.
  intros s p c Hn. pose proof Hn as [Hne _]. induction s as [|x s IH].
  - cbn [app]. rewrite split_head_cons_nomatch.
    + rewrite split_head_nil, contains_nil_r by exact Hne. reflexivity.
    + rewrite (startswith_snoc_eq [] p c Hn : startswith [c] p = _). destruct p; [congruence|reflexivity].
  - change ((x :: s) ++ [c]) with (x :: (s ++ [c])). cbn [split_head contains].
    rewrite (app_comm_cons s [c] x), (startswith_snoc_eq (x :: s) p c Hn).
    destruct (startswith (x :: s) p); [reflexivity|]. cbn [orb]. rewrite <- app_comm_cons, IH. reflexivity.
Qed.

(** The admin-specific step of [clean_text_advanced] and the line pass after it. *)
Definition admin_tx (dept t : str) : str :=
  if str_eqb dept (u "admin")
  then split_head (replace t (u "Admi nistration") (u "Administration")) admin_footer else t.

Definition pre_lines (dept t : str) : list str := noise_pass (split_lines (admin_tx dept t)).

Lemma startswith_space_hd : forall c s x p, is_space c = true -> is_space x = false ->
  startswith (c :: s) (x :: p) = false.
Proof.
  intros c s x p Hc Hx. cbn [startswith]. destruct (x =? c) eqn:E; [|reflexivity].
  apply Z.eqb_eq in E. subst. congruence.
Qed.

Lemma no_snoc_space : forall p c, p <> [] -> is_space (last p 0) = false -> is_space c = true ->
  no_snoc p c.
Proof.
  intros p c Hne Hl Hc. split; [exact Hne|]. intros t Ht. rewrite Ht, last_last in Hl. congruence.
Qed.

Lemma admi_hd : u "Admi nistration" = 65 :: tl (u "Admi nistration").
Proof. reflexivity. Qed.

Lemma footer_hd : admin_footer = 79 :: tl admin_footer.
Proof. vm_compute. reflexivity. Qed.

Lemma admi_last : is_space (last (u "Admi nistration") 0) = false.
Proof. vm_compute. reflexivity. Qed.

Lemma footer_last : is_space (last admin_footer 0) = false.
Proof. vm_compute. reflexivity. Qed.

Lemma admin_tx_cons : forall dept c s, is_space c = true -> admin_tx dept (c :: s) = c :: admin_tx dept s.
Proof.
  intros dept c s Hc. unfold admin_tx. destruct (str_eqb dept (u "admin")); [|reflexivity].
  rewrite replace_cons_nomatch by (rewrite admi_hd; apply startswith_space_hd; [exact Hc|reflexivity]).
  rewrite split_head_cons_nomatch; [reflexivity|].
  rewrite footer_hd. apply startswith_space_hd; [exact Hc|reflexivity].
Qed.

Lemma admin_tx_snoc : forall dept s c, is_space c = true ->
  admin_tx dept (s ++ [c]) = admin_tx dept s \/ admin_tx dept (s ++ [c]) = admin_tx dept s ++ [c].
Proof.
  intros dept s c Hc. unfold admin_tx. destruct (str_eqb dept (u "admin")); [|right; reflexivity].
  rewrite replace_snoc by (apply no_snoc_space; [discriminate|exact admi_last|exact Hc]).
  rewrite split_head_snoc by (apply no_snoc_space; [vm_compute; discriminate|exact footer_last|exact Hc]).
  destruct (contains _ admin_footer); [left; apply app_nil_r|right; reflexivity].
Qed.

Lemma pre_lines_cons : forall dept c s, is_space c = true -> pre_lines dept (c :: s) = pre_lines dept s.
Proof. intros dept c s Hc. unfold pre_lines. rewrite admin_tx_cons by exact Hc. apply np_cons_space, Hc. Qed.

Lemma pre_lines_snoc : forall dept s c, is_space c = true -> pre_lines dept (s ++ [c]) = pre_lines dept s.
Proof.
  intros dept s c Hc. unfold pre_lines.
  destruct (admin_tx_snoc dept s c Hc) as [E | E]; rewrite E; [reflexivity|]. apply np_snoc_space, Hc.
Qed.

Lemma pre_lines_pad : forall dept w1 s w2, spaces w1 -> spaces w2 ->
  pre_lines dept (w1 ++ s ++ w2) = pre_lines dept s.
Proof.
  intros dept w1 s w2 H1 H2. induction H1 as [|c w1 Hc _ IH]; cbn [app].
  - revert s. induction H2 as [|c w2 Hc _ IH]; intros s; [rewrite app_nil_r; reflexivity|].
    replace (s ++ c :: w2) with ((s ++ [c]) ++ w2) by (rewrite <- app_assoc; reflexivity).
    rewrite IH. apply pre_lines_snoc, Hc.
  - rewrite pre_lines_cons by exact Hc. exact IH.
Qed.

Lemma pre_lines_strip : forall dept t, pre_lines dept (strip t) = pre_lines dept t.
Proof.
  intros dept t. destruct (strip_split t) as (w1 & w2 & Ht & H1 & H2).
  rewrite Ht at 2. symmetry. apply pre_lines_pad; assumption.
Qed.

Lemma clean_unfold : forall z t dept, clean_text_advanced (z :: t) dept =
  match structural (pre_lines dept (if contains (z :: t) enrich_marker
                                    then strip (split_head (z :: t) enrich_marker) else z :: t)) with
  | None => None
  | Some fl => Some (if contains (join_lines fl) enrich_marker
                     then strip (split_head (join_lines fl) enrich_marker) else join_lines fl)
  end.
Proof. reflexivity. Qed.

Lemma startswith_nl_mid : forall a b p, ~ In nl p -> startswith (a ++ nl :: b) p = true -> startswith a p = true.
Proof.
  intros a; induction a as [|x a IH]; intros b p Hp H; (destruct p as [|c p]; [apply startswith_nil|]).
  - cbn [app startswith] in H. apply andb_prop in H. destruct H as [H _]. apply Z.eqb_eq in H.
    subst. destruct Hp. left. reflexivity.
  - cbn [app startswith] in H |- *. apply andb_prop in H. destruct H as [H1 H2]. rewrite H1.
    apply (IH b); [intros Hi; apply Hp; right; exact Hi|exact H2].
Qed.

Lemma split_head_app_nl : forall a b p, contains a p = false -> ~ In nl p ->
  split_head (a ++ nl :: b) p = a ++ split_head (nl :: b) p.
Proof.
  intros a; induction a as [|x a IH]; intros b p Hc Hp; [reflexivity|].
  cbn [contains] in Hc. apply orb_false_iff in Hc. destruct Hc as [Hs Hc].
  change ((x :: a) ++ nl :: b) with (x :: (a ++ nl :: b)). rewrite split_head_cons_nomatch.
  - cbn [app]. f_equal. apply IH; assumption.
  - apply Bool.not_true_is_false. intros H.
    apply (startswith_nl_mid (x :: a) b p Hp) in H. congruence.
Qed.

Lemma marker_hd : enrich_marker = 12304 :: tl enrich_marker.
Proof. vm_compute. reflexivity. Qed.

Lemma startswith_nl_marker : forall s, startswith (nl :: s) enrich_marker = false.
Proof. intros s. rewrite marker_hd. reflexivity. Qed.

Lemma split_head_marker : forall r, split_head (nl :: nl :: enrich_marker ++ r) enrich_marker = [nl; nl].
Proof.
  intros r. rewrite split_head_cons_nomatch by apply startswith_nl_marker.
  rewrite split_head_cons_nomatch by apply startswith_nl_marker.
  assert (Hs : startswith (enrich_marker ++ r) enrich_marker = true)
    by (apply startswith_spec; exists r; reflexivity).
  destruct (enrich_marker ++ r) as [|x t]; cbn [split_head]; rewrite Hs; reflexivity.
Qed.

Lemma marker_no_nl : ~ In nl enrich_marker.
Proof. intros H. apply contains_in in H. vm_compute in H. discriminate. Qed.

(** X9. Cleaning enriched content gives what cleaning the content itself
    gives, whatever the department, when the content does not already hold
    the enrichment marker: the appended location block is removed. *)
Theorem clean_enriched_roundtrip : forall repr_list content location_map dept,
  contains content enrich_marker = false ->
  clean_text_advanced (enrich_content_with_locations repr_list content location_map) dept
  = clean_text_advanced content dept.
Proof.
  intros r c m dept Hc. unfold enrich_content_with_locations.
  destruct c as [|z c]; [reflexivity|].
  destruct (enrich_loop r (z :: c) m []) as [|a added]; [reflexivity|].
  set (J := join_lines (sort_str (set_of (a :: added)))).
  change ((z :: c) ++ [nl; nl] ++ enrich_marker ++ [nl] ++ J)
    with (z :: (c ++ nl :: nl :: enrich_marker ++ nl :: J)).
  rewrite !clean_unfold, Hc.
  assert (Hin : contains (z :: c ++ nl :: nl :: enrich_marker ++ nl :: J) enrich_marker = true).
  { apply contains_spec. exists (z :: c ++ [nl; nl]), (nl :: J).
    rewrite <- app_comm_cons, <- app_assoc. reflexivity. }
  rewrite Hin.
  change (z :: c ++ nl :: nl :: enrich_marker ++ nl :: J)
    with ((z :: c) ++ nl :: (nl :: enrich_marker ++ nl :: J)).
  rewrite split_head_app_nl by (exact Hc || exact marker_no_nl).
  rewrite split_head_marker, strip_app_spaces by (repeat constructor).
  rewrite pre_lines_strip. reflexivity.
Qed.

(** *** The location map *)

Lemma location_map_step_other : forall m item, is_admin item = false -> location_map_step m item = Some m.
Proof.
  intros m [[d|] c] H; unfold is_admin in H; unfold location_map_step; cbn [department] in *;
    [|reflexivity]. rewrite H. reflexivity.
Qed.

Lemma build_from_admin : forall items m,
  build_location_map_from items m = build_location_map_from (filter is_admin items) m.
Proof.
  intros items; induction items as [|it items IH]; intros m; [reflexivity|]. simpl.
  destruct (is_admin it) eqn:E.
  - simpl. destruct (location_map_step m it); [apply IH|reflexivity].
  - rewrite location_map_step_other by exact E. apply IH.
Qed.

(** X10. [build_location_map] depends only on the items whose department
    is ["admin"]: dropping all other items gives the same map (or the same
    exception). *)
Theorem location_map_admin_only : forall raw_items,
  build_location_map raw_items = build_location_map (filter is_admin raw_items).
Proof. intros raw_items. apply build_from_admin. Qed.

(** An entry of the map read off an admin item of [R]: the office record
    [o] is extracted from the cleaned content of the item, whose building
    is [b]. *)
Definition map_entry_from (R : list Item) (kv : str * str) : Prop :=
  exists item c cc b o, In item R /\ department item = Some (u "admin") /\ content item = Some c
    /\ clean_text_advanced c (u "admin") = Some cc /\ _detect_building cc = Some b
    /\ In o (_extract_office_locations cc b)
    /\ (exists pats, In (b, pats) building_patterns) /\ building o = b /\ floor o <> []
    /\ fst kv = name_zh o /\ snd kv = b ++ u " " ++ floor o ++ u " " ++ room o ++ u "室".

Lemma dict_set_spec : forall m k v, NoDup (map fst m) ->
  NoDup (map fst (dict_set m k v))
  /\ forall kv, In kv (dict_set m k v) -> In kv m \/ kv = (k, v).
Proof.
  intros m k v; induction m as [|[k0 v0] m IH]; intros Hnd; simpl.
  - split; [repeat constructor; intros []|]. intros kv [<-|[]]. right. reflexivity.
  - inversion Hnd as [|? ? Hk0 Hnd']; subst. destruct (str_eqb k k0) eqn:E.
    + apply str_eqb_eq in E. subst k0. split; [exact Hnd|].
      intros kv [<-|Hin]; [right; reflexivity|left; right; exact Hin].
    + destruct (IH Hnd') as [H1 H2]. split.
      * simpl. constructor; [|exact H1]. intros Hin. apply in_map_iff in Hin.
        destruct Hin as ([k' v'] & Hk & Hin). simpl in Hk. subst k'.
        destruct (H2 _ Hin) as [Hin'|Heq].
        -- apply Hk0. apply in_map_iff. exists (k0, v'). auto.
        -- injection Heq as -> _. rewrite str_eqb_refl in E. discriminate.
      * intros kv [<-|Hin]; [left; left; reflexivity|].
        destruct (H2 _ Hin) as [H|H]; [left; right; exact H|right; exact H].
Qed.

Definition map_inv (R : list Item) (m : list (str * str)) : Prop :=
  NoDup (map fst m) /\ Forall (map_entry_from R) m.

Lemma add_offices_inv : forall R offices m, map_inv R m ->
  Forall (map_entry_from R) (map (fun o => (name_zh o, loc_info o)) offices) ->
  map_inv R (add_offices m offices).
Proof.
  intros R offices; induction offices as [|o offices IH]; intros m [Hnd Hok] Hf; [split; assumption|].
  inversion Hf as [|? ? Ho Hf']; subst. unfold add_offices. simpl. apply IH; [|exact Hf'].
  destruct (dict_set_spec m (name_zh o) (loc_info o) Hnd) as [H1 H2]. split; [exact H1|].
  apply Forall_forall. intros kv Hkv. destruct (H2 _ Hkv) as [Hin | ->]; [|exact Ho].
  rewrite Forall_forall in Hok. apply Hok, Hin.
Qed.

Lemma detect_in_key : forall text b, _detect_building text = Some b ->
  exists pats, In (b, pats) building_patterns.
Proof.
  intros text b H. apply detect_in_some in H. destruct H as (pre & pats & post & He & _).
  exists pats. rewrite He. apply in_app_iff. right. left. reflexivity.
Qed.

Lemma location_map_step_inv : forall R m item m', In item R -> map_inv R m ->
  location_map_step m item = Some m' -> map_inv R m'.
Proof.
  intros R m item m' HR Hm. unfold location_map_step. remember clean_text_advanced as cl eqn:Ecl.
  destruct (department item) as [d|] eqn:Ed; [|intros H; injection H as <-; exact Hm].
  destruct (str_eqb d (u "admin")) eqn:Ea; [|intros H; injection H as <-; exact Hm].
  apply str_eqb_eq in Ea. rewrite Ea in Ed.
  destruct (content item) as [[|z c]|] eqn:Ec0; try (intros H; injection H as <-; exact Hm).
  destruct (cl (z :: c) (u "admin")) as [cc|] eqn:Ecc; [|discriminate].
  rewrite Ecl in Ecc.
  destruct (_detect_building cc) as [b|] eqn:Eb; [|intros H; injection H as <-; exact Hm].
  destruct (contains cc (u "## ") || contains cc lou); [|intros H; injection H as <-; exact Hm].
  intros H. injection H as <-. apply add_offices_inv; [exact Hm|].
  apply Forall_forall. intros kv Hkv. apply in_map_iff in Hkv. destruct Hkv as (o & <- & Ho).
  pose proof Ho as Ho'.
  unfold _extract_office_locations in Ho'. destruct (extract_lines_origin _ _ _ _ Ho') as (Hb & Hf & _).
  exists item, (z :: c), cc, b, o. unfold loc_info. rewrite Hb.
  repeat (split; [assumption|]). split; [exact (detect_in_key _ _ Eb)|]. auto.
Qed.

Lemma build_from_inv : forall R items m m', (forall it, In it items -> In it R) -> map_inv R m ->
  build_location_map_from items m = Some m' -> map_inv R m'.
Proof.
  intros R items; induction items as [|it items IH]; intros m m' HR Hm H; simpl in H.
  - injection H as <-. exact Hm.
  - destruct (location_map_step m it) as [m1|] eqn:E; [|discriminate].
    refine (IH m1 m' _ (location_map_step_inv R _ _ _ (HR it (or_introl eq_refl)) Hm E) H).
    intros it' Hit. apply HR. right. exact Hit.
Qed.

(** X11. The map built by [build_location_map] has no duplicate key, and
    each entry comes from an office record extracted from an item of
    [raw_items] whose department is ["admin"]: the record is read from the
    cleaned content of the item, in the building [_detect_building] finds
    there (a key of [building_patterns]), has a non-empty floor, and the
    entry maps its [name_zh] to ["building floor room室"]. *)
Theorem location_map_entries : forall raw_items location_map,
  build_location_map raw_items = Some location_map ->
  NoDup (map fst location_map)
  /\ forall k v, In (k, v) location_map ->
     exists item c cc b o, In item raw_items /\ department item = Some (u "admin") /\ content item = Some c
       /\ clean_text_advanced c (u "admin") = Some cc /\ _detect_building cc = Some b
       /\ In o (_extract_office_locations cc b)
       /\ (exists pats, In (b, pats) building_patterns) /\ building o = b /\ floor o <> []
       /\ k = name_zh o /\ v = b ++ u " " ++ floor o ++ u " " ++ room o ++ u "室".
Proof.
  intros items lm H.
  destruct (build_from_inv items items [] lm (fun it Hit => Hit) (conj (NoDup_nil _) (Forall_nil _)) H)
    as [Hnd Hok].
  split; [exact Hnd|]. intros k v Hin. rewrite Forall_forall in Hok. exact (Hok _ Hin).
Qed.


Lemma unit_patterns_ok : forall lo hi suf, In (lo, hi, suf) unit_patterns ->
  suffix_ok suf = true /\ lo = 2%nat.
Proof.
  intros lo hi suf H.
  repeat (destruct H as [H|H]; [injection H as <- _ <-; split; [vm_compute|]; reflexivity|]). destruct H.
Qed.

Lemma name_char_hd : forall y, Forall (fun c => name_char c = true) y -> hd_not is_space y.
Proof.
  intros [|c y] H; simpl; [exact I|]. inversion H as [|? ? Hc _]; subst.
  unfold name_char in Hc. destruct (is_space c); [discriminate|reflexivity].
Qed.

Lemma existsb_false_in : forall (f : Z -> bool) l x, existsb f l = false -> In x l -> f x = false.
Proof.
  intros f l x H Hin. apply Bool.not_true_is_false. intros Hf.
  assert (existsb f l = true) by (apply existsb_exists; exists x; auto). congruence.
Qed.

(** X14. [_extract_unit_names] returns names without duplicates; each is a
    run of [lo..hi] characters of the class [[^\s,，。、]] followed by the
    suffix of one of [unit_patterns]; it occurs in the text, is not one of
    [exclude_terms], contains no character of [verb_chars] and does not
    start with a digit. *)
Theorem extract_unit_names_shape : forall text,
  NoDup (_extract_unit_names text) /\
  forall n, In n (_extract_unit_names text) ->
    (exists lo hi suf y, In (lo, hi, suf) unit_patterns /\ n = y ++ suf
       /\ (lo <= List.length y <= hi)%nat /\ Forall (fun c => name_char c = true) y)
    /\ contains text n = true /\ ~ In n exclude_terms
    /\ (forall v, In v verb_chars -> ~ In v n) /\ first_isdigit n = Some false.
Proof.
  intros text. split; [apply set_of_nodup|]. intros n Hn.
  apply set_of_in, in_flat_map in Hn. destruct Hn as [[[lo hi] suf] [Hp Hn]].
  apply in_map_iff in Hn. destruct Hn as [m [<- Hm]]. apply filter_In in Hm. destruct Hm as [Hm Hk].
  destruct (findall_unit_spec _ _ _ _ _ _ Hm) as (a & y & r & Ht & -> & Hl & Hf).
  destruct (unit_patterns_ok _ _ _ Hp) as [Hok Hlo].
  assert (Hs : strip (y ++ suf) = y ++ suf)
    by (rewrite strip_app_ok by exact Hok; rewrite drop_while_id by (apply name_char_hd, Hf); reflexivity).
  unfold keep_unit in Hk. rewrite Hs in Hk. rewrite Hs.
  apply andb_prop in Hk. destruct Hk as [Hk Hv]. apply andb_prop in Hk. destruct Hk as [Hd He].
  split; [exists lo, hi, suf, y; auto|]. split; [|split; [|split]].
  - apply contains_spec. exists a, r. rewrite Ht, <- app_assoc. reflexivity.
  - apply existsb_str_in, negb_true_iff, He.
  - intros v Hin Hvn. apply negb_true_iff in Hv.
    pose proof (existsb_false_in _ _ _ Hv Hin) as H0. cbv beta in H0.
    assert (existsb (Z.eqb v) (y ++ suf) = true) by (apply existsb_exists; exists v; split; [exact Hvn|apply Z.eqb_refl]).
    congruence.
  - destruct y as [|c y]; [subst lo; destruct Hl as [Hl _]; inversion Hl|]. simpl in Hd |- *.
    destruct (is_digit c); [discriminate|reflexivity].
Qed.

Open Scope Q_scope.

Lemma max0_le : forall v w, v <= w -> 0 <= w -> max0 v <= w.
Proof. intros v w H1 H2. unfold max0. destruct (qlt 0 v); assumption. Qed.

Lemma max0_mono : forall v w, v <= w -> max0 v <= max0 w.
Proof.
  intros v w H. unfold max0. destruct (qlt 0 v) eqn:Ev; destruct (qlt 0 w) eqn:Ew.
  - exact H.
  - apply qlt_true in Ev. apply qlt_false in Ew. lra.
  - apply qlt_true in Ew. lra.
  - apply Qle_refl.
Qed.

(** X12. For a non-negative distance, the boosted distance of
    [_apply_type_boost] lies between 0 and the original distance: a boost
    only ever lowers a distance, and never below 0. *)
Theorem apply_type_boost_bounds : forall meta dist intent, 0 <= dist ->
  0 <= _apply_type_boost meta dist intent <= dist.
Proof.
  intros meta dist intent H. unfold _apply_type_boost.
  destruct (_ && _); [split; [apply max0_nonneg|apply max0_le; lra]|].
  destruct (_ && _); [split; [apply max0_nonneg|apply max0_le; lra]|].
  destruct (_ && _); [split; [apply max0_nonneg|apply max0_le; lra]|].
  split; [exact H|apply Qle_refl].
Qed.

(** X13. [_apply_type_boost] is monotone in the distance: for one chunk
    and one intent, a larger distance never gets a smaller boosted distance. *)
Theorem apply_type_boost_monotone : forall meta d1 d2 intent, d1 <= d2 ->
  _apply_type_boost meta d1 intent <= _apply_type_boost meta d2 intent.
Proof.
  intros meta d1 d2 intent H. unfold _apply_type_boost.
  destruct (_ && _); [apply max0_mono; lra|].
  destruct (_ && _); [apply max0_mono; lra|].
  destruct (_ && _); [apply max0_mono; lra|exact H].
Qed.

Lemma apply_type_boost_bounds_witness :
  0 <= _apply_type_boost [(u "type", u "location")] (1#2) (u "location") <= 1#2.
Proof. apply apply_type_boost_bounds. discriminate. Defined.


Lemma vs_query_len : forall vs q n w r, vs_query vs q n w = Some r ->
  (List.length (entries r) <= n)%nat.
Proof.
  intros vs q n w r H. unfold vs_query in H. destruct (store_raises vs q n w); [discriminate|].
  injection H as <-. rewrite entries_unzip3, length_firstn. lia.
Qed.

Lemma try_query_len : forall vs q n w log log' r, try_query vs q n w log = (log', Some r) ->
  (List.length (entries r) <= n)%nat.
Proof.
  intros vs q n w log log' r H. unfold try_query, query in H. simpl in H.
  destruct (vs_query vs q n (Some w)) eqn:E.
  - injection H as _ <-. exact (vs_query_len _ _ _ _ _ E).
  - injection H as _ H. exact (vs_query_len _ _ _ _ _ H).
Qed.

Lemma query_len : forall vs q n w log log' r, query vs q n w log = (log', Some r) ->
  (List.length (entries r) <= n)%nat.
Proof. intros vs q n w log log' r H. injection H as _ H. exact (vs_query_len _ _ _ _ _ H). Qed.

Lemma append_results_len : forall st r,
  (List.length (snd (append_results st r)) <= List.length (snd st) + List.length (entries r))%nat.
Proof.
  intros st r. unfold append_results. generalize (entries r) as l. intros l. revert st.
  induction l as [|e l IH]; intros st; simpl; [lia|].
  specialize (IH (append_location st e)).
  assert (List.length (snd (append_location st e)) <= S (List.length (snd st)))%nat.
  { destruct st as [seen acc], e as [[d m] x]. unfold append_location.
    destruct (meta_get m (u "type")); [|simpl; lia].
    destruct (str_eqb _ _); [|simpl; lia]. destruct (existsb _ _); simpl; [lia|].
    rewrite length_app. simpl. lia. }
  lia.
Qed.

Lemma mfold_len : forall A B (g : B -> nat) (f : B -> A -> M B) k l acc log log' acc',
  (forall acc x log log' acc', In x l -> f acc x log = (log', Some acc') -> (g acc' <= g acc + k)%nat) ->
  mfold f l acc log = (log', Some acc') -> (g acc' <= g acc + k * List.length l)%nat.
Proof.
  intros A B g f k l; induction l as [|x l IH]; intros acc log log' acc' Hf H; simpl in H.
  - injection H as _ <-. simpl. lia.
  - unfold bind in H. destruct (f acc x log) as [log1 [b|]] eqn:E; [|discriminate].
    pose proof (Hf _ _ _ _ _ (or_introl eq_refl) E) as H1.
    assert (H2 : (g acc' <= g b + k * List.length l)%nat)
      by (apply (IH b log1 log'); [intros; eapply Hf; [right|]; eassumption | exact H]).
    simpl. nia.
Qed.

Lemma zip3_len : forall ds ms xs, (List.length (zip3 ds ms xs) <= List.length ds)%nat.
Proof.
  intros ds; induction ds as [|d ds IH]; intros [|m ms] [|x xs]; simpl; try lia.
  specialize (IH ms xs). lia.
Qed.

Lemma bind_ret_inv : forall A B (m : M A) (f : A -> B) log log' y,
  bind m (fun x => ret (f x)) log = (log', Some y) ->
  exists x log1, m log = (log1, Some x) /\ y = f x.
Proof.
  intros A B m f log log' y H. unfold bind in H. destruct (m log) as [log1 [x|]]; [|discriminate].
  injection H as _ <-. exists x, log1. auto.
Qed.

Lemma bind_ret_snd : forall A B (m : M A) (f : A -> B) log y,
  snd (bind m (fun x => ret (f x)) log) = Some y ->
  exists x log1, m log = (log1, Some x) /\ y = f x.
Proof.
  intros A B m f log y H. unfold bind in H. destruct (m log) as [log1 [x|]]; [|discriminate].
  injection H as <-. exists x, log1. auto.
Qed.

(** X17. [_append_location_chunks] adds at most [max_per_unit] entries per
    unit it queries: per unit id when there are ids, per unit name
    otherwise. *)
Theorem append_location_chunks_bound : forall vs results unit_ids unit_names max_per_unit log r,
  snd (_append_location_chunks vs results unit_ids unit_names max_per_unit log) = Some r ->
  (List.length (documents r) <= List.length (documents results)
     + max_per_unit * List.length (match unit_ids with [] => unit_names | _ => unit_ids end))%nat.
Proof.
  intros vs results ids names mx log r H. unfold _append_location_chunks in H.
  unfold bind at 1 in H.
  destruct (mfold _ ids _ log) as [log1 [st1|]] eqn:E1; [|discriminate].
  assert (H1 : (List.length (snd st1) <= List.length (entries results) + mx * List.length ids)%nat).
  { refine (mfold_len _ _ (fun st => List.length (snd st)) _ mx ids (_, entries results) log log1 st1 _ E1).
    intros st uid lg lg' st' _ Hs. destruct (bind_ret_inv _ _ _ _ _ _ _ Hs) as (x & lg1 & Hx & ->).
    pose proof (try_query_len _ _ _ _ _ _ _ Hx). pose proof (append_results_len st x). lia. }
  assert (Hd : (List.length (entries results) <= List.length (documents results))%nat).
  { unfold entries. apply zip3_len. }
  destruct ids as [|i ids'].
  - destruct (bind_ret_snd _ _ _ _ _ _ H) as (st2 & log2 & E2 & ->). unfold unzip3. simpl. rewrite length_map.
    assert (H2 : (List.length (snd st2) <= List.length (snd st1) + mx * List.length names)%nat).
    { refine (mfold_len _ _ (fun st => List.length (snd st)) _ mx names st1 log1 log2 st2 _ E2).
      intros st nm lg lg' st' _ Hs. destruct (bind_ret_inv _ _ _ _ _ _ _ Hs) as (x & lg1 & Hx & ->).
      pose proof (query_len _ _ _ _ _ _ _ Hx). pose proof (append_results_len st x). lia. }
    simpl in H1 |- *. unfold Entry, str in *. lia.
  - simpl in H. injection H as <-. unfold unzip3. simpl. rewrite length_map. unfold Entry, str in *. simpl in H1 |- *. lia.
Qed.

(** X15. The result of [retrieve_stage2] is sorted ascending by distance
    and holds at most [n_results] entries. *)
Theorem retrieve_stage2_sorted_bounded : forall vs unit_names unit_ids q n_results log r,
  snd (retrieve_stage2 vs unit_names unit_ids q n_results log) = Some r ->
  exists l, r = unzip3 l /\ Sorted (key_le dist_of) l /\ (List.length l <= n_results)%nat.
Proof.
  intros vs names ids q n log r H. unfold retrieve_stage2 in H. unfold bind at 1 in H.
  destruct (mfold _ ids _ log) as [log1 [st|]]; [|discriminate].
  destruct (bind_ret_snd _ _ _ _ _ _ H) as (st' & log2 & _ & ->). eexists. split; [reflexivity|]. split.
  - apply sorted_firstn, sort_by_sorted.
  - rewrite length_firstn. lia.
Qed.

(** The calls [retrieve_stage2] may issue. *)
Definition stage2_call (unit_names unit_ids : list str) (q : str) (n : nat) (c : Call) : Prop :=
  (exists uid, In uid unit_ids /\ c = (q, n, Some [(u "unit_id", uid)]))
  \/ c = (q, n, None)
  \/ (exists nm, In nm unit_names /\ c = (nm ++ u " " ++ q, n, None)).

Definition extends_by (P : Call -> Prop) (log0 log : list Call) : Prop :=
  exists calls, log = log0 ++ calls /\ Forall P calls.

Lemma extends_by_snoc : forall P log0 log c, P c -> extends_by P log0 log -> extends_by P log0 (log ++ [c]).
Proof.
  intros P log0 log c Hc (calls & -> & Hf). exists (calls ++ [c]). split; [symmetry; apply app_assoc|].
  apply Forall_app. split; [exact Hf|constructor; [exact Hc|constructor]].
Qed.

(** X16. [retrieve_stage2] only issues queries for the text [q] with
    [n_results] results, either filtered on [unit_id] equal to one of the
    given unit ids or unfiltered, and unfiltered queries [name + " " + q]
    for the given unit names. *)
Theorem retrieve_stage2_calls : forall vs unit_names unit_ids q n_results log,
  exists calls, fst (retrieve_stage2 vs unit_names unit_ids q n_results log) = log ++ calls
    /\ Forall (stage2_call unit_names unit_ids q n_results) calls.
Proof.
  intros vs names ids q n log.
  set (J := extends_by (stage2_call names ids q n) log).
  assert (T : triple J (retrieve_stage2 vs names ids q n) (fun _ => True)).
  { unfold retrieve_stage2. apply triple_bind with (P := fun _ => True).
    { apply triple_mfold; [|exact I]. intros st uid Huid _.
      apply triple_bind with (P := fun _ => True).
      - apply triple_try_query; try (intros; exact Logic.I); intros lg Hl; apply extends_by_snoc; auto;
          unfold stage2_call; [left; exists uid; auto | right; left; reflexivity].
      - intros r _. apply triple_ret. exact Logic.I. }
    intros st _. apply triple_bind with (P := fun _ => True).
    { destruct (snd st); [destruct names as [|nm0 names'] eqn:En|]; try (apply triple_ret; exact Logic.I).
      rewrite <- En. apply triple_mfold; [|exact Logic.I]. intros st' nm Hnm _.
      apply triple_bind with (P := fun _ => True).
      - apply triple_query; [|intros; exact Logic.I]. intros lg Hl. apply extends_by_snoc; [|exact Hl].
        right; right. exists nm. split; [rewrite <- En; exact Hnm|reflexivity].
      - intros r _. apply triple_ret. exact Logic.I. }
    intros st' _. apply triple_ret. exact Logic.I. }
  destruct (T log) as [Hl _]; [exists []; split; [symmetry; apply app_nil_r|constructor]|].
  exact Hl.
Qed.

Open Scope Z_scope.

Lemma detect_building_first_match_witness :
  exists pre pats post, building_patterns = pre ++ (u "行政大樓", pats) :: post
    /\ (exists p, In p pats /\ contains (u "教務處在行政大樓") p = true)
    /\ (forall b' pats' p, In (b', pats') pre -> In p pats' -> contains (u "教務處在行政大樓") p = false).
Proof.
  apply (proj1 (proj1 (detect_building_first_match (u "教務處在行政大樓")) (u "行政大樓"))).
  vm_compute. reflexivity.
Defined.

Lemma extract_title_spec_witness :
  exists pre line post, split_lines (join_lines [u " "; u " 標題 "; u "x"]) = pre ++ line :: post
    /\ Forall blank pre /\ _extract_title (join_lines [u " "; u " 標題 "; u "x"]) = strip line.
Proof.
  apply (proj1 (proj2 (extract_title_spec (join_lines [u " "; u " 標題 "; u "x"])))).
  vm_compute. discriminate.
Defined.

Lemma unit_name_from_text_shape_witness :
  exists suf y, In suf name_suffixes /\ u "教務處註冊組" = y ++ suf /\ (List.length y <= 12)%nat
    /\ ~ In nl (u "教務處註冊組") /\ first_isdigit (u "教務處註冊組") = Some false
    /\ contains (u "教務處註冊組位於行政大樓") (u "教務處註冊組") = true.
Proof. apply unit_name_from_text_shape. vm_compute. reflexivity. Defined.

Lemma enrich_unchanged_iff_witness :
  enrich_content_with_locations (fun _ => u "[]") (u "註冊組在行政大樓") [(u "圖書館", u "x")]
    = u "註冊組在行政大樓"
  <-> forall o l, In (o, l) [(u "圖書館", u "x")] -> contains (u "註冊組在行政大樓") o = false.
Proof. apply enrich_unchanged_iff; [reflexivity|discriminate]. Defined.

Lemma clean_output_no_marker_witness :
  contains (join_lines [u "## 1樓"; u "- 106 註冊組 (Registrar)"]) enrich_marker = false.
Proof.
  apply (clean_output_no_marker (join_lines [u "## 1樓"; u "106"; u "註冊組"; u "Registrar"]) (u "admin")).
  vm_compute. reflexivity.
Defined.

Lemma clean_enriched_roundtrip_witness :
  clean_text_advanced (enrich_content_with_locations (fun _ => u "[]") (u "註冊組在行政大樓")
                         [(u "註冊組", u "行政大樓 1樓 106室")]) (u "aca")
  = clean_text_advanced (u "註冊組在行政大樓") (u "aca").
Proof. apply clean_enriched_roundtrip. vm_compute. reflexivity. Defined.

Lemma location_map_entries_witness :
  NoDup (map fst [(u "註冊組", u "行政大樓 1樓 106室")])
  /\ forall k v, In (k, v) [(u "註冊組", u "行政大樓 1樓 106室")] ->
     exists item c cc b o,
       In item [mkItem (Some (u "admin")) (Some (join_lines [u "行政大樓"; u "## 1樓"; u "- 106 註冊組 (Registrar)"]))]
       /\ department item = Some (u "admin") /\ content item = Some c
       /\ clean_text_advanced c (u "admin") = Some cc /\ _detect_building cc = Some b
       /\ In o (_extract_office_locations cc b)
       /\ (exists pats, In (b, pats) building_patterns) /\ building o = b /\ floor o <> []
       /\ k = name_zh o /\ v = b ++ u " " ++ floor o ++ u " " ++ room o ++ u "室".
Proof.
  apply (location_map_entries
           [mkItem (Some (u "admin")) (Some (join_lines [u "行政大樓"; u "## 1樓"; u "- 106 註冊組 (Registrar)"]))]).
  vm_compute. reflexivity.
Defined.

Lemma extract_unit_names_shape_witness :
  (exists lo hi suf y, In (lo, hi, suf) unit_patterns /\ u "洽教務處註冊組" = y ++ suf
       /\ (lo <= List.length y <= hi)%nat /\ Forall (fun c => name_char c = true) y)
  /\ contains (u "請洽教務處註冊組") (u "洽教務處註冊組") = true /\ ~ In (u "洽教務處註冊組") exclude_terms
  /\ (forall v, In v verb_chars -> ~ In v (u "洽教務處註冊組")) /\ first_isdigit (u "洽教務處註冊組") = Some false.
Proof. apply (proj2 (extract_unit_names_shape (u "請洽教務處註冊組"))). vm_compute. left. reflexivity. Defined.

Open Scope Q_scope.

Lemma apply_type_boost_monotone_witness :
  _apply_type_boost [(u "type", u "location")] (1#10) (u "location")
  <= _apply_type_boost [(u "type", u "location")] (1#2) (u "location").
Proof. apply apply_type_boost_monotone. vm_compute. discriminate. Defined.

Lemma retrieve_stage2_sorted_bounded_witness :
  exists r, snd (retrieve_stage2 order_store [] [u "u"] (u "x") 10 []) = Some r
    /\ exists l, r = unzip3 l /\ Sorted (key_le dist_of) l /\ (List.length l <= 10)%nat.
Proof.
  eexists. split; [vm_compute; reflexivity|].
  apply (retrieve_stage2_sorted_bounded order_store [] [u "u"] (u "x") 10 []). vm_compute. reflexivity.
Defined.

Lemma append_location_chunks_bound_witness :
  exists r, snd (_append_location_chunks order_store empty_res [u "u"] [] 2 []) = Some r
    /\ (List.length (documents r) <= List.length (documents empty_res) + 2 * List.length [u "u"])%nat.
Proof.
  eexists. split; [vm_compute; reflexivity|].
  apply (append_location_chunks_bound order_store empty_res [u "u"] [] 2 []). vm_compute. reflexivity.
Defined.

End ProcessorFacts.
